(** * lora-to-csv.py: the MQTT-to-CSV bridge, its message handler and sinks

    A shallow embedding of [MQTTToCSV.on_message] (src/lora-to-csv.py) and of
    the library calls it relies on ([str.split], [dict] item access,
    [json.dumps], [csv.writer.writerow]), followed by the properties of the
    handler: header inference, row layout, error containment, the two
    sinks, and the lock.

    Conventions of the embedding.
    - A Python [str] is a Rocq [string]; the character of code [n] stands for
      the code point [n] (so the embedding covers code points below 256).
    - A Python [float] is never computed with by this program, only printed:
      it is carried as the text [float.__repr__] gives for it.
    - A Python [dict] keeps insertion order: it is an association list, and
      item assignment replaces in place or appends.
    - [msg.payload.decode('utf-8')] followed by [json.loads] is library code
      whose number parsing is floating point; a message carries what these
      two calls make of its payload.
    - A call on a sink ([writerow], [flush]) may raise: the console's or the
      file's encoder cannot take the text (UnicodeEncodeError), or the
      device fails (OSError).  Which calls raise is the sinks' business and
      is a parameter of the object, [sinks]; it covers in particular the
      texts [json.loads] can return that lie beyond the characters of this
      embedding, such as a lone surrogate, which the UTF-8 file refuses. *)

From Stdlib Require Import List String Ascii ZArith Bool Lia Arith.
From Stdlib Require Import Numbers.DecimalString.
Import ListNotations.
Open Scope list_scope.
Open Scope string_scope.

Set Warnings "-register-all".

(** ** Python values *)

Inductive pyval : Type :=
| PyNone
| PyBool (b : bool)
| PyInt (z : Z)
| PyFloat (repr : string)
| PyStr (s : string)
| PyList (l : list pyval)
| PyDict (d : list (string * pyval)).

Definition dict : Type := list (string * pyval).

(** [isinstance(value, (list, dict))] *)
Definition is_list_or_dict (v : pyval) : bool :=
  match v with
  | PyList _ | PyDict _ => true
  | _ => false
  end.

(** ** Characters and text helpers *)

Definition dquote : ascii := "034"%char.
Definition squote : ascii := "039"%char.
Definition backslash : ascii := "092"%char.
Definition CR : ascii := "013"%char.
Definition LF : ascii := "010"%char.
Definition TAB : ascii := "009"%char.
Definition BS : ascii := "008"%char.
Definition FF : ascii := "012"%char.

Definition str1 (c : ascii) : string := String c EmptyString.

(** [sep.join(parts)] *)
Fixpoint join (sep : string) (parts : list string) : string :=
  match parts with
  | [] => ""
  | [p] => p
  | p :: ps => p ++ sep ++ join sep ps
  end.

(** [c in s] for a character *)
Fixpoint contains (c : ascii) (s : string) : bool :=
  match s with
  | EmptyString => false
  | String a r => Ascii.eqb a c || contains c r
  end.

(** [any(p(c) for c in s)] *)
Fixpoint any_char (p : ascii -> bool) (s : string) : bool :=
  match s with
  | EmptyString => false
  | String a r => p a || any_char p r
  end.

(** [''.join(f(c) for c in s)] *)
Fixpoint concat_map_char (f : ascii -> string) (s : string) : string :=
  match s with
  | EmptyString => ""
  | String a r => f a ++ concat_map_char f r
  end.

Definition hex_digit (n : nat) : ascii :=
  nth n (list_ascii_of_string "0123456789abcdef") "0"%char.

(** two lower-case hexadecimal digits of a code below 256 *)
Definition hex2 (c : ascii) : string :=
  let n := nat_of_ascii c in
  String (hex_digit (n / 16)) (str1 (hex_digit (n mod 16))).

(** [int.__repr__] *)
Definition int_repr (z : Z) : string := NilZero.string_of_int (Z.to_int z).

(** ** [str.split(sep)] with an explicit one-character separator *)

Fixpoint split (sep : ascii) (s : string) : list string :=
  match s with
  | EmptyString => [""]
  | String c r =>
      if Ascii.eqb c sep then "" :: split sep r
      else match split sep r with
           | [] => [str1 c]
           | p :: ps => String c p :: ps
           end
  end.

(** ** [dict] operations *)

(** [d.get(k)]; the caller supplies the default *)
Fixpoint dict_lookup (d : dict) (k : string) : option pyval :=
  match d with
  | [] => None
  | (k', v) :: r => if String.eqb k' k then Some v else dict_lookup r k
  end.

(** [d.get(k, default)] *)
Definition dict_get (d : dict) (k : string) (default : pyval) : pyval :=
  match dict_lookup d k with
  | Some v => v
  | None => default
  end.

(** [d[k] = v]: an existing key keeps its position, a new one goes last *)
Fixpoint dict_setitem (d : dict) (k : string) (v : pyval) : dict :=
  match d with
  | [] => [(k, v)]
  | (k', v') :: r =>
      if String.eqb k' k then (k', v) :: r
      else (k', v') :: dict_setitem r k v
  end.

(** [d.keys()], in iteration order *)
Definition dict_keys (d : dict) : list string := map fst d.

(** [k in l] for a list of strings *)
Definition str_in (k : string) (l : list string) : bool :=
  existsb (String.eqb k) l.

(** ** [json.dumps] with its defaults
    ([ensure_ascii=True], a comma and a space between items, a colon and a
    space after a key, [allow_nan=True]) *)

(** One character of [py_encode_basestring_ascii]: the backslash, the
    double quote and every character outside the range from space to tilde
    are escaped. *)
Definition json_escape_char (c : ascii) : string :=
  if Ascii.eqb c dquote then String backslash (str1 dquote)
  else if Ascii.eqb c backslash then String backslash (str1 backslash)
  else if Ascii.eqb c LF then "\n"
  else if Ascii.eqb c CR then "\r"
  else if Ascii.eqb c TAB then "\t"
  else if Ascii.eqb c FF then "\f"
  else if Ascii.eqb c BS then "\b"
  else
    let n := nat_of_ascii c in
    if Nat.leb 32 n && Nat.leb n 126 then str1 c
    else "\u00" ++ hex2 c.

Definition encode_basestring_ascii (s : string) : string :=
  String dquote (concat_map_char json_escape_char s ++ str1 dquote).

(** [floatstr] of [json.encoder]: [float.__repr__] but for the three
    non-finite values *)
Definition floatstr (repr : string) : string :=
  if String.eqb repr "nan" then "NaN"
  else if String.eqb repr "inf" then "Infinity"
  else if String.eqb repr "-inf" then "-Infinity"
  else repr.

Fixpoint json_dumps (v : pyval) : string :=
  match v with
  | PyNone => "null"
  | PyBool true => "true"
  | PyBool false => "false"
  | PyInt z => int_repr z
  | PyFloat r => floatstr r
  | PyStr s => encode_basestring_ascii s
  | PyList l => "[" ++ join ", " (map json_dumps l) ++ "]"
  | PyDict d =>
      "{" ++ join ", "
               (map (fun kv =>
                       match kv with
                       | (k, x) => encode_basestring_ascii k ++ ": " ++ json_dumps x
                       end) d)
          ++ "}"
  end.

(** ** [repr] and [str] of Python values *)

(** [Py_UNICODE_ISPRINTABLE] on the code points the embedding covers *)
Definition isprintable (c : ascii) : bool :=
  let n := nat_of_ascii c in
  (Nat.leb 32 n && Nat.leb n 126) || (Nat.leb 161 n && negb (Nat.eqb n 173)).

(** one character of [unicode_repr], for the chosen quote *)
Definition repr_char (quote c : ascii) : string :=
  if Ascii.eqb c quote || Ascii.eqb c backslash then String backslash (str1 c)
  else if Ascii.eqb c TAB then "\t"
  else if Ascii.eqb c LF then "\n"
  else if Ascii.eqb c CR then "\r"
  else if isprintable c then str1 c
  else "\x" ++ hex2 c.

(** [str.__repr__]: single quotes, unless the text has a single quote and
    no double quote *)
Definition str_repr (s : string) : string :=
  let quote := if contains squote s && negb (contains dquote s)
               then dquote else squote in
  String quote (concat_map_char (repr_char quote) s ++ str1 quote).

Fixpoint py_repr (v : pyval) : string :=
  match v with
  | PyNone => "None"
  | PyBool true => "True"
  | PyBool false => "False"
  | PyInt z => int_repr z
  | PyFloat r => r
  | PyStr s => str_repr s
  | PyList l => "[" ++ join ", " (map py_repr l) ++ "]"
  | PyDict d =>
      "{" ++ join ", "
               (map (fun kv =>
                       match kv with
                       | (k, x) => str_repr k ++ ": " ++ py_repr x
                       end) d)
          ++ "}"
  end.

(** [str(v)] *)
Definition py_str (v : pyval) : string :=
  match v with
  | PyStr s => s
  | _ => py_repr v
  end.

(** ** [csv.writer(...).writerow] in the default (excel) dialect:
    comma delimiter, double-quote quote character, [QUOTE_MINIMAL], doubled
    quotes, line terminator CR LF *)

Definition row : Type := list pyval.

(** text of a field before quoting: [None] is written as the empty text *)
Definition csv_field_text (v : pyval) : string :=
  match v with
  | PyNone => ""
  | _ => py_str v
  end.

(** the characters that force quoting: delimiter, quote character, and the
    characters of the line terminator *)
Definition csv_special (c : ascii) : bool :=
  Ascii.eqb c ","%char || Ascii.eqb c dquote || Ascii.eqb c CR || Ascii.eqb c LF.

Definition csv_double_quotes (s : string) : string :=
  concat_map_char (fun c => if Ascii.eqb c dquote then String dquote (str1 dquote)
                            else str1 c) s.

Definition csv_quoted (s : string) : string :=
  String dquote (csv_double_quotes s ++ str1 dquote).

Definition csv_field (v : pyval) : string :=
  let s := csv_field_text v in
  if any_char csv_special s then csv_quoted s else s.

Definition csv_lineterminator : string := String CR (str1 LF).

(** the text one [writerow(r)] call hands to the stream *)
Definition csv_writerow (r : row) : string :=
  let rec := join "," (map csv_field r) in
  let rec := match r, rec with
             | _ :: _, EmptyString => String dquote (str1 dquote)
             | _, _ => rec
             end in
  rec ++ csv_lineterminator.

(** ** Messages, exceptions and the process state *)

(** The exceptions that reach the handlers of lines 122-125: raised by the
    decoding, by [json.loads], by the item assignment of line 85, by the
    attribute access of lines 96 and 110, or by a call on a sink. *)
Inductive exn : Type :=
| UnicodeDecodeError (e : string)
| JSONDecodeError (e : string)
| TypeError (e : string)
| AttributeError (e : string)
| ValueError (e : string)
| RecursionError (e : string)
| UnicodeEncodeError (e : string)
| OSError (e : string).

(** [str(e)] in the handlers' f-strings *)
Definition exn_str (e : exn) : string :=
  match e with
  | UnicodeDecodeError m | JSONDecodeError m | TypeError m | AttributeError m
  | ValueError m | RecursionError m | UnicodeEncodeError m | OSError m => m
  end.

(** What [msg.payload.decode('utf-8')] and then [json.loads] make of the
    payload bytes.  [json.loads] is not a JSON validator both ways: it
    returns a value for the literals NaN and Infinity, and it raises
    exceptions of other classes on some valid texts (ValueError on an
    integer literal beyond the digit limit, RecursionError on deep
    nesting). *)
Inductive decoded : Type :=
| NotUtf8 (e : string)        (* [decode] raises UnicodeDecodeError *)
| NotJson (e : string)        (* [json.loads] raises JSONDecodeError *)
| LoadsError (e : exn)        (* [json.loads] raises another exception *)
| Json (data : pyval).        (* [json.loads] returns [data] *)

Record MQTTMessage : Type := {
  topic : string;
  payload : decoded
}.

(** The three [print(..., file=sys.stderr)] calls of [on_message]. *)
Inductive diagnostic : Type :=
| UnexpectedTopicFormat (topic : string)      (* line 82 *)
| FailedToDecodeJSON (e : string)             (* line 123 *)
| ErrorProcessingMessage (e : string).        (* line 125 *)

(** The calls [on_message] makes on its three streams. *)
Inductive event : Type :=
| StdoutWriterow (r : row)          (* [self.csv_stdout_writer.writerow(r)] *)
| FileWriterow (r : row)            (* [self.csv_file_writer.writerow(r)] *)
| StdoutFlush                       (* [sys.stdout.flush()] *)
| FileFlush                         (* [self.file_handle.flush()] *)
| StderrPrint (d : diagnostic).

(** How the two sinks answer a call: given the calls that went through on
    the sinks so far and the call attempted, the exception it raises, if
    any.  A call that raises leaves its stream as it was. *)
Definition sink_behaviour : Type := list event -> event -> option exn.

(** The fields of [MQTTToCSV] that [on_message] reads or writes, and the
    sinks it was given ([sys.stdout] and the file of line 43 behind the two
    writers).  [remaining_keys] is an attribute that does not exist until
    the first header is computed; [io] is every call that went through on
    the streams so far, oldest first. *)
Record MQTTToCSV : Type := {
  callsign : string;
  headers_written : bool;
  remaining_keys : option (list string);
  io : list event;
  sinks : sink_behaviour
}.

(** [MQTTToCSV.__init__], as far as [on_message] is concerned *)
Definition init (sinks : sink_behaviour) (callsign : string) : MQTTToCSV :=
  {| callsign := callsign;
     headers_written := false;
     remaining_keys := None;
     io := [];
     sinks := sinks |}.

(** sinks none of whose calls ever raises *)
Definition reliable (s : sink_behaviour) : Prop := forall h ev, s h ev = None.

(** sinks whose [writerow] never raises; their [flush] may *)
Definition writes_through (s : sink_behaviour) : Prop :=
  forall h r, s h (StdoutWriterow r) = None /\ s h (FileWriterow r) = None.

(** a console and a file that take everything *)
Definition no_failure : sink_behaviour := fun _ _ => None.

(** the calls made on the two sinks, among all the calls *)
Definition sink_events (t : list event) : list event :=
  filter (fun ev => match ev with StderrPrint _ => false | _ => true end) t.

(** ** A state-and-exception monad for the handler's body *)

Definition M (A : Type) : Type := MQTTToCSV -> (exn + A) * MQTTToCSV.

Definition ret {A : Type} (a : A) : M A := fun self => (inr a, self).

Definition raise {A : Type} (e : exn) : M A := fun self => (inl e, self).

Definition bind {A B : Type} (m : M A) (k : A -> M B) : M B :=
  fun self =>
    match m self with
    | (inl e, self') => (inl e, self')
    | (inr a, self') => k a self'
    end.

Notation "x <- m ;; k" := (bind m (fun x => k))
  (at level 61, m at next level, right associativity).
Notation "m ;; k" := (bind m (fun _ => k))
  (at level 61, right associativity).

Definition get_self : M MQTTToCSV := fun self => (inr self, self).

(** a call on a stream that went through: [print] to standard error, and
    the calls on the sinks once they are known not to raise *)
Definition emit (ev : event) : M unit :=
  fun self =>
    (inr tt, {| callsign := callsign self;
                headers_written := headers_written self;
                remaining_keys := remaining_keys self;
                io := (io self ++ [ev])%list;
                sinks := sinks self |}).

(** a call on a sink: it raises what the sink answers, or goes through *)
Definition sink_call (ev : event) : M unit :=
  fun self =>
    match sinks self (sink_events (io self)) ev with
    | Some e => (inl e, self)
    | None => emit ev self
    end.

Definition set_remaining_keys (rk : list string) : M unit :=
  fun self =>
    (inr tt, {| callsign := callsign self;
                headers_written := headers_written self;
                remaining_keys := Some rk;
                io := io self;
                sinks := sinks self |}).

Definition set_headers_written (b : bool) : M unit :=
  fun self =>
    (inr tt, {| callsign := callsign self;
                headers_written := b;
                remaining_keys := remaining_keys self;
                io := io self;
                sinks := sinks self |}).

(** reading [self.remaining_keys] *)
Definition get_remaining_keys : M (list string) :=
  fun self =>
    match remaining_keys self with
    | Some rk => (inr rk, self)
    | None =>
        (inl (AttributeError
                "'MQTTToCSV' object has no attribute 'remaining_keys'"), self)
    end.

(** [try: body except Exception as e: handler(e)] *)
Definition try_except {A : Type} (body : M A) (handler : exn -> M A) : M A :=
  fun self =>
    match body self with
    | (inl e, self') => handler e self'
    | (inr a, self') => (inr a, self')
    end.

(** ** [MQTTToCSV.on_message] *)

(** lines 72-73 *)
Definition decode_and_loads (msg : MQTTMessage) : M pyval :=
  match payload msg with
  | NotUtf8 e => raise (UnicodeDecodeError e)
  | NotJson e => raise (JSONDecodeError e)
  | LoadsError e => raise e
  | Json data => ret data
  end.

(** lines 76-82 *)
Definition topic_tx_callsign (msg : MQTTMessage) : M string :=
  let topic_parts := split "/" (topic msg) in
  if Nat.leb 4 (List.length topic_parts) then ret (nth 2 topic_parts "")
  else emit (StderrPrint (UnexpectedTopicFormat (topic msg))) ;; ret "".

(** [data[k] = v] on whatever [json.loads] returned: only a dict takes it *)
Definition setitem (data : pyval) (k : string) (v : pyval) : M dict :=
  match data with
  | PyDict d => ret (dict_setitem d k v)
  | PyList _ => raise (TypeError "list indices must be integers or slices, not str")
  | PyStr _ => raise (TypeError "'str' object does not support item assignment")
  | PyInt _ => raise (TypeError "'int' object does not support item assignment")
  | PyFloat _ => raise (TypeError "'float' object does not support item assignment")
  | PyBool _ => raise (TypeError "'bool' object does not support item assignment")
  | PyNone => raise (TypeError "'NoneType' object does not support item assignment")
  end.

(** line 93 *)
Definition fixed_headers : list string :=
  ["timestamp"; "rx_callsign"; "tx_callsign"].

(** line 95 *)
Definition compute_remaining_keys (data : dict) : list string :=
  filter (fun k => negb (str_in k fixed_headers)) (dict_keys data).

(** lines 91-101 *)
Definition write_headers_once (data : dict) : M unit :=
  self <- get_self ;;
  if negb (headers_written self) then
    let headers := fixed_headers in
    set_remaining_keys (compute_remaining_keys data) ;;
    rk <- get_remaining_keys ;;
    let headers := (headers ++ rk)%list in
    sink_call (StdoutWriterow (map PyStr headers)) ;;
    sink_call (FileWriterow (map PyStr headers)) ;;
    set_headers_written true
  else ret tt.

(** lines 111-115: one turn of the loop over [self.remaining_keys] *)
Definition cell (data : dict) (key : string) : pyval :=
  let value := dict_get data key (PyStr "") in
  if is_list_or_dict value then PyStr (json_dumps value) else value.

(** lines 104-115 *)
Definition build_row (data : dict) (rk : list string) : row :=
  ([ dict_get data "timestamp" (PyStr "");
     dict_get data "rx_callsign" (PyStr "");
     dict_get data "tx_callsign" (PyStr "") ] ++ map (cell data) rk)%list.

(** lines 90-121, the body of [with self.lock] *)
Definition locked_section (data : dict) : M unit :=
  write_headers_once data ;;
  rk <- get_remaining_keys ;;
  let row := build_row data rk in
  sink_call (StdoutWriterow row) ;;
  sink_call (FileWriterow row) ;;
  sink_call StdoutFlush ;;
  sink_call FileFlush.

(** lines 72-88 *)
Definition prepare (msg : MQTTMessage) : M dict :=
  data <- decode_and_loads msg ;;
  tx_callsign <- topic_tx_callsign msg ;;
  data <- setitem data "tx_callsign" (PyStr tx_callsign) ;;
  self <- get_self ;;
  ret (dict_setitem data "rx_callsign" (PyStr (callsign self))).

(** lines 72-121, the body of [try] *)
Definition try_body (msg : MQTTMessage) : M unit :=
  data <- prepare msg ;;
  locked_section data.

(** the line a handler prints for an exception *)
Definition handler_diagnostic (e : exn) : diagnostic :=
  match e with
  | JSONDecodeError m => FailedToDecodeJSON m
  | _ => ErrorProcessingMessage (exn_str e)
  end.

Definition handler_event (e : exn) : event := StderrPrint (handler_diagnostic e).

(** lines 122-125 *)
Definition handlers (e : exn) : M unit :=
  match e with
  | JSONDecodeError m => emit (StderrPrint (FailedToDecodeJSON m))
  | _ => emit (StderrPrint (ErrorProcessingMessage (exn_str e)))
  end.

Definition on_message (msg : MQTTMessage) : M unit :=
  try_except (try_body msg) handlers.

(** The callback applied to the messages of a run, in order of arrival; an
    exception leaving the callback would end the loop. *)
Fixpoint deliver (msgs : list MQTTMessage) : M unit :=
  match msgs with
  | [] => ret tt
  | msg :: rest => on_message msg ;; deliver rest
  end.

(** the state a computation leaves *)
Definition exec {A : Type} (m : M A) (self : MQTTToCSV) : MQTTToCSV :=
  snd (m self).

(** ** What the streams hold, read off the calls made on them *)

Definition stdout_rows (t : list event) : list row :=
  flat_map (fun ev => match ev with StdoutWriterow r => [r] | _ => [] end) t.

Definition file_rows (t : list event) : list row :=
  flat_map (fun ev => match ev with FileWriterow r => [r] | _ => [] end) t.

Definition stderr_lines (t : list event) : list diagnostic :=
  flat_map (fun ev => match ev with StderrPrint d => [d] | _ => [] end) t.

(** A buffered text stream: what has been pushed out by [flush], and what
    [write] has left in the buffer since. *)
Record stream : Type := {
  flushed : string;
  buffered : string
}.

Definition stream_write (st : stream) (text : string) : stream :=
  {| flushed := flushed st; buffered := buffered st ++ text |}.

Definition stream_flush (st : stream) : stream :=
  {| flushed := flushed st ++ buffered st; buffered := "" |}.

Definition empty_stream : stream := {| flushed := ""; buffered := "" |}.

Definition stdout_step (st : stream) (ev : event) : stream :=
  match ev with
  | StdoutWriterow r => stream_write st (csv_writerow r)
  | StdoutFlush => stream_flush st
  | _ => st
  end.

Definition file_step (st : stream) (ev : event) : stream :=
  match ev with
  | FileWriterow r => stream_write st (csv_writerow r)
  | FileFlush => stream_flush st
  | _ => st
  end.

Definition stdout_stream (t : list event) : stream :=
  fold_left stdout_step t empty_stream.

Definition file_stream (t : list event) : stream :=
  fold_left file_step t empty_stream.

(** ** Derived descriptions of one call *)

(** the sender id the topic gives (lines 76-81) *)
Definition tx_callsign_of (msg : MQTTMessage) : string :=
  let topic_parts := split "/" (topic msg) in
  if Nat.leb 4 (List.length topic_parts) then nth 2 topic_parts "" else "".

(** the warning of line 82, when it is printed *)
Definition topic_warning (msg : MQTTMessage) : list event :=
  if Nat.leb 4 (List.length (split "/" (topic msg))) then []
  else [StderrPrint (UnexpectedTopicFormat (topic msg))].

(** the decoded record after lines 85 and 88 *)
Definition injected (rx : string) (msg : MQTTMessage) (d : dict) : dict :=
  dict_setitem (dict_setitem d "tx_callsign" (PyStr (tx_callsign_of msg)))
               "rx_callsign" (PyStr rx).

Definition add_io (self : MQTTToCSV) (evs : list event) : MQTTToCSV :=
  {| callsign := callsign self;
     headers_written := headers_written self;
     remaining_keys := remaining_keys self;
     io := (io self ++ evs)%list;
     sinks := sinks self |}.

(** Calls on the sinks made one after the other until one raises: the calls
    that went through and the exception that ended them, if any.  [t] is
    what was done to the streams before. *)
Fixpoint perform (s : sink_behaviour) (t : list event) (calls : list event)
  : list event * option exn :=
  match calls with
  | [] => ([], None)
  | ev :: rest =>
      match s (sink_events t) ev with
      | Some e => ([], Some e)
      | None =>
          let (done, r) := perform s (t ++ [ev])%list rest in
          (ev :: done, r)
      end
  end.

(** the line the handler adds when the calls ended in an exception *)
Definition handled (r : option exn) : list event :=
  match r with
  | Some e => [handler_event e]
  | None => []
  end.

(** the calls of lines 118-121 *)
Definition row_events (r : row) : list event :=
  [StdoutWriterow r; FileWriterow r; StdoutFlush; FileFlush].

(** the calls of lines 99-100 *)
Definition header_events (rk : list string) : list event :=
  let headers := map PyStr (fixed_headers ++ rk)%list in
  [StdoutWriterow headers; FileWriterow headers].

(** the message is one the handler makes a row of *)
Definition is_record (msg : MQTTMessage) : bool :=
  match payload msg with
  | Json (PyDict _) => true
  | _ => false
  end.

(** the data rows a frozen schema gives for a sequence of messages *)
Definition data_rows (rx : string) (rk : list string)
    (msgs : list MQTTMessage) : list row :=
  flat_map (fun msg =>
              match payload msg with
              | Json (PyDict d) => [build_row (injected rx msg d) rk]
              | _ => []
              end) msgs.

(** the attribute exists once the flag is set *)
Definition schema_ok (self : MQTTToCSV) : Prop :=
  headers_written self = true -> exists rk, remaining_keys self = Some rk.

(** the diagnostic a message that is no record ends in *)
Definition rejection (msg : MQTTMessage) : list event :=
  match payload msg with
  | NotUtf8 e => [StderrPrint (ErrorProcessingMessage e)]
  | NotJson e => [StderrPrint (FailedToDecodeJSON e)]
  | LoadsError e => [handler_event e]
  | Json data =>
      (topic_warning msg ++
       [StderrPrint (ErrorProcessingMessage
          match data with
          | PyList _ => "list indices must be integers or slices, not str"
          | PyStr _ => "'str' object does not support item assignment"
          | PyInt _ => "'int' object does not support item assignment"
          | PyFloat _ => "'float' object does not support item assignment"
          | PyBool _ => "'bool' object does not support item assignment"
          | _ => "'NoneType' object does not support item assignment"
          end)])%list
  end.

(** the text of a sequence of records *)
Fixpoint csv_text (rows : list row) : string :=
  match rows with
  | [] => ""
  | r :: rest => csv_writerow r ++ csv_text rest
  end.

(** the events after the header, for a frozen schema *)
Definition later_events (rx : string) (rk : list string)
    (msgs : list MQTTMessage) : list event :=
  flat_map (fun msg =>
              match payload msg with
              | Json (PyDict d) =>
                  (topic_warning msg
                     ++ row_events (build_row (injected rx msg d) rk))%list
              | _ => rejection msg
              end) msgs.

(** the two sinks hold the same text and nothing is left in a buffer *)
Definition in_sync (out file : stream) (rows : list row) : Prop :=
  out = file /\ buffered file = "" /\ flushed file = csv_text rows.

Definition only_stderr (evs : list event) : Prop :=
  Forall (fun ev => exists d, ev = StderrPrint d) evs.

(** ** Sample messages *)

(** the end-to-end scenario of the specification *)
Definition scenario_record : dict :=
  [("timestamp", PyStr "2024-01-01T00:00:00Z");
   ("lat", PyFloat "1.0"); ("lon", PyFloat "2.0")].

Definition scenario_msg : MQTTMessage :=
  {| topic := "lora_aprs/RX1/TX1/json_message";
     payload := Json (PyDict scenario_record) |}.

(** a later record with another key set *)
Definition other_record : dict := [("lat", PyFloat "3.5"); ("alt", PyInt 12)].

Definition other_msg : MQTTMessage :=
  {| topic := "lora_aprs/RX1/TX2/json_message";
     payload := Json (PyDict other_record) |}.

(** a short topic, on a payload that is no JSON and on one that is a record *)
Definition short_topic_garbage : MQTTMessage :=
  {| topic := "lora_aprs/RX1";
     payload := NotJson "Expecting value: line 1 column 1 (char 0)" |}.

Definition short_topic_msg : MQTTMessage :=
  {| topic := "lora_aprs/RX1"; payload := Json (PyDict other_record) |}.

(** valid JSON that is no object *)
Definition array_msg : MQTTMessage :=
  {| topic := "lora_aprs/RX1/TX1/json_message";
     payload := Json (PyList [PyInt 1]) |}.

(** structured values, in a remaining column and in a fixed one *)
Definition path_record : dict := [("path", PyList [PyInt 1; PyInt 2])].

Definition path_msg : MQTTMessage :=
  {| topic := "lora_aprs/RX1/TX1/json_message";
     payload := Json (PyDict path_record) |}.

(** ** Sample sinks *)

(** the characters the ASCII codec cannot encode *)
Definition non_ascii (c : ascii) : bool := Nat.leb 128 (nat_of_ascii c).

(** how many such characters a text starts with *)
Fixpoint non_ascii_run (s : string) : nat :=
  match s with
  | String c r => if non_ascii c then S (non_ascii_run r) else 0
  | EmptyString => 0
  end.

(** [str(e)] of the UnicodeEncodeError the ASCII codec raises on [s], if it
    raises: the codec reports the first run of characters it cannot encode,
    by position *)
Fixpoint ascii_encode_error (pos : nat) (s : string) : option string :=
  match s with
  | EmptyString => None
  | String c r =>
      if non_ascii c then
        Some (match non_ascii_run r with
              | O => "'ascii' codec can't encode character '" ++ str1 backslash
                       ++ "x" ++ hex2 c ++ "' in position "
                       ++ int_repr (Z.of_nat pos)
              | S n => "'ascii' codec can't encode characters in position "
                         ++ int_repr (Z.of_nat pos) ++ "-"
                         ++ int_repr (Z.of_nat (pos + S n))
              end ++ ": ordinal not in range(128)")
      else ascii_encode_error (S pos) r
  end.

(** A console whose encoding is ASCII (the interpreter started with
    PYTHONIOENCODING=ascii, or under a locale that gives it): [writerow] on
    it raises when the record has a character beyond ASCII, and writes
    nothing then.  The file is the UTF-8 file of line 43 and takes every
    text of the embedding. *)
Definition ascii_console : sink_behaviour :=
  fun _ ev =>
    match ev with
    | StdoutWriterow r =>
        match ascii_encode_error 0 (csv_writerow r) with
        | Some m => Some (UnicodeEncodeError m)
        | None => None
        end
    | _ => None
    end.

(** The output file on a device without space left: the rows written stay
    in the buffer, and [flush] on the file raises. *)
Definition disk_full : sink_behaviour :=
  fun _ ev =>
    match ev with
    | FileFlush => Some (OSError "[Errno 28] No space left on device")
    | _ => None
    end.

(** a record with a key beyond ASCII: the JSON object with the keys
    timestamp and cafe, the latter with an acute accent on its last letter,
    after [json.loads] *)
Definition e_acute : ascii := "233"%char.

Definition accent_record : dict :=
  [("timestamp", PyStr "2024-01-01T00:00:00Z");
   ("caf" ++ str1 e_acute, PyInt 1)].

Definition accent_msg : MQTTMessage :=
  {| topic := "lora_aprs/RX1/TX1/json_message";
     payload := Json (PyDict accent_record) |}.

Definition accent_short_topic_msg : MQTTMessage :=
  {| topic := "lora_aprs/RX1";
     payload := Json (PyDict accent_record) |}.

(** [json.loads] takes the literal NaN, which is no JSON: the payload is
    an object with the keys timestamp (the text t) and snr (NaN) *)
Definition nan_msg : MQTTMessage :=
  {| topic := "lora_aprs/RX1/TX1/json_message";
     payload := Json (PyDict [("timestamp", PyStr "t"); ("snr", PyFloat "nan")]) |}.

(** [json.loads] raises ValueError on a JSON object with an integer of 5000
    digits as a value *)
Definition long_integer_msg : MQTTMessage :=
  {| topic := "lora_aprs/RX1/TX1/json_message";
     payload := LoadsError (ValueError
       ("Exceeds the limit (4300 digits) for integer string conversion: "
        ++ "value has 5000 digits; use sys.set_int_max_str_digits() "
        ++ "to increase the limit")) |}.

Definition timestamp_list_msg : MQTTMessage :=
  {| topic := "lora_aprs/RX1/TX1/json_message";
     payload := Json (PyDict [("timestamp", PyList [PyStr "a"])]) |}.

Open Scope list_scope.

(** ** Callbacks running concurrently

    The transport client may run [on_message] on several threads at once.
    Each invocation is a thread with a program point; a step runs one
    statement of one thread.  [self.lock] (line 39) is the one piece of
    state the sequential reading does not need. *)

Inductive pc : Type :=
| AtTry (msg : MQTTMessage)                          (* lines 72-88 *)
| AtWith (data : dict)                               (* line 90, waiting *)
| AtIf (data : dict)                                 (* line 91 *)
| AtSetKeys (data : dict)                            (* lines 93-95 *)
| AtExtend (data : dict)                             (* line 96 *)
| AtHeaderStdout (data : dict) (headers : list string)   (* line 99 *)
| AtHeaderFile (data : dict) (headers : list string)     (* line 100 *)
| AtSetFlag (data : dict)                            (* line 101 *)
| AtBuildRow (data : dict)                           (* lines 104-115 *)
| AtRowStdout (r : row)                              (* line 118 *)
| AtRowFile (r : row)                                (* line 119 *)
| AtFlushStdout                                      (* line 120 *)
| AtFlushFile                                        (* line 121 *)
| AtExitWith (e : option exn)                        (* leaving [with] *)
| AtExcept (e : exn)                                 (* lines 122-125 *)
| Returned.

(** the statement a step runs *)
Inductive stmt : Type :=
| Prepare | Acquire | TestFlag | InferKeys | ExtendHeaders
| HeaderToStdout | HeaderToFile | SetFlag | BuildRow
| RowToStdout | RowToFile | DoFlushStdout | DoFlushFile
| Release | Except.

(** the program points inside [with self.lock] *)
Definition holds_lock (p : pc) : bool :=
  match p with
  | AtTry _ | AtWith _ | AtExcept _ | Returned => false
  | _ => true
  end.

(** the statements of lines 91-121 and the release that ends them *)
Definition inside_with (s : stmt) : bool :=
  match s with
  | Prepare | Acquire | Except => false
  | _ => true
  end.

Record shared : Type := {
  object : MQTTToCSV;
  locked : bool
}.

Definition with_object (sh : shared) (o : MQTTToCSV) : shared :=
  {| object := o; locked := locked sh |}.

Definition with_locked (sh : shared) (b : bool) : shared :=
  {| object := object sh; locked := b |}.

(** A call on a sink as one statement: on to [next] when it goes through,
    out of the [with] block with the exception when it raises. *)
Definition sink_step (s : stmt) (ev : event) (next : pc) (sh : shared)
  : option (stmt * pc * shared) :=
  match sink_call ev (object sh) with
  | (inr _, self') => Some (s, next, with_object sh self')
  | (inl e, self') => Some (s, AtExitWith (Some e), with_object sh self')
  end.

(** One statement of one thread; [None] when the thread cannot move: it
    has returned, or it waits for a lock that is held. *)
Definition thread_step (p : pc) (sh : shared) : option (stmt * pc * shared) :=
  let self := object sh in
  match p with
  | AtTry msg =>
      match prepare msg self with
      | (inr data, self') => Some (Prepare, AtWith data, with_object sh self')
      | (inl e, self') => Some (Prepare, AtExcept e, with_object sh self')
      end
  | AtWith data =>
      if locked sh then None
      else Some (Acquire, AtIf data, with_locked sh true)
  | AtIf data =>
      Some (TestFlag,
            if negb (headers_written self) then AtSetKeys data else AtBuildRow data,
            sh)
  | AtSetKeys data =>
      Some (InferKeys, AtExtend data,
            with_object sh
              (exec (set_remaining_keys (compute_remaining_keys data)) self))
  | AtExtend data =>
      match get_remaining_keys self with
      | (inr rk, _) =>
          Some (ExtendHeaders, AtHeaderStdout data (fixed_headers ++ rk), sh)
      | (inl e, _) => Some (ExtendHeaders, AtExitWith (Some e), sh)
      end
  | AtHeaderStdout data headers =>
      sink_step HeaderToStdout (StdoutWriterow (map PyStr headers))
                (AtHeaderFile data headers) sh
  | AtHeaderFile data headers =>
      sink_step HeaderToFile (FileWriterow (map PyStr headers))
                (AtSetFlag data) sh
  | AtSetFlag data =>
      Some (SetFlag, AtBuildRow data,
            with_object sh (exec (set_headers_written true) self))
  | AtBuildRow data =>
      match get_remaining_keys self with
      | (inr rk, _) => Some (BuildRow, AtRowStdout (build_row data rk), sh)
      | (inl e, _) => Some (BuildRow, AtExitWith (Some e), sh)
      end
  | AtRowStdout r => sink_step RowToStdout (StdoutWriterow r) (AtRowFile r) sh
  | AtRowFile r => sink_step RowToFile (FileWriterow r) AtFlushStdout sh
  | AtFlushStdout => sink_step DoFlushStdout StdoutFlush AtFlushFile sh
  | AtFlushFile => sink_step DoFlushFile FileFlush (AtExitWith None) sh
  | AtExitWith None => Some (Release, Returned, with_locked sh false)
  | AtExitWith (Some e) => Some (Release, AtExcept e, with_locked sh false)
  | AtExcept e =>
      Some (Except, Returned, with_object sh (exec (handlers e) self))
  | Returned => None
  end.

(** the shared state and the threads *)
Definition config : Type := shared * list pc.

(** a step of the thread at position [length before] *)
Inductive step : config -> nat * stmt -> config -> Prop :=
| step_thread (sh sh' : shared) (before after : list pc) (p p' : pc) (s : stmt) :
    thread_step p sh = Some (s, p', sh') ->
    step (sh, before ++ p :: after) (List.length before, s)
         (sh', before ++ p' :: after).

(** an interleaving, with the statements run, oldest first *)
Inductive run : config -> list (nat * stmt) -> config -> Prop :=
| run_nil (c : config) : run c [] c
| run_step (c c' c'' : config) (tr : list (nat * stmt)) (l : nat * stmt) :
    run c tr c' -> step c' l c'' -> run c (tr ++ [l]) c''.

(** every message of the run has its callback invoked; none has started *)
Definition start (sinks : sink_behaviour) (rx : string)
    (msgs : list MQTTMessage) : config :=
  ({| object := init sinks rx; locked := false |}, map AtTry msgs).

(** how often lines 93-95 ran *)
Definition inferences (tr : list (nat * stmt)) : nat :=
  List.length (filter (fun l => match snd l with InferKeys => true | _ => false end) tr).

(** one thread left alone for [fuel] statements *)
Fixpoint solo (fuel : nat) (p : pc) (sh : shared) : pc * shared :=
  match fuel with
  | O => (p, sh)
  | S n =>
      match thread_step p sh with
      | Some (_, p', sh') => solo n p' sh'
      | None => (p, sh)
      end
  end.

(** what the invariants look at *)
Definition view (self : MQTTToCSV)
  : bool * option (list string) * list row * list row :=
  (headers_written self, remaining_keys self,
   stdout_rows (io self), file_rows (io self)).

Definition header_row (rk : list string) : row :=
  map PyStr (fixed_headers ++ rk).

(** a header and data rows laid out on the same keys *)
Definition frozen (rk : list string) (rows : list row) : Prop :=
  exists ds : list dict, rows = header_row rk :: map (fun d => build_row d rk) ds.

(** the state while no thread is inside [with self.lock] *)
Definition quiet (v : bool * option (list string) * list row * list row) : Prop :=
  let '(hw, rko, srows, frows) := v in
  frows = srows /\
  match rko with
  | None => hw = false /\ srows = []
  | Some rk => hw = true /\ frozen rk srows
  end.

(** the state seen by the thread inside, program point by program point *)
Definition critical (p : pc)
    (v : bool * option (list string) * list row * list row) : Prop :=
  let '(hw, rko, srows, frows) := v in
  match p with
  | AtIf _ => quiet v
  | AtSetKeys _ => hw = false /\ rko = None /\ srows = [] /\ frows = []
  | AtExtend d =>
      hw = false /\ rko = Some (compute_remaining_keys d) /\
      srows = [] /\ frows = []
  | AtHeaderStdout d hs =>
      hw = false /\ rko = Some (compute_remaining_keys d) /\
      hs = fixed_headers ++ compute_remaining_keys d /\
      srows = [] /\ frows = []
  | AtHeaderFile d hs =>
      hw = false /\ rko = Some (compute_remaining_keys d) /\
      hs = fixed_headers ++ compute_remaining_keys d /\
      srows = [map PyStr hs] /\ frows = []
  | AtSetFlag d =>
      hw = false /\ rko = Some (compute_remaining_keys d) /\
      srows = [header_row (compute_remaining_keys d)] /\ frows = srows
  | AtBuildRow _ | AtFlushStdout | AtFlushFile | AtExitWith _ =>
      exists rk, rko = Some rk /\ hw = true /\ frozen rk srows /\ frows = srows
  | AtRowStdout r =>
      exists rk, rko = Some rk /\ hw = true /\ frozen rk srows /\ frows = srows /\
                 exists d, r = build_row d rk
  | AtRowFile r =>
      exists rk, rko = Some rk /\ hw = true /\ frozen rk frows /\
                 srows = frows ++ [r] /\ exists d, r = build_row d rk
  | _ => False
  end.

Definition inv (c : config) : Prop :=
  let '(sh, ths) := c in
  match filter holds_lock ths with
  | [] => locked sh = false /\ quiet (view (object sh))
  | [p] => locked sh = true /\ critical p (view (object sh))
  | _ => False
  end.

(** whether a step ran lines 93-95, and what it did to the attribute *)
Definition infer_delta (c : config) (l : nat * stmt) (c' : config) : Prop :=
  let rko := remaining_keys (object (fst c)) in
  let rko' := remaining_keys (object (fst c')) in
  match snd l with
  | InferKeys => rko = None /\ rko' <> None
  | _ => rko' = rko
  end.

(** a scheduler: run the threads named in [order], one statement each,
    skipping a thread that cannot move *)
Fixpoint schedule (order : list nat) (c : config)
  : list (nat * stmt) * config :=
  match order with
  | [] => ([], c)
  | i :: rest =>
      match nth_error (snd c) i with
      | Some p =>
          match thread_step p (fst c) with
          | Some (s, p', sh') =>
              let (tr, c') :=
                schedule rest (sh', firstn i (snd c) ++ p' :: skipn (S i) (snd c)) in
              ((i, s) :: tr, c')
          | None => schedule rest c
          end
      | None => schedule rest c
      end
  end.

(** a schedule of two threads: the second overtakes the first, which then
    waits for the lock; it stops with the second between lines 118 and 119 *)
Definition sample_order : list nat :=
  [0; 1; 1; 0; 1; 1; 1; 1; 1; 1; 1; 1].

(** a schedule of two threads that runs the first to its end, then the
    second *)
Definition serial_order : list nat := repeat 0 16 ++ repeat 1 16.

Open Scope string_scope.

(** ** [MQTTToCSV.on_connect] *)

(** the constructor arguments [on_connect] reads besides the callsign *)
Record broker : Type := {
  broker_host : string;
  broker_port : Z;
  base_topic : string
}.

(** What one call of [on_connect] does: the topics it passes to
    [client.subscribe], the lines it prints to standard error, and the
    argument of [sys.exit] when it is called. *)
Record connect_effects : Type := {
  subscribed : list string;
  printed : list string;
  exited : option Z
}.

(** line 62 *)
Definition subscribe_topic (b : broker) (self : MQTTToCSV) : string :=
  base_topic b ++ "/" ++ callsign self ++ "/+/json_message".

(** lines 60-68 *)
Definition on_connect (b : broker) (self : MQTTToCSV) (rc : Z)
  : connect_effects :=
  if Z.eqb rc 0 then
    let subscribe_topic := subscribe_topic b self in
    {| subscribed := [subscribe_topic];
       printed := ["Connected to MQTT broker at " ++ broker_host b ++ ":"
                     ++ int_repr (broker_port b);
                   "Subscribed to topic: " ++ subscribe_topic];
       exited := None |}
  else
    {| subscribed := [];
       printed := ["Failed to connect, return code " ++ int_repr rc];
       exited := Some 1%Z |}.

(** the topic of a message published by sender [tx] for the subscription
    of line 62 (the comment of line 78) *)
Definition published_topic (b : broker) (self : MQTTToCSV) (tx : string)
  : string :=
  base_topic b ++ "/" ++ callsign self ++ "/" ++ tx ++ "/json_message".

(** the defaults of [parse_arguments] (lines 16-18) *)
Definition default_broker : broker :=
  {| broker_host := "hydros.link9.net";
     broker_port := 8183;
     base_topic := "lora_aprs" |}.

(** a base topic of two levels, and a message published under it *)
Definition nested_broker : broker :=
  {| broker_host := "hydros.link9.net";
     broker_port := 8183;
     base_topic := "aprs/lora" |}.

Definition nested_msg : MQTTMessage :=
  {| topic := "aprs/lora/RX1/TX1/json_message";
     payload := Json (PyDict scenario_record) |}.

(** ** Measures the properties are stated with *)

(** [s.count(c)] for a character *)
Fixpoint count_char (c : ascii) (s : string) : nat :=
  match s with
  | EmptyString => 0
  | String a r => (if Ascii.eqb a c then 1 else 0) + count_char c r
  end.

(** the characters from space to tilde *)
Definition printable_ascii (c : ascii) : bool :=
  Nat.leb 32 (nat_of_ascii c) && Nat.leb (nat_of_ascii c) 126.

(** [all(p(c) for c in s)] *)
Fixpoint all_chars (p : ascii -> bool) (s : string) : bool :=
  match s with
  | EmptyString => true
  | String a r => p a && all_chars p r
  end.

(** every float in the value has a text of printable ASCII characters, as
    [float.__repr__] gives *)
Fixpoint floats_printable (v : pyval) : bool :=
  match v with
  | PyFloat r => all_chars printable_ascii r
  | PyList l => forallb floats_printable l
  | PyDict d => forallb (fun kv => floats_printable (snd kv)) d
  | _ => true
  end.

(** what one message prints to standard error *)
Definition diagnostics_of (msg : MQTTMessage) : list diagnostic :=
  stderr_lines (if is_record msg then topic_warning msg else rejection msg).

(** the statements a thread has left at most *)
Definition rank (p : pc) : nat :=
  match p with
  | AtTry _ => 15
  | AtWith _ => 14
  | AtIf _ => 13
  | AtSetKeys _ => 12
  | AtExtend _ => 11
  | AtHeaderStdout _ _ => 10
  | AtHeaderFile _ _ => 9
  | AtSetFlag _ => 8
  | AtBuildRow _ => 7
  | AtRowStdout _ => 6
  | AtRowFile _ => 5
  | AtFlushStdout => 4
  | AtFlushFile => 3
  | AtExitWith _ => 2
  | AtExcept _ => 1
  | Returned => 0
  end.

Definition total_rank (ths : list pc) : nat := list_sum (map rank ths).

(** * Properties *)

(** ** Library models *)

Lemma dict_lookup_setitem_same (d : dict) (k : string) (v : pyval) :
  dict_lookup (dict_setitem d k v) k = Some v.
Proof.
  induction d as [|[k' v'] r IH]; simpl.
  - now rewrite String.eqb_refl.
  - destruct (String.eqb k' k) eqn:E; simpl; rewrite E; auto.
Qed.

Lemma dict_lookup_setitem_other (d : dict) (k k' : string) (v : pyval) :
  k <> k' -> dict_lookup (dict_setitem d k v) k' = dict_lookup d k'.
Proof.
  intros Hne. induction d as [|[k0 v0] r IH]; simpl.
  - destruct (String.eqb k k') eqn:E; auto.
    apply String.eqb_eq in E. contradiction.
  - destruct (String.eqb k0 k) eqn:E; simpl.
    + apply String.eqb_eq in E. subst k0.
      destruct (String.eqb k k') eqn:E'; auto.
      apply String.eqb_eq in E'. contradiction.
    + destruct (String.eqb k0 k'); auto.
Qed.

Lemma dict_keys_setitem_present (d : dict) (k : string) (v : pyval) :
  In k (dict_keys d) -> dict_keys (dict_setitem d k v) = dict_keys d.
Proof.
  induction d as [|[k' v'] r IH]; simpl; intros Hin.
  - contradiction.
  - destruct (String.eqb k' k) eqn:E; simpl; auto.
    f_equal. apply IH. destruct Hin as [H|H]; auto.
    subst k'. rewrite String.eqb_refl in E. discriminate.
Qed.

Lemma dict_keys_setitem_absent (d : dict) (k : string) (v : pyval) :
  ~ In k (dict_keys d) -> dict_keys (dict_setitem d k v) = (dict_keys d ++ [k])%list.
Proof.
  induction d as [|[k' v'] r IH]; simpl; intros Hnin.
  - reflexivity.
  - destruct (String.eqb k' k) eqn:E; simpl.
    + apply String.eqb_eq in E. subst. tauto.
    + f_equal. apply IH. tauto.
Qed.

(** assigning a fixed column's key does not change the other keys' order *)
Lemma remaining_keys_setitem_fixed (d : dict) (k : string) (v : pyval) :
  str_in k fixed_headers = true ->
  compute_remaining_keys (dict_setitem d k v) = compute_remaining_keys d.
Proof.
  intros Hk. unfold compute_remaining_keys.
  destruct (in_dec string_dec k (dict_keys d)) as [Hin|Hnin].
  - now rewrite dict_keys_setitem_present.
  - rewrite dict_keys_setitem_absent by assumption.
    rewrite filter_app. cbn [filter]. rewrite Hk. cbn [negb]. apply app_nil_r.
Qed.

Lemma remaining_keys_injected (rx : string) (msg : MQTTMessage) (d : dict) :
  compute_remaining_keys (injected rx msg d) = compute_remaining_keys d.
Proof.
  unfold injected.
  rewrite !remaining_keys_setitem_fixed; reflexivity.
Qed.


(** ** One call, case by case *)

#[local] Arguments sink_events : simpl never.

Lemma sink_events_app (a b : list event) :
  sink_events (a ++ b) = (sink_events a ++ sink_events b)%list.
Proof. apply filter_app. Qed.

Lemma sink_events_warning (msg : MQTTMessage) :
  sink_events (topic_warning msg) = [].
Proof. unfold topic_warning. now destruct (Nat.leb _ _). Qed.

Lemma sink_events_handler (e : exn) : sink_events [handler_event e] = [].
Proof. reflexivity. Qed.

Lemma sink_events_handled (r : option exn) : sink_events (handled r) = [].
Proof. destruct r; [apply sink_events_handler | reflexivity]. Qed.

Lemma sink_events_rejection (msg : MQTTMessage) :
  sink_events (rejection msg) = [].
Proof.
  unfold rejection. destruct (payload msg); try reflexivity.
  rewrite sink_events_app, sink_events_warning. reflexivity.
Qed.

Lemma handlers_emit (e : exn) : handlers e = emit (handler_event e).
Proof. now destruct e. Qed.

(** the calls depend on what was printed to standard error in no way *)
Lemma perform_sink_events (s : sink_behaviour) (t t' calls : list event) :
  sink_events t = sink_events t' -> perform s t calls = perform s t' calls.
Proof.
  revert t t'. induction calls as [|ev rest IH]; intros t t' H; cbn [perform].
  - reflexivity.
  - rewrite H. destruct (s (sink_events t') ev); [reflexivity|].
    rewrite (IH (t ++ [ev])%list (t' ++ [ev])%list); [reflexivity|].
    now rewrite !sink_events_app, H.
Qed.

(** with sinks that take everything, every call goes through *)
Lemma perform_reliable (s : sink_behaviour) (t calls : list event) :
  reliable s -> perform s t calls = (calls, None).
Proof.
  intros Hs. revert t. induction calls as [|ev rest IH]; intros t; cbn [perform].
  - reflexivity.
  - now rewrite Hs, IH.
Qed.

(** the calls that went through are the first of those attempted, and all
    of them unless one raised *)
Lemma perform_prefix (s : sink_behaviour) (t calls : list event) :
  exists rest,
    calls = (fst (perform s t calls) ++ rest)%list /\
    (snd (perform s t calls) = None -> rest = []).
Proof.
  revert t. induction calls as [|ev calls IH]; intros t; cbn [perform].
  - exists []. auto.
  - destruct (s (sink_events t) ev).
    + exists (ev :: calls). split; [reflexivity|discriminate].
    + destruct (IH (t ++ [ev])%list) as (rest & Heq & Hnone).
      destruct (perform s (t ++ [ev]) calls) as [done r]. cbn [fst snd] in *.
      exists rest. split; [now rewrite Heq at 1|assumption].
Qed.

Lemma prepare_record (msg : MQTTMessage) (d : dict) (self : MQTTToCSV) :
  payload msg = Json (PyDict d) ->
  prepare msg self =
    (inr (injected (callsign self) msg d), add_io self (topic_warning msg)).
Proof.
  intros Hp. unfold prepare, bind, decode_and_loads, topic_tx_callsign,
    injected, tx_callsign_of, topic_warning, add_io.
  rewrite Hp. cbn [ret].
  destruct (Nat.leb 4 (List.length (split "/" (topic msg)))); cbn.
  - rewrite app_nil_r. destruct self; reflexivity.
  - reflexivity.
Qed.

(** The first record, whatever the sinks do: the keys are set; the header
    and then the row go out call by call until one raises; the flag is set
    when both header calls went through. *)
Lemma on_message_first_any (msg : MQTTMessage) (d : dict) (self : MQTTToCSV) :
  payload msg = Json (PyDict d) ->
  headers_written self = false ->
  let data := injected (callsign self) msg d in
  let rk := compute_remaining_keys data in
  let t0 := (io self ++ topic_warning msg)%list in
  let calls := (header_events rk ++ row_events (build_row data rk))%list in
  on_message msg self =
    (inr tt,
     {| callsign := callsign self;
        headers_written := Nat.leb 2 (List.length (fst (perform (sinks self) t0 calls)));
        remaining_keys := Some rk;
        io := (t0 ++ fst (perform (sinks self) t0 calls)
                  ++ handled (snd (perform (sinks self) t0 calls)))%list;
        sinks := sinks self |}).
Proof.
  intros Hp Hw data rk t0 calls.
  unfold on_message, try_except, try_body, bind.
  rewrite (prepare_record msg d self Hp). fold data.
  subst calls t0. unfold header_events, row_events.
  fold rk. generalize (topic_warning msg) as w. intros w.
  assert (Hrk : compute_remaining_keys data = rk) by reflexivity.
  clearbody rk. clearbody data.
  unfold locked_section, write_headers_once, bind, get_self, sink_call.
  destruct self as [rx hw rk0 t s]. cbn in Hw. subst hw.
  cbn. rewrite Hrk.
  repeat (first [ match goal with H : s _ _ = _ |- _ => rewrite H end
                | match goal with
                  | |- context [s ?h ?ev] => destruct (s h ev) eqn:?
                  end ]; cbn);
  rewrite ?handlers_emit; unfold emit; cbn;
  rewrite <- ?app_assoc; cbn [app]; rewrite ?app_nil_r; reflexivity.
Qed.

(** a later record, whatever the sinks do *)
Lemma on_message_later_any (msg : MQTTMessage) (d : dict) (self : MQTTToCSV)
    (rk : list string) :
  payload msg = Json (PyDict d) ->
  headers_written self = true ->
  remaining_keys self = Some rk ->
  let t0 := (io self ++ topic_warning msg)%list in
  let calls := row_events (build_row (injected (callsign self) msg d) rk) in
  on_message msg self =
    (inr tt,
     add_io self (topic_warning msg ++ fst (perform (sinks self) t0 calls)
                    ++ handled (snd (perform (sinks self) t0 calls)))).
Proof.
  intros Hp Hw Hrk t0 calls.
  unfold on_message, try_except, try_body, bind.
  rewrite (prepare_record msg d self Hp).
  subst calls t0. unfold row_events.
  generalize (injected (callsign self) msg d) as data.
  generalize (topic_warning msg) as w. intros w data.
  unfold locked_section, write_headers_once, bind, get_self, sink_call.
  destruct self as [rx hw rk0 t s]. cbn in Hw, Hrk. subst hw rk0.
  cbn.
  repeat (first [ match goal with H : s _ _ = _ |- _ => rewrite H end
                | match goal with
                  | |- context [s ?h ?ev] => destruct (s h ev) eqn:?
                  end ]; cbn);
  rewrite ?handlers_emit; unfold emit, add_io; cbn;
  rewrite <- ?app_assoc; cbn [app]; rewrite ?app_nil_r; reflexivity.
Qed.

(** the flag set without the attribute: line 104 is never reached with it,
    and the handler reports the missing attribute *)
Lemma on_message_no_schema (msg : MQTTMessage) (d : dict) (self : MQTTToCSV) :
  payload msg = Json (PyDict d) ->
  headers_written self = true ->
  remaining_keys self = None ->
  exists e,
    on_message msg self =
      (inr tt, add_io self (topic_warning msg ++ [handler_event e])).
Proof.
  intros Hp Hw Hrk.
  unfold on_message, try_except, try_body, bind.
  rewrite (prepare_record msg d self Hp).
  unfold locked_section, write_headers_once, bind, get_self.
  destruct self as [rx hw rk0 t s]. cbn in Hw, Hrk. subst hw rk0.
  cbn [negb add_io get_remaining_keys remaining_keys callsign
       headers_written io sinks ret].
  eexists. rewrite handlers_emit. unfold emit, add_io.
  cbn [callsign headers_written remaining_keys io sinks].
  rewrite <- app_assoc. reflexivity.
Qed.

Lemma on_message_first (msg : MQTTMessage) (d : dict) (self : MQTTToCSV) :
  reliable (sinks self) ->
  payload msg = Json (PyDict d) ->
  headers_written self = false ->
  let data := injected (callsign self) msg d in
  let rk := compute_remaining_keys data in
  on_message msg self =
    (inr tt,
     {| callsign := callsign self;
        headers_written := true;
        remaining_keys := Some rk;
        io := (io self ++ topic_warning msg ++ header_events rk
                 ++ row_events (build_row data rk))%list;
        sinks := sinks self |}).
Proof.
  intros Hs Hp Hw data rk.
  rewrite (on_message_first_any msg d self Hp Hw). cbn zeta.
  rewrite (perform_reliable _ _ _ Hs). fold data rk.
  cbn [fst snd handled List.length header_events row_events app Nat.leb].
  rewrite <- !app_assoc. cbn [app]. reflexivity.
Qed.

Lemma on_message_later (msg : MQTTMessage) (d : dict) (self : MQTTToCSV)
    (rk : list string) :
  reliable (sinks self) ->
  payload msg = Json (PyDict d) ->
  headers_written self = true ->
  remaining_keys self = Some rk ->
  on_message msg self =
    (inr tt,
     add_io self (topic_warning msg
                    ++ row_events (build_row (injected (callsign self) msg d) rk))).
Proof.
  intros Hs Hp Hw Hrk.
  rewrite (on_message_later_any msg d self rk Hp Hw Hrk). cbn zeta.
  rewrite (perform_reliable _ _ _ Hs). cbn [fst snd handled].
  now rewrite app_nil_r.
Qed.

Lemma on_message_rejected (msg : MQTTMessage) (self : MQTTToCSV) :
  is_record msg = false ->
  on_message msg self = (inr tt, add_io self (rejection msg)).
Proof.
  unfold is_record, rejection. intros Hp.
  unfold on_message, try_except, try_body, prepare, bind, decode_and_loads,
    topic_tx_callsign, topic_warning.
  destruct (payload msg) as [e|e|e|data].
  - reflexivity.
  - reflexivity.
  - cbn. now rewrite handlers_emit.
  - destruct (Nat.leb 4 (List.length (split "/" (topic msg))));
      destruct data; try discriminate; cbn; unfold add_io, emit; cbn;
      rewrite <- ?app_assoc; reflexivity.
Qed.

(** ** Runs of the callback *)

Lemma on_message_returns (msg : MQTTMessage) (self : MQTTToCSV) :
  fst (on_message msg self) = inr tt.
Proof.
  unfold on_message, try_except.
  destruct (try_body msg self) as [[e|[]] self']; [destruct e|]; reflexivity.
Qed.

Lemma deliver_cons (msg : MQTTMessage) (rest : list MQTTMessage)
    (self : MQTTToCSV) :
  deliver (msg :: rest) self = deliver rest (exec (on_message msg) self).
Proof.
  cbn [deliver]. unfold bind, exec.
  pose proof (on_message_returns msg self) as H.
  destruct (on_message msg self) as [[e|[]] self']; cbn in *;
    [discriminate | reflexivity].
Qed.

Lemma exec_deliver_cons (msg : MQTTMessage) (rest : list MQTTMessage)
    (self : MQTTToCSV) :
  exec (deliver (msg :: rest)) self
    = exec (deliver rest) (exec (on_message msg) self).
Proof. unfold exec at 1. now rewrite deliver_cons. Qed.

Lemma exec_deliver_app (pre post : list MQTTMessage) (self : MQTTToCSV) :
  exec (deliver (pre ++ post)) self = exec (deliver post) (exec (deliver pre) self).
Proof.
  revert self. induction pre as [|m pre IH]; intros self.
  - reflexivity.
  - cbn [app]. rewrite !exec_deliver_cons. apply IH.
Qed.

Lemma deliver_returns (msgs : list MQTTMessage) (self : MQTTToCSV) :
  fst (deliver msgs self) = inr tt.
Proof.
  revert self. induction msgs as [|m ms IH]; intros self.
  - reflexivity.
  - rewrite deliver_cons. apply IH.
Qed.

Lemma stdout_rows_app (a b : list event) :
  stdout_rows (a ++ b) = (stdout_rows a ++ stdout_rows b)%list.
Proof. apply flat_map_app. Qed.

Lemma file_rows_app (a b : list event) :
  file_rows (a ++ b) = (file_rows a ++ file_rows b)%list.
Proof. apply flat_map_app. Qed.

Lemma stderr_lines_app (a b : list event) :
  stderr_lines (a ++ b) = (stderr_lines a ++ stderr_lines b)%list.
Proof. apply flat_map_app. Qed.

Lemma stdout_rows_warning (msg : MQTTMessage) : stdout_rows (topic_warning msg) = [].
Proof. unfold topic_warning. now destruct (Nat.leb _ _). Qed.

Lemma file_rows_warning (msg : MQTTMessage) : file_rows (topic_warning msg) = [].
Proof. unfold topic_warning. now destruct (Nat.leb _ _). Qed.

Lemma stdout_rows_handler (e : exn) : stdout_rows [handler_event e] = [].
Proof. reflexivity. Qed.

Lemma file_rows_handler (e : exn) : file_rows [handler_event e] = [].
Proof. reflexivity. Qed.

Lemma stdout_rows_handled (r : option exn) : stdout_rows (handled r) = [].
Proof. destruct r; [apply stdout_rows_handler | reflexivity]. Qed.

Lemma file_rows_handled (r : option exn) : file_rows (handled r) = [].
Proof. destruct r; [apply file_rows_handler | reflexivity]. Qed.

Lemma stdout_rows_rejection (msg : MQTTMessage) : stdout_rows (rejection msg) = [].
Proof.
  unfold rejection. destruct (payload msg); try reflexivity.
  rewrite stdout_rows_app, stdout_rows_warning. reflexivity.
Qed.

Lemma file_rows_rejection (msg : MQTTMessage) : file_rows (rejection msg) = [].
Proof.
  unfold rejection. destruct (payload msg); try reflexivity.
  rewrite file_rows_app, file_rows_warning. reflexivity.
Qed.

Create Rewrite HintDb rows.
#[local] Hint Rewrite stdout_rows_app file_rows_app stderr_lines_app
  stdout_rows_warning file_rows_warning stdout_rows_rejection
  file_rows_rejection stdout_rows_handler file_rows_handler
  stdout_rows_handled file_rows_handled app_nil_r : rows.

(** a message is a record or is rejected *)
Lemma record_or_rejected (msg : MQTTMessage) :
  (exists d, payload msg = Json (PyDict d)) \/ is_record msg = false.
Proof.
  unfold is_record. destruct (payload msg) as [e|e|e|[]]; eauto.
Qed.

(** a run is without records, or has a first one *)
Lemma first_record (msgs : list MQTTMessage) :
  Forall (fun m => is_record m = false) msgs \/
  exists pre msg d post,
    msgs = (pre ++ msg :: post)%list /\
    Forall (fun m => is_record m = false) pre /\
    payload msg = Json (PyDict d).
Proof.
  induction msgs as [|m ms IH].
  - left. constructor.
  - destruct (record_or_rejected m) as [[d Hd]|Hr].
    + right. exists [], m, d, ms. repeat split; auto.
    + destruct IH as [Hall|(pre & msg & d & post & -> & Hpre & Hd)].
      * left. constructor; assumption.
      * right. exists (m :: pre), msg, d, post. repeat split; auto.
Qed.

(** messages that are no records leave only diagnostics *)
Lemma deliver_rejected (pre : list MQTTMessage) (self : MQTTToCSV) :
  Forall (fun m => is_record m = false) pre ->
  exec (deliver pre) self = add_io self (flat_map rejection pre).
Proof.
  intros Hall. revert self.
  induction Hall as [|m pre Hm _ IH]; intros self.
  - unfold exec, add_io. cbn. rewrite app_nil_r. now destruct self.
  - rewrite exec_deliver_cons, IH. unfold exec.
    rewrite (on_message_rejected m self Hm).
    unfold add_io. cbn. now rewrite <- app_assoc.
Qed.

Lemma rows_of_rejections (pre : list MQTTMessage) :
  stdout_rows (flat_map rejection pre) = [] /\
  file_rows (flat_map rejection pre) = [].
Proof.
  induction pre as [|m pre [IH1 IH2]]; cbn [flat_map].
  - split; reflexivity.
  - autorewrite with rows. now rewrite IH1, IH2.
Qed.

Lemma reliable_writes_through (s : sink_behaviour) :
  reliable s -> writes_through s.
Proof. intros Hs h r. split; apply Hs. Qed.

(** when no write raises, lines 118-121 leave the row at both sinks, whether
    or not a flush raises *)
Lemma perform_writes_row (s : sink_behaviour) (t : list event) (r : row) :
  writes_through s ->
  let done := fst (perform s t (row_events r)) in
  stdout_rows done = [r] /\ file_rows done = [r].
Proof.
  intros Hs. unfold row_events. cbn [perform].
  rewrite (proj1 (Hs _ r)), (proj2 (Hs _ r)).
  repeat match goal with
         | |- context [s ?h ?ev] => destruct (s h ev)
         end; cbn; auto.
Qed.

(** and lines 99-100 followed by them leave the header and the row, with
    both writes of the header done *)
Lemma perform_writes_header_row (s : sink_behaviour) (t : list event)
    (rk : list string) (r : row) :
  writes_through s ->
  let done := fst (perform s t (header_events rk ++ row_events r)) in
  Nat.leb 2 (List.length done) = true /\
  stdout_rows done = [map PyStr (fixed_headers ++ rk)%list; r] /\
  file_rows done = [map PyStr (fixed_headers ++ rk)%list; r].
Proof.
  intros Hs. unfold header_events, row_events. cbn [perform app].
  rewrite !(proj1 (Hs _ _)), !(proj2 (Hs _ _)).
  repeat match goal with
         | |- context [s ?h ?ev] => destruct (s h ev)
         end; cbn; auto.
Qed.

(** the first record, when no write raises *)
Lemma on_message_first_rows (msg : MQTTMessage) (d : dict) (self : MQTTToCSV) :
  writes_through (sinks self) ->
  payload msg = Json (PyDict d) ->
  headers_written self = false ->
  let data := injected (callsign self) msg d in
  let rk := compute_remaining_keys data in
  let header := map PyStr (fixed_headers ++ rk)%list in
  let self' := exec (on_message msg) self in
  callsign self' = callsign self /\
  sinks self' = sinks self /\
  headers_written self' = true /\
  remaining_keys self' = Some rk /\
  stdout_rows (io self')
    = (stdout_rows (io self) ++ [header; build_row data rk])%list /\
  file_rows (io self')
    = (file_rows (io self) ++ [header; build_row data rk])%list.
Proof.
  intros Hs Hd Hw data rk header. cbn zeta. unfold exec.
  rewrite (on_message_first_any msg d self Hd Hw). fold data rk.
  cbn [snd callsign sinks headers_written remaining_keys io].
  destruct (perform_writes_header_row (sinks self)
              (io self ++ topic_warning msg) rk (build_row data rk) Hs)
    as (Hlen & Hso & Hfi).
  cbn zeta in Hlen, Hso, Hfi. rewrite Hlen.
  autorewrite with rows. rewrite Hso, Hfi. auto 6.
Qed.

(** a later record, when no write raises *)
Lemma on_message_later_rows (msg : MQTTMessage) (d : dict) (self : MQTTToCSV)
    (rk : list string) :
  writes_through (sinks self) ->
  payload msg = Json (PyDict d) ->
  headers_written self = true ->
  remaining_keys self = Some rk ->
  let r := build_row (injected (callsign self) msg d) rk in
  let self' := exec (on_message msg) self in
  callsign self' = callsign self /\
  sinks self' = sinks self /\
  headers_written self' = true /\
  remaining_keys self' = Some rk /\
  stdout_rows (io self') = (stdout_rows (io self) ++ [r])%list /\
  file_rows (io self') = (file_rows (io self) ++ [r])%list.
Proof.
  intros Hs Hd Hw Hrk. cbn zeta. unfold exec.
  rewrite (on_message_later_any msg d self rk Hd Hw Hrk).
  cbn [snd add_io callsign sinks headers_written remaining_keys io].
  destruct (perform_writes_row (sinks self) (io self ++ topic_warning msg)
              (build_row (injected (callsign self) msg d) rk) Hs)
    as (Hso & Hfi).
  cbn zeta in Hso, Hfi.
  autorewrite with rows. rewrite Hso, Hfi. auto 6.
Qed.

(** once the header is written, a run only adds data rows in the frozen
    layout, one per record when no write raises *)
Lemma deliver_frozen (msgs : list MQTTMessage) (self : MQTTToCSV)
    (rk : list string) :
  writes_through (sinks self) ->
  headers_written self = true ->
  remaining_keys self = Some rk ->
  let final := exec (deliver msgs) self in
  callsign final = callsign self /\
  sinks final = sinks self /\
  headers_written final = true /\
  remaining_keys final = Some rk /\
  stdout_rows (io final)
    = (stdout_rows (io self) ++ data_rows (callsign self) rk msgs)%list /\
  file_rows (io final)
    = (file_rows (io self) ++ data_rows (callsign self) rk msgs)%list.
Proof.
  revert self. induction msgs as [|m ms IH]; intros self Hrel Hw Hrk.
  - cbn. rewrite !app_nil_r. auto 6.
  - cbn zeta. rewrite exec_deliver_cons.
    assert (Hstep :
      let self1 := exec (on_message m) self in
      callsign self1 = callsign self /\ sinks self1 = sinks self /\
      headers_written self1 = true /\
      remaining_keys self1 = Some rk /\
      stdout_rows (io self1)
        = (stdout_rows (io self) ++ data_rows (callsign self) rk [m])%list /\
      file_rows (io self1)
        = (file_rows (io self) ++ data_rows (callsign self) rk [m])%list).
    { unfold data_rows. cbn [flat_map].
      destruct (record_or_rejected m) as [[d Hd]|Hr].
      - rewrite Hd, app_nil_r.
        exact (on_message_later_rows m d self rk Hrel Hd Hw Hrk).
      - unfold exec. rewrite (on_message_rejected m self Hr).
        cbn [snd add_io callsign headers_written remaining_keys io sinks].
        autorewrite with rows.
        unfold is_record in Hr.
        destruct (payload m) as [e|e|e|[]]; try discriminate;
          rewrite ?app_nil_r; auto 6. }
    cbn zeta in Hstep. destruct Hstep as (Hc & Hk & Hw1 & Hrk1 & Hs & Hf).
    assert (Hrel1 : writes_through (sinks (exec (on_message m) self)))
      by now rewrite Hk.
    specialize (IH _ Hrel1 Hw1 Hrk1). cbn zeta in IH.
    destruct IH as (Hc' & Hk' & Hw' & Hrk' & Hs' & Hf').
    rewrite Hc', Hk', Hs', Hf', Hc, Hk, Hs, Hf. unfold data_rows. cbn [flat_map].
    rewrite !app_nil_r, <- !app_assoc. auto 6.
Qed.

(** the whole output of a run, from its first record on *)
Lemma deliver_from_first (env : sink_behaviour) (rx : string)
    (pre post : list MQTTMessage) (msg : MQTTMessage) (d : dict) :
  writes_through env ->
  Forall (fun m => is_record m = false) pre ->
  payload msg = Json (PyDict d) ->
  let data := injected rx msg d in
  let rk := compute_remaining_keys data in
  let header := map PyStr (fixed_headers ++ rk)%list in
  let final := exec (deliver (pre ++ msg :: post)) (init env rx) in
  callsign final = rx /\
  headers_written final = true /\
  remaining_keys final = Some rk /\
  stdout_rows (io final) = header :: build_row data rk :: data_rows rx rk post /\
  file_rows (io final) = header :: build_row data rk :: data_rows rx rk post.
Proof.
  intros Hrel Hpre Hd data rk header final. subst final.
  rewrite exec_deliver_app, (deliver_rejected pre _ Hpre), exec_deliver_cons.
  set (self0 := add_io (init env rx) (flat_map rejection pre)).
  assert (Hw0 : headers_written self0 = false) by reflexivity.
  destruct (on_message_first_rows msg d self0 Hrel Hd Hw0)
    as (Hc1 & Hk1 & Hw1 & Hrk1 & Hs1 & Hf1).
  cbn zeta in Hc1, Hk1, Hw1, Hrk1, Hs1, Hf1.
  change (callsign self0) with rx in Hc1, Hrk1, Hs1, Hf1.
  fold data rk in Hrk1, Hs1, Hf1.
  assert (Hrel1 : writes_through (sinks (exec (on_message msg) self0)))
    by (rewrite Hk1; exact Hrel).
  destruct (deliver_frozen post (exec (on_message msg) self0) rk Hrel1 Hw1 Hrk1)
    as (Hc & _ & Hw & Hrk & Hs & Hf).
  rewrite Hc, Hw, Hrk, Hs, Hf, Hc1, Hs1, Hf1. subst self0.
  cbn [io add_io init].
  destruct (rows_of_rejections pre) as [Hr1 Hr2].
  autorewrite with rows. rewrite Hr1, Hr2. cbn. auto.
Qed.

(** ** The injected record and the three fixed columns *)

Lemma injected_tx (rx : string) (msg : MQTTMessage) (d : dict) :
  dict_lookup (injected rx msg d) "tx_callsign" = Some (PyStr (tx_callsign_of msg)).
Proof.
  unfold injected.
  rewrite dict_lookup_setitem_other by discriminate.
  apply dict_lookup_setitem_same.
Qed.

Lemma injected_rx (rx : string) (msg : MQTTMessage) (d : dict) :
  dict_lookup (injected rx msg d) "rx_callsign" = Some (PyStr rx).
Proof. unfold injected. apply dict_lookup_setitem_same. Qed.

Lemma injected_other (rx : string) (msg : MQTTMessage) (d : dict) (k : string) :
  k <> "tx_callsign" -> k <> "rx_callsign" ->
  dict_lookup (injected rx msg d) k = dict_lookup d k.
Proof.
  intros Ht Hr. unfold injected.
  rewrite !dict_lookup_setitem_other by congruence. reflexivity.
Qed.

Lemma build_row_fixed (rx : string) (msg : MQTTMessage) (d : dict)
    (rk : list string) :
  exists rest,
    build_row (injected rx msg d) rk =
      dict_get d "timestamp" (PyStr "") :: PyStr rx
        :: PyStr (tx_callsign_of msg) :: rest.
Proof.
  exists (map (cell (injected rx msg d)) rk).
  unfold build_row, dict_get.
  rewrite injected_tx, injected_rx, injected_other by discriminate.
  reflexivity.
Qed.

(** ** Reachable states *)

(** What no call changes, whatever the sinks do: the callsign and the
    sinks; the attribute exists whenever the flag is set; and once the flag
    is set, neither it nor the attribute changes. *)
Lemma on_message_keeps (msg : MQTTMessage) (self : MQTTToCSV) :
  let self' := exec (on_message msg) self in
  callsign self' = callsign self /\
  sinks self' = sinks self /\
  (schema_ok self -> schema_ok self') /\
  (headers_written self = true ->
   headers_written self' = true /\ remaining_keys self' = remaining_keys self).
Proof.
  cbn zeta. unfold exec, schema_ok.
  destruct (record_or_rejected msg) as [[d Hd]|Hr].
  - destruct (headers_written self) eqn:Hw.
    + destruct (remaining_keys self) as [rk|] eqn:Hrk.
      * rewrite (on_message_later_any msg d self rk Hd Hw Hrk).
        cbn [snd add_io callsign sinks headers_written remaining_keys].
        rewrite Hw, Hrk. eauto 6.
      * destruct (on_message_no_schema msg d self Hd Hw Hrk) as [e ->].
        cbn [snd add_io callsign sinks headers_written remaining_keys].
        rewrite Hw, Hrk. auto 6.
    + rewrite (on_message_first_any msg d self Hd Hw).
      cbn [snd callsign sinks headers_written remaining_keys].
      do 2 (split; [reflexivity|]). split; [eauto|discriminate].
  - rewrite (on_message_rejected msg self Hr).
    cbn [snd add_io callsign sinks headers_written remaining_keys]. auto.
Qed.

Lemma deliver_keeps (msgs : list MQTTMessage) (self : MQTTToCSV) :
  let self' := exec (deliver msgs) self in
  callsign self' = callsign self /\
  sinks self' = sinks self /\
  (schema_ok self -> schema_ok self') /\
  (headers_written self = true ->
   headers_written self' = true /\ remaining_keys self' = remaining_keys self).
Proof.
  revert self. induction msgs as [|m ms IH]; intros self; cbn zeta.
  - unfold exec. cbn. auto.
  - rewrite exec_deliver_cons.
    destruct (on_message_keeps m self) as (Hc & Hk & Hok & Hfr).
    destruct (IH (exec (on_message m) self)) as (Hc' & Hk' & Hok' & Hfr').
    rewrite Hc', Hk', Hc, Hk. do 2 (split; [reflexivity|]).
    split; [auto|]. intros Hw. destruct (Hfr Hw) as [Hw1 Hrk1].
    destruct (Hfr' Hw1) as [Hw2 Hrk2]. rewrite Hw2, Hrk2, Hrk1. auto.
Qed.

Lemma reachable_schema_ok (env : sink_behaviour) (rx : string)
    (msgs : list MQTTMessage) :
  let self := exec (deliver msgs) (init env rx) in
  callsign self = rx /\ sinks self = env /\ schema_ok self.
Proof.
  cbn zeta.
  destruct (deliver_keeps msgs (init env rx)) as (Hc & Hk & Hok & _).
  rewrite Hc, Hk. do 2 (split; [reflexivity|]).
  apply Hok. unfold schema_ok. cbn. discriminate.
Qed.

(** what a record adds to the sinks when no write raises, in a state where
    the attribute exists whenever the flag is set *)
Lemma on_message_record_rows (msg : MQTTMessage) (d : dict) (self : MQTTToCSV) :
  writes_through (sinks self) ->
  schema_ok self ->
  payload msg = Json (PyDict d) ->
  let self' := exec (on_message msg) self in
  exists (header : list row) (rk : list string),
    remaining_keys self' = Some rk /\
    List.length header <= 1 /\
    let r := build_row (injected (callsign self) msg d) rk in
    stdout_rows (io self') = (stdout_rows (io self) ++ header ++ [r])%list /\
    file_rows (io self') = (file_rows (io self) ++ header ++ [r])%list.
Proof.
  intros Hrel Hok Hd. cbn zeta.
  destruct (headers_written self) eqn:Hw.
  - destruct (Hok Hw) as [rk Hrk].
    destruct (on_message_later_rows msg d self rk Hrel Hd Hw Hrk)
      as (_ & _ & _ & Hrk' & Hs & Hf).
    exists [], rk. cbn [app List.length]. auto.
  - destruct (on_message_first_rows msg d self Hrel Hd Hw)
      as (_ & _ & _ & Hrk' & Hs & Hf).
    eexists [_], _. cbn [app List.length]. eauto.
Qed.

(** what a record adds to the streams when no call on a sink raises *)
Lemma on_message_record (msg : MQTTMessage) (d : dict) (self : MQTTToCSV) :
  reliable (sinks self) ->
  schema_ok self ->
  payload msg = Json (PyDict d) ->
  let self' := exec (on_message msg) self in
  exists (header : list row) (rk : list string),
    remaining_keys self' = Some rk /\
    List.length header <= 1 /\
    let r := build_row (injected (callsign self) msg d) rk in
    stdout_rows (io self') = (stdout_rows (io self) ++ header ++ [r])%list /\
    file_rows (io self') = (file_rows (io self) ++ header ++ [r])%list /\
    stderr_lines (io self')
      = (stderr_lines (io self) ++ stderr_lines (topic_warning msg))%list.
Proof.
  intros Hrel Hok Hd. cbn zeta. unfold exec.
  destruct (headers_written self) eqn:Hw.
  - destruct (Hok Hw) as [rk Hrk].
    rewrite (on_message_later msg d self rk Hrel Hd Hw Hrk).
    exists [], rk. cbn [snd add_io remaining_keys io].
    autorewrite with rows. cbn. rewrite ?app_nil_r. auto 10.
  - rewrite (on_message_first msg d self Hrel Hd Hw).
    eexists [_], _. cbn [snd remaining_keys io].
    autorewrite with rows. cbn. rewrite ?app_nil_r. auto 10.
Qed.

(** C1, as stated, fails: when a write of the header row raises, the flag
    is not set, and the schema is computed again on the next record.  On a
    console that encodes as ASCII the first record, with a key beyond ASCII,
    gets no header and no row; the header that is written is that of the
    second record. *)
Lemma schema_inferred_again_counterexample :
  let first := exec (on_message accent_msg) (init ascii_console "RX1") in
  let final :=
    exec (deliver [accent_msg; scenario_msg]) (init ascii_console "RX1") in
  is_record accent_msg = true /\
  headers_written first = false /\
  remaining_keys first = Some ["caf" ++ str1 e_acute] /\
  stdout_rows (io first) = [] /\
  file_rows (io first) = [] /\
  stderr_lines (io first)
    = [ErrorProcessingMessage
         ("'ascii' codec can't encode character '" ++ str1 backslash
            ++ "xe9' in position 37: ordinal not in range(128)")] /\
  headers_written final = true /\
  remaining_keys final = Some ["lat"; "lon"] /\
  hd_error (stdout_rows (io final))
    = Some (map PyStr ["timestamp"; "rx_callsign"; "tx_callsign"; "lat"; "lon"]) /\
  hd_error (file_rows (io final))
    = Some (map PyStr ["timestamp"; "rx_callsign"; "tx_callsign"; "lat"; "lon"]).
Proof. vm_compute. repeat split; reflexivity. Qed.

(** C1, amended. With sinks whose [writerow] never raises, the header schema
    is computed on the first message that yields a decoded record, and only
    there: it is [timestamp, rx_callsign, tx_callsign] followed by the other
    keys of that record (taken after the injection of [tx_callsign] and
    [rx_callsign]) in the record's iteration order; the header row is the
    first row of both sinks, directly before the first data row, and every
    later row of the run is a data row. *)
Theorem header_schema_from_first_record :
  forall (sinks : sink_behaviour) (rx : string) (pre post : list MQTTMessage)
         (msg : MQTTMessage) (d : dict),
    writes_through sinks ->
    Forall (fun m => is_record m = false) pre ->
    payload msg = Json (PyDict d) ->
    let data := injected rx msg d in
    let others :=
      filter (fun k => negb (str_in k ["timestamp"; "rx_callsign"; "tx_callsign"]))
             (dict_keys data) in
    let header :=
      map PyStr (["timestamp"; "rx_callsign"; "tx_callsign"] ++ others)%list in
    let before := exec (deliver pre) (init sinks rx) in
    let final := exec (deliver (pre ++ msg :: post)) (init sinks rx) in
    headers_written before = false /\
    stdout_rows (io before) = [] /\
    file_rows (io before) = [] /\
    headers_written final = true /\
    remaining_keys final = Some others /\
    stdout_rows (io final) = header :: build_row data others :: data_rows rx others post /\
    file_rows (io final) = header :: build_row data others :: data_rows rx others post.
Proof.
  intros sinks rx pre post msg d Hrel Hpre Hd data others header before final.
  destruct (deliver_from_first sinks rx pre post msg d Hrel Hpre Hd)
    as (_ & Hw & Hrk & Hs & Hf).
  subst before. rewrite (deliver_rejected pre _ Hpre).
  destruct (rows_of_rejections pre) as [Hr1 Hr2].
  cbn [add_io init headers_written io app].
  repeat split; assumption.
Qed.

(** C2, as stated, fails: a well-formed JSON object on a topic of four
    segments need not give a row.  The write of the row, or of the header
    before it, may raise (here on a console that encodes as ASCII), and
    [json.loads] raises on some well-formed objects (here on an integer of
    5000 digits); the handler then prints a diagnostic and no row is
    written. *)
Lemma row_not_produced_counterexample :
  let refused := exec (on_message accent_msg) (init ascii_console "RX1") in
  let unread := exec (on_message long_integer_msg) (init no_failure "RX1") in
  is_record accent_msg = true /\
  4 <= List.length (split "/" (topic accent_msg)) /\
  stdout_rows (io refused) = [] /\
  file_rows (io refused) = [] /\
  4 <= List.length (split "/" (topic long_integer_msg)) /\
  stdout_rows (io unread) = [] /\
  file_rows (io unread) = [] /\
  List.length (stderr_lines (io unread)) = 1.
Proof. vm_compute. repeat split; auto. Qed.

(** C2, amended. For a message whose payload [json.loads] decodes to an
    object and whose topic has at least four segments, at any point of a
    run: in the decoded record the two injected values replace whatever the
    payload had under [tx_callsign] and [rx_callsign], and nothing else
    changes; and, with sinks whose [writerow] never raises, the row written
    has the payload's [timestamp] value (the empty text when absent) in its
    first column, the receiver id in its second and segment 2 of the topic
    in its third. *)
Theorem row_fixed_columns :
  forall (sinks : sink_behaviour) (rx : string) (earlier : list MQTTMessage)
         (msg : MQTTMessage) (d : dict),
    payload msg = Json (PyDict d) ->
    4 <= List.length (split "/" (topic msg)) ->
    let self := exec (deliver earlier) (init sinks rx) in
    let self' := exec (on_message msg) self in
    let tx := nth 2 (split "/" (topic msg)) "" in
    (writes_through sinks ->
     exists (header : list row) (r rest : row),
        List.length header <= 1 /\
        stdout_rows (io self') = (stdout_rows (io self) ++ header ++ [r])%list /\
        file_rows (io self') = (file_rows (io self) ++ header ++ [r])%list /\
        r = dict_get d "timestamp" (PyStr "") :: PyStr rx :: PyStr tx :: rest) /\
    (exists data : dict,
        fst (prepare msg self) = inr data /\
        dict_lookup data "tx_callsign" = Some (PyStr tx) /\
        dict_lookup data "rx_callsign" = Some (PyStr rx) /\
        forall k, k <> "tx_callsign" -> k <> "rx_callsign" ->
                  dict_lookup data k = dict_lookup d k).
Proof.
  intros sinks rx earlier msg d Hd Hlen self self' tx.
  destruct (reachable_schema_ok sinks rx earlier) as (Hc & Hk & Hok).
  fold self in Hc, Hk, Hok.
  assert (Htx : tx_callsign_of msg = tx).
  { unfold tx_callsign_of. apply Nat.leb_le in Hlen. now rewrite Hlen. }
  split.
  - intros Hrel. rewrite <- Hk in Hrel.
    destruct (on_message_record_rows msg d self Hrel Hok Hd)
      as (header & rk & _ & Hh & Hs & Hf).
    rewrite Hc in Hs, Hf.
    destruct (build_row_fixed rx msg d rk) as [rest Hrow].
    rewrite Htx in Hrow.
    exists header, (build_row (injected rx msg d) rk), rest. auto.
  - exists (injected rx msg d).
    rewrite (prepare_record msg d self Hd), Hc, <- Htx.
    repeat split.
    + apply injected_tx.
    + apply injected_rx.
    + apply injected_other.
Qed.

Lemma build_row_ext (data data' : dict) (rk : list string) :
  (forall k, In k (fixed_headers ++ rk)%list ->
             dict_lookup data k = dict_lookup data' k) ->
  build_row data rk = build_row data' rk.
Proof.
  intros Hagree. unfold build_row, dict_get.
  rewrite !(Hagree "timestamp"), !(Hagree "rx_callsign"), !(Hagree "tx_callsign")
    by (cbn; auto).
  apply (f_equal (app _)). apply map_ext_in. intros k Hk.
  unfold cell, dict_get. rewrite (Hagree k); [reflexivity|].
  apply in_or_app. now right.
Qed.

Lemma build_row_missing (data : dict) (rk : list string) (i : nat) (k : string) :
  nth_error rk i = Some k ->
  dict_lookup data k = None ->
  nth_error (build_row data rk) (3 + i) = Some (PyStr "").
Proof.
  intros Hi Hk. unfold build_row. cbn [app Nat.add nth_error].
  rewrite (map_nth_error (cell data) i rk Hi).
  unfold cell, dict_get. now rewrite Hk.
Qed.

(** what the calls of lines 118-121 leave at the sinks, whatever raises:
    nothing, the row at the console only, or the row at both *)
Lemma row_calls_rows (s : sink_behaviour) (t : list event) (r : row) :
  let done := fst (perform s t (row_events r)) in
  (stdout_rows done = [] /\ file_rows done = []) \/
  (stdout_rows done = [r] /\ file_rows done = []) \/
  (stdout_rows done = [r] /\ file_rows done = [r]).
Proof.
  unfold row_events. cbn [perform].
  repeat match goal with
         | |- context [s ?h ?ev] => destruct (s h ev); cbn [fst]
         end; cbn; auto.
Qed.

(** once the flag is set, a run adds only data rows on the frozen keys, and
    to the file only rows the console has, whatever the sinks do *)
Lemma deliver_frozen_any (msgs : list MQTTMessage) (self : MQTTToCSV)
    (rk : list string) :
  headers_written self = true ->
  remaining_keys self = Some rk ->
  let final := exec (deliver msgs) self in
  exists out file : list row,
    stdout_rows (io final) = (stdout_rows (io self) ++ out)%list /\
    file_rows (io final) = (file_rows (io self) ++ file)%list /\
    incl out (data_rows (callsign self) rk msgs) /\
    incl file out.
Proof.
  revert self. induction msgs as [|m ms IH]; intros self Hw Hrk; cbn zeta.
  - exists [], []. unfold exec. cbn. rewrite !app_nil_r.
    repeat split; auto using incl_nil_l.
  - rewrite exec_deliver_cons.
    destruct (on_message_keeps m self) as (Hc & _ & _ & Hfr).
    destruct (Hfr Hw) as [Hw1 Hrk1]. rewrite Hrk in Hrk1.
    destruct (IH _ Hw1 Hrk1) as (out & file & Hs & Hf & Hout & Hfile).
    cbn zeta in Hs, Hf. rewrite Hc in Hout. rewrite Hs, Hf.
    assert (Hstep : exists out1 file1 : list row,
      stdout_rows (io (exec (on_message m) self))
        = (stdout_rows (io self) ++ out1)%list /\
      file_rows (io (exec (on_message m) self))
        = (file_rows (io self) ++ file1)%list /\
      incl out1 (data_rows (callsign self) rk [m]) /\ incl file1 out1).
    { unfold exec, data_rows. cbn [flat_map]. rewrite app_nil_r.
      destruct (record_or_rejected m) as [[d Hd]|Hr].
      - rewrite (on_message_later_any m d self rk Hd Hw Hrk), Hd.
        cbn [snd add_io io]. autorewrite with rows.
        destruct (row_calls_rows (sinks self) (io self ++ topic_warning m)
                    (build_row (injected (callsign self) m d) rk))
          as [[-> ->]|[[-> ->]|[-> ->]]].
        + exists [], []. rewrite !app_nil_r.
          repeat split; auto using incl_nil_l.
        + eexists [_], []. rewrite !app_nil_r.
          repeat split; auto using incl_nil_l, incl_refl.
        + eexists [_], [_]. repeat split; auto using incl_refl.
      - rewrite (on_message_rejected m self Hr).
        cbn [snd add_io io]. autorewrite with rows.
        exists [], []. rewrite !app_nil_r.
        repeat split; auto using incl_nil_l. }
    destruct Hstep as (out1 & file1 & -> & -> & Hout1 & Hfile1).
    exists (out1 ++ out)%list, (file1 ++ file)%list.
    rewrite <- !app_assoc. do 2 (split; [reflexivity|]). split.
    + change (m :: ms) with ([m] ++ ms)%list. unfold data_rows in *.
      rewrite flat_map_app. apply incl_app.
      * now apply incl_appl.
      * now apply incl_appr.
    + apply incl_app; [now apply incl_appl | now apply incl_appr].
Qed.

(** C3. Once the header has been written the schema is frozen: whatever
    messages follow and whatever the sinks do, the flag stays set and the
    remaining keys stay the same, and the run only adds data rows laid out
    on the frozen keys (no further header row), to the file only rows the
    console has; when no [writerow] raises, both sinks get one such row per
    record.  In such a row a column whose key the record lacks holds
    the empty text, and the row depends on the record only through the keys
    of the schema: keys outside it leave no trace. *)
Theorem schema_frozen :
  forall (self : MQTTToCSV) (rk : list string) (later : list MQTTMessage),
    headers_written self = true ->
    remaining_keys self = Some rk ->
    let final := exec (deliver later) self in
    headers_written final = true /\
    remaining_keys final = Some rk /\
    (exists out file : list row,
        stdout_rows (io final) = (stdout_rows (io self) ++ out)%list /\
        file_rows (io final) = (file_rows (io self) ++ file)%list /\
        incl out (data_rows (callsign self) rk later) /\
        incl file out) /\
    (writes_through (sinks self) ->
     stdout_rows (io final)
       = (stdout_rows (io self) ++ data_rows (callsign self) rk later)%list /\
     file_rows (io final)
       = (file_rows (io self) ++ data_rows (callsign self) rk later)%list) /\
    (forall (data : dict) (i : nat) (k : string),
        nth_error rk i = Some k ->
        dict_lookup data k = None ->
        nth_error (build_row data rk) (3 + i) = Some (PyStr "")) /\
    (forall data data' : dict,
        (forall k, In k (["timestamp"; "rx_callsign"; "tx_callsign"] ++ rk)%list ->
                   dict_lookup data k = dict_lookup data' k) ->
        build_row data rk = build_row data' rk).
Proof.
  intros self rk later Hw Hrk final.
  destruct (deliver_keeps later self) as (_ & _ & _ & Hfr).
  destruct (Hfr Hw) as [Hw' Hrk']. rewrite Hrk in Hrk'.
  split; [exact Hw'|]. split; [exact Hrk'|].
  split; [exact (deliver_frozen_any later self rk Hw Hrk)|].
  split; [|split].
  - intros Hrel.
    destruct (deliver_frozen later self rk Hrel Hw Hrk) as (_ & _ & _ & _ & Hs & Hf).
    split; assumption.
  - intros data i k. apply build_row_missing.
  - intros data data'. apply build_row_ext.
Qed.




(** C5, as stated, fails: [json.loads] takes texts that are no valid JSON,
    such as the literal NaN; a payload with it is handled as a record, with
    a header, a row and no diagnostic. *)
Lemma nan_payload_counterexample :
  let self' := exec (on_message nan_msg) (init no_failure "RX1") in
  payload nan_msg = Json (PyDict [("timestamp", PyStr "t"); ("snr", PyFloat "nan")]) /\
  headers_written self' = true /\
  stdout_rows (io self')
    = [map PyStr ["timestamp"; "rx_callsign"; "tx_callsign"; "snr"];
       [PyStr "t"; PyStr "RX1"; PyStr "TX1"; PyFloat "nan"]] /\
  file_rows (io self') = stdout_rows (io self') /\
  stderr_lines (io self') = [].
Proof. vm_compute. repeat split; reflexivity. Qed.

(** C5, amended. A payload that the decoding or [json.loads] rejects (one of
    the two raises) produces no row: neither sink receives anything, the
    header state is unchanged, exactly one diagnostic goes to standard
    error (the JSON decoding failure when [json.loads] raised
    JSONDecodeError), the callback returns normally and the run goes on
    with the next message. *)
Theorem invalid_json_dropped :
  forall (self : MQTTToCSV) (msg : MQTTMessage),
    (forall data, payload msg <> Json data) ->
    let self' := exec (on_message msg) self in
    fst (on_message msg self) = inr tt /\
    headers_written self' = headers_written self /\
    remaining_keys self' = remaining_keys self /\
    stdout_rows (io self') = stdout_rows (io self) /\
    file_rows (io self') = file_rows (io self) /\
    (exists diag,
        io self' = (io self ++ [StderrPrint diag])%list /\
        stderr_lines (io self') = (stderr_lines (io self) ++ [diag])%list /\
        forall e, payload msg = NotJson e -> diag = FailedToDecodeJSON e) /\
    (forall rest, deliver (msg :: rest) self = deliver rest self').
Proof.
  intros self msg Hbad self'.
  assert (Hrej : is_record msg = false).
  { unfold is_record. destruct (payload msg) as [e|e|e|v]; auto.
    now destruct (Hbad v). }
  subst self'. unfold exec. split; [apply on_message_returns|].
  rewrite (on_message_rejected msg self Hrej).
  cbn [snd add_io headers_written remaining_keys io].
  autorewrite with rows.
  do 4 (split; [reflexivity|]). split.
  - unfold rejection. destruct (payload msg) as [e|e|e|v].
    + exists (ErrorProcessingMessage e).
      do 2 (split; [reflexivity|]). discriminate.
    + exists (FailedToDecodeJSON e).
      do 2 (split; [reflexivity|]). intros e' He. now injection He as <-.
    + exists (handler_diagnostic e).
      do 2 (split; [reflexivity|]). discriminate.
    + now destruct (Hbad v).
  - intros rest. rewrite deliver_cons. unfold exec.
    now rewrite (on_message_rejected msg self Hrej).
Qed.

(** C9. A payload that is valid JSON but whose top-level value is not an
    object produces no row: neither sink receives anything, the header
    state is unchanged, an error diagnostic is the last thing printed
    (after the topic warning, if the topic is short), the callback returns
    normally and the run goes on. *)
Theorem non_object_json_dropped :
  forall (self : MQTTToCSV) (msg : MQTTMessage) (v : pyval),
    payload msg = Json v ->
    (forall d, v <> PyDict d) ->
    let self' := exec (on_message msg) self in
    fst (on_message msg self) = inr tt /\
    headers_written self' = headers_written self /\
    remaining_keys self' = remaining_keys self /\
    stdout_rows (io self') = stdout_rows (io self) /\
    file_rows (io self') = file_rows (io self) /\
    (exists e,
        stderr_lines (io self')
          = (stderr_lines (io self) ++ stderr_lines (topic_warning msg)
               ++ [ErrorProcessingMessage e])%list) /\
    (forall rest, deliver (msg :: rest) self = deliver rest self').
Proof.
  intros self msg v Hv Hnd self'.
  assert (Hrej : is_record msg = false).
  { unfold is_record. rewrite Hv. destruct v; auto. now destruct (Hnd d). }
  subst self'. unfold exec. split; [apply on_message_returns|].
  rewrite (on_message_rejected msg self Hrej).
  cbn [snd add_io headers_written remaining_keys io].
  autorewrite with rows.
  do 4 (split; [reflexivity|]). split.
  - unfold rejection. rewrite Hv. eexists.
    autorewrite with rows. reflexivity.
  - intros rest. rewrite deliver_cons. unfold exec.
    now rewrite (on_message_rejected msg self Hrej).
Qed.

(** a record's call prints the topic warning first, whatever follows *)
Lemma on_message_record_io (msg : MQTTMessage) (d : dict) (self : MQTTToCSV) :
  payload msg = Json (PyDict d) ->
  exists evs,
    io (exec (on_message msg) self) = (io self ++ topic_warning msg ++ evs)%list.
Proof.
  intros Hd. unfold exec.
  destruct (headers_written self) eqn:Hw.
  - destruct (remaining_keys self) as [rk|] eqn:Hrk.
    + rewrite (on_message_later_any msg d self rk Hd Hw Hrk).
      cbn [snd add_io io]. eauto.
    + destruct (on_message_no_schema msg d self Hd Hw Hrk) as [e ->].
      cbn [snd add_io io]. eauto.
  - rewrite (on_message_first_any msg d self Hd Hw).
    cbn [snd io]. rewrite <- app_assoc. eauto.
Qed.

(** C6, as stated, fails: a short topic on a payload that is not JSON gets
    no warning and no row, since the payload is parsed before the topic is
    looked at; and a short topic on a JSON object gets the warning but no
    row when a write raises, here on a console that encodes as ASCII. *)
Lemma short_topic_counterexample :
  let msg := short_topic_garbage in
  let self' := exec (on_message msg) (init no_failure "RX1") in
  let refused :=
    exec (on_message accent_short_topic_msg) (init ascii_console "RX1") in
  List.length (split "/" (topic msg)) < 4 /\
  ~ In (UnexpectedTopicFormat (topic msg)) (stderr_lines (io self')) /\
  stdout_rows (io self') = [] /\
  file_rows (io self') = [] /\
  is_record accent_short_topic_msg = true /\
  List.length (split "/" (topic accent_short_topic_msg)) < 4 /\
  hd_error (stderr_lines (io refused))
    = Some (UnexpectedTopicFormat (topic accent_short_topic_msg)) /\
  stdout_rows (io refused) = [] /\
  file_rows (io refused) = [].
Proof.
  vm_compute. repeat split; auto.
  intros [H|[]]. discriminate H.
Qed.

(** C6, amended. For a message whose payload decodes to a JSON object, at
    any point of a run: the callback returns normally; if the topic has
    fewer than four segments the sender id (the record's [tx_callsign]) is
    the empty text and the warning is printed to standard error; if it has
    at least four, the sender id is segment 2.  With sinks whose [writerow]
    never raises, the callback writes one data row to both sinks, with the
    sender id in its third column; with sinks none of whose calls raises it
    prints nothing but the warning. *)
Theorem sender_id_from_topic :
  forall (sinks : sink_behaviour) (rx : string) (earlier : list MQTTMessage)
         (msg : MQTTMessage) (d : dict),
    payload msg = Json (PyDict d) ->
    let parts := split "/" (topic msg) in
    let self := exec (deliver earlier) (init sinks rx) in
    let self' := exec (on_message msg) self in
    fst (on_message msg self) = inr tt /\
    exists (sender : string) (data : dict),
      fst (prepare msg self) = inr data /\
      dict_lookup data "tx_callsign" = Some (PyStr sender) /\
      (List.length parts < 4 ->
         sender = "" /\
         exists more,
           stderr_lines (io self')
             = (stderr_lines (io self)
                  ++ UnexpectedTopicFormat (topic msg) :: more)%list) /\
      (4 <= List.length parts -> sender = nth 2 parts "") /\
      (writes_through sinks ->
       exists (header : list row) (r rest : row),
         List.length header <= 1 /\
         stdout_rows (io self') = (stdout_rows (io self) ++ header ++ [r])%list /\
         file_rows (io self') = (file_rows (io self) ++ header ++ [r])%list /\
         r = dict_get d "timestamp" (PyStr "") :: PyStr rx :: PyStr sender :: rest) /\
      (reliable sinks ->
       (List.length parts < 4 ->
          stderr_lines (io self')
            = (stderr_lines (io self) ++ [UnexpectedTopicFormat (topic msg)])%list) /\
       (4 <= List.length parts ->
          stderr_lines (io self') = stderr_lines (io self))).
Proof.
  intros sinks rx earlier msg d Hd parts self self'.
  split; [apply on_message_returns|].
  destruct (reachable_schema_ok sinks rx earlier) as (Hc & Hk & Hok).
  fold self in Hc, Hk, Hok.
  exists (tx_callsign_of msg), (injected rx msg d).
  rewrite (prepare_record msg d self Hd), Hc.
  split; [reflexivity|]. split; [apply injected_tx|].
  split; [|split; [|split]].
  - intros Hlen. apply Nat.leb_gt in Hlen.
    unfold tx_callsign_of. fold parts. rewrite Hlen. split; [reflexivity|].
    destruct (on_message_record_io msg d self Hd) as [evs Hio].
    fold self' in Hio. rewrite Hio. unfold topic_warning. fold parts.
    rewrite Hlen. exists (stderr_lines evs).
    rewrite !stderr_lines_app. reflexivity.
  - intros Hlen. apply Nat.leb_le in Hlen.
    unfold tx_callsign_of. fold parts. now rewrite Hlen.
  - intros Hrel. rewrite <- Hk in Hrel.
    destruct (on_message_record_rows msg d self Hrel Hok Hd)
      as (header & rk & _ & Hh & Hs & Hf).
    fold self' in Hs, Hf. rewrite Hc in Hs, Hf.
    destruct (build_row_fixed rx msg d rk) as [rest Hrow].
    exists header, (build_row (injected rx msg d) rk), rest. auto.
  - intros Hrel. rewrite <- Hk in Hrel.
    destruct (on_message_record msg d self Hrel Hok Hd)
      as (header & rk & _ & _ & _ & _ & He).
    fold self' in He.
    rewrite He. unfold topic_warning. fold parts.
    split; intros Hlen.
    + apply Nat.leb_gt in Hlen. now rewrite Hlen.
    + apply Nat.leb_le in Hlen. rewrite Hlen. cbn. now rewrite app_nil_r.
Qed.

(** C4, as stated, fails twice.  The record with [path] set to the array of
    1 and 2 gets the cell text with a space after the comma, which is how
    [json.dumps] separates items; and an array under [timestamp], a fixed
    column, is not serialised at all: the list goes to the CSV writer, which
    writes its Python text, with single quotes. *)
Lemma structured_cells_counterexample :
  let row_of msg :=
    nth 1 (stdout_rows (io (exec (on_message msg) (init no_failure "RX1")))) [] in
  csv_field_text (nth 3 (row_of path_msg) PyNone) = "[1, 2]" /\
  csv_field_text (nth 3 (row_of path_msg) PyNone) <> "[1,2]" /\
  nth 0 (row_of timestamp_list_msg) PyNone = PyList [PyStr "a"] /\
  csv_field_text (nth 0 (row_of timestamp_list_msg) PyNone) = "['a']" /\
  csv_field_text (nth 0 (row_of timestamp_list_msg) PyNone)
    <> json_dumps (PyList [PyStr "a"]).
Proof.
  cbn. repeat split; discriminate.
Qed.

(** C4, amended. In a row laid out on the remaining keys, the cell of a key
    whose value is a list or a dict is the text [json.dumps] gives for the
    value, with its default separators (the array of 1 and 2 becomes
    [[1, 2]]); any other value, and the default for a missing key, is put
    in the row as it is, and the CSV writer writes its [str] text, nothing
    for [None]. *)
Theorem structured_cells_json_dumps :
  forall (data : dict) (rk : list string) (i : nat) (k : string),
    nth_error rk i = Some k ->
    let value := dict_get data k (PyStr "") in
    let c := nth (3 + i) (build_row data rk) PyNone in
    (is_list_or_dict value = true ->
       c = PyStr (json_dumps value) /\ csv_field_text c = json_dumps value) /\
    (is_list_or_dict value = false ->
       c = value /\
       csv_field_text c =
         match value with
         | PyNone => ""
         | PyBool true => "True"
         | PyBool false => "False"
         | PyInt z => int_repr z
         | PyFloat repr => repr
         | PyStr s => s
         | _ => csv_field_text c
         end) /\
    json_dumps (PyList [PyInt 1; PyInt 2]) = "[1, 2]".
Proof.
  intros data rk i k Hi value c.
  assert (Hc : c = cell data k).
  { subst c. unfold build_row. cbn [app Nat.add nth].
    apply nth_error_nth. now apply map_nth_error. }
  rewrite Hc. unfold cell. fold value.
  split; [|split].
  - intros Hv. rewrite Hv. auto.
  - intros Hv. rewrite Hv. split; [reflexivity|].
    destruct value as [| [] | | | | |]; try reflexivity; discriminate.
  - reflexivity.
Qed.

(** ** The two sinks as text streams *)

Lemma append_nil_r (s : string) : s ++ "" = s.
Proof. induction s; cbn; congruence. Qed.

Lemma append_assoc (a b c : string) : (a ++ b) ++ c = a ++ (b ++ c).
Proof. induction a; cbn; congruence. Qed.

Lemma csv_text_app (a b : list row) :
  csv_text (a ++ b) = csv_text a ++ csv_text b.
Proof.
  induction a as [|r a IH]; cbn; [reflexivity|].
  now rewrite IH, append_assoc.
Qed.

Lemma add_io_add_io (self : MQTTToCSV) (a b : list event) :
  add_io (add_io self a) b = add_io self (a ++ b).
Proof. unfold add_io. cbn. now rewrite app_assoc. Qed.

Lemma deliver_frozen_io (msgs : list MQTTMessage) (self : MQTTToCSV)
    (rk : list string) :
  reliable (sinks self) ->
  headers_written self = true ->
  remaining_keys self = Some rk ->
  exec (deliver msgs) self = add_io self (later_events (callsign self) rk msgs).
Proof.
  revert self. induction msgs as [|m ms IH]; intros self Hrel Hw Hrk.
  - unfold exec, add_io. cbn. rewrite app_nil_r. now destruct self.
  - rewrite exec_deliver_cons. unfold later_events. cbn [flat_map].
    fold (later_events (callsign self) rk ms).
    destruct (record_or_rejected m) as [[d Hd]|Hr].
    + unfold exec at 2. rewrite (on_message_later m d self rk Hrel Hd Hw Hrk), Hd.
      cbn [snd]. rewrite IH by assumption. cbn [add_io callsign].
      apply add_io_add_io.
    + unfold exec at 2. rewrite (on_message_rejected m self Hr).
      cbn [snd]. rewrite IH by assumption. cbn [add_io callsign].
      rewrite add_io_add_io. unfold is_record in Hr.
      destruct (payload m) as [e|e|e|[]]; try discriminate; reflexivity.
Qed.

(** the events of a whole run: nothing but diagnostics, or diagnostics, then
    the header and the first row, then the frozen regime *)
Lemma deliver_io (sinks : sink_behaviour) (rx : string)
    (msgs : list MQTTMessage) :
  reliable sinks ->
  let t := io (exec (deliver msgs) (init sinks rx)) in
  t = flat_map rejection msgs \/
  exists pre msg post rk r,
    t = (flat_map rejection pre ++ topic_warning msg ++ header_events rk
           ++ row_events r ++ later_events rx rk post)%list.
Proof.
  intros Hrel. cbn zeta.
  destruct (first_record msgs) as [Hall|(pre & msg & d & post & -> & Hpre & Hd)].
  - left. now rewrite (deliver_rejected msgs _ Hall).
  - right. exists pre, msg, post. eexists _, _.
    rewrite exec_deliver_app, (deliver_rejected pre _ Hpre), exec_deliver_cons.
    unfold exec at 2.
    rewrite (on_message_first msg d (add_io (init sinks rx) (flat_map rejection pre))
               Hrel Hd eq_refl). cbn [snd].
    erewrite deliver_frozen_io by (exact Hrel || reflexivity).
    cbn [add_io io callsign init app]. rewrite <- !app_assoc. reflexivity.
Qed.

Lemma only_stderr_warning (msg : MQTTMessage) : only_stderr (topic_warning msg).
Proof.
  unfold topic_warning, only_stderr.
  destruct (Nat.leb _ _); repeat constructor. eauto.
Qed.

Lemma only_stderr_rejection (msg : MQTTMessage) : only_stderr (rejection msg).
Proof.
  unfold rejection, only_stderr. destruct (payload msg).
  - repeat constructor. eauto.
  - repeat constructor. eauto.
  - repeat constructor. unfold handler_event. eauto.
  - apply Forall_app. split; [apply only_stderr_warning|].
    repeat constructor. eauto.
Qed.

Lemma only_stderr_rejections (msgs : list MQTTMessage) :
  only_stderr (flat_map rejection msgs).
Proof.
  induction msgs as [|m ms IH]; cbn [flat_map].
  - constructor.
  - apply Forall_app. split; [apply only_stderr_rejection|exact IH].
Qed.

(** diagnostics touch neither sink *)
Lemma only_stderr_streams (out file : stream) (evs : list event) :
  only_stderr evs ->
  fold_left stdout_step evs out = out /\
  fold_left file_step evs file = file /\
  stdout_rows evs = [] /\ file_rows evs = [].
Proof.
  induction 1 as [|ev evs [d ->] _ IH]; cbn; auto.
Qed.

(** lines 118-121 keep the sinks together *)
Lemma row_events_in_sync (out file : stream) (rows : list row) (r : row) :
  in_sync out file rows ->
  in_sync (fold_left stdout_step (row_events r) out)
          (fold_left file_step (row_events r) file)
          (rows ++ [r]).
Proof.
  intros (-> & Hb & Hf). unfold in_sync. cbn.
  unfold stream_flush, stream_write. cbn. rewrite Hb, Hf.
  rewrite csv_text_app. cbn. rewrite append_nil_r. auto.
Qed.

(** so do lines 99-100 followed by lines 118-121 *)
Lemma header_row_events_in_sync (out file : stream) (rows : list row)
    (rk : list string) (r : row) :
  in_sync out file rows ->
  in_sync (fold_left stdout_step (header_events rk ++ row_events r) out)
          (fold_left file_step (header_events rk ++ row_events r) file)
          (rows ++ [map PyStr (fixed_headers ++ rk)%list; r]).
Proof.
  intros (-> & Hb & Hf). unfold in_sync. cbn.
  unfold stream_flush, stream_write. cbn. rewrite Hb, Hf.
  rewrite csv_text_app. cbn. rewrite append_nil_r. auto.
Qed.

Lemma later_events_in_sync (rx : string) (rk : list string)
    (msgs : list MQTTMessage) :
  forall (out file : stream) (rows : list row),
    in_sync out file rows ->
    in_sync (fold_left stdout_step (later_events rx rk msgs) out)
            (fold_left file_step (later_events rx rk msgs) file)
            (rows ++ file_rows (later_events rx rk msgs)) /\
    stdout_rows (later_events rx rk msgs) = file_rows (later_events rx rk msgs).
Proof.
  induction msgs as [|m ms IH]; intros out file rows Hsync.
  - cbn. rewrite app_nil_r. auto.
  - unfold later_events. cbn [flat_map]. fold (later_events rx rk ms).
    rewrite !fold_left_app, stdout_rows_app, file_rows_app.
    set (evs := match payload m with
                | Json (PyDict d) =>
                    (topic_warning m ++ row_events (build_row (injected rx m d) rk))%list
                | _ => rejection m
                end).
    assert (Hstep : exists new,
               in_sync (fold_left stdout_step evs out)
                       (fold_left file_step evs file) (rows ++ new) /\
               stdout_rows evs = new /\ file_rows evs = new).
    { subst evs. destruct (payload m) as [e|e|e|v] eqn:Hp.
      1-3: exists []; rewrite app_nil_r;
        destruct (only_stderr_streams out file _ (only_stderr_rejection m))
          as (-> & -> & -> & ->); auto.
      destruct v.
      1-6: exists []; rewrite app_nil_r;
        destruct (only_stderr_streams out file _ (only_stderr_rejection m))
          as (-> & -> & -> & ->); auto.
      eexists [_]. rewrite !fold_left_app, stdout_rows_app, file_rows_app.
      destruct (only_stderr_streams out file _ (only_stderr_warning m))
        as (-> & -> & -> & ->).
      split; [apply row_events_in_sync; assumption|]. split; reflexivity. }
    destruct Hstep as (new & Hs & -> & Hnew).
    destruct (IH _ _ _ Hs) as [Hs' Heq].
    rewrite Hnew, Heq, <- app_assoc in *. auto.
Qed.

(** C7, as stated, fails on the header row: it is written to both sinks
    (lines 99-100) without a flush of its own.  On the first record the
    call after the header's file write is the write of the data row, and
    the header is still in the file's buffer when the data row has been
    written to both sinks; the flushes of lines 120-121 then push out
    both.  It also fails when a call on a sink raises: with the file on a
    full device the flush of line 121 raises after the console has been
    flushed, and the callback ends with the rows on the console and
    nothing in the file. *)
Lemma header_flush_counterexample :
  let t := io (exec (on_message scenario_msg) (init no_failure "RX1")) in
  let t' := io (exec (on_message scenario_msg) (init disk_full "RX1")) in
  let header := map PyStr ["timestamp"; "rx_callsign"; "tx_callsign"; "lat"; "lon"] in
  let r := [PyStr "2024-01-01T00:00:00Z"; PyStr "RX1"; PyStr "TX1";
            PyFloat "1.0"; PyFloat "2.0"] in
  t = [StdoutWriterow header; FileWriterow header;
       StdoutWriterow r; FileWriterow r; StdoutFlush; FileFlush] /\
  nth_error t 2 <> Some FileFlush /\
  file_stream (firstn 2 t)
    = {| flushed := ""; buffered := csv_writerow header |} /\
  file_stream (firstn 4 t)
    = {| flushed := ""; buffered := csv_writerow header ++ csv_writerow r |} /\
  t' = [StdoutWriterow header; FileWriterow header;
        StdoutWriterow r; FileWriterow r; StdoutFlush;
        StderrPrint (ErrorProcessingMessage "[Errno 28] No space left on device")] /\
  flushed (stdout_stream t') = csv_writerow header ++ csv_writerow r /\
  flushed (file_stream t') = "" /\
  stdout_stream t' <> file_stream t'.
Proof.
  vm_compute. repeat split; discriminate.
Qed.

(** C7, amended. With sinks none of whose calls raises, at every point of a
    run, between two calls of the callback: both sinks have received the
    same rows in the same order, each as one CSV record of the writer
    (comma-separated fields, a field quoted exactly when it holds a comma,
    a quote, a carriage return or a line feed, with its quotes doubled, and
    terminated by CR LF); both streams have been flushed after the last
    data row (the header row is flushed with the first data row), nothing
    is left in a buffer, and the file stream and the console stream hold
    the same text, the records of the rows written. *)
Theorem sinks_identical :
  forall (sinks : sink_behaviour) (rx : string) (msgs : list MQTTMessage),
    reliable sinks ->
    let t := io (exec (deliver msgs) (init sinks rx)) in
    stdout_rows t = file_rows t /\
    stdout_stream t = file_stream t /\
    buffered (file_stream t) = "" /\
    buffered (stdout_stream t) = "" /\
    flushed (file_stream t) = csv_text (file_rows t) /\
    flushed (stdout_stream t) = csv_text (stdout_rows t) /\
    (forall r : row,
        csv_writerow r =
          let fields := join "," (map csv_field r) in
          (match r, fields with
           | _ :: _, EmptyString => String dquote (str1 dquote)
           | _, _ => fields
           end) ++ String CR (str1 LF)) /\
    (forall v : pyval,
        csv_field v =
          if any_char csv_special (csv_field_text v)
          then String dquote (csv_double_quotes (csv_field_text v) ++ str1 dquote)
          else csv_field_text v).
Proof.
  intros sinks rx msgs Hrel t.
  assert (H : stdout_rows t = file_rows t /\
              in_sync (stdout_stream t) (file_stream t) (file_rows t)).
  { subst t. unfold stdout_stream, file_stream.
    destruct (deliver_io sinks rx msgs Hrel)
      as [->|(pre & msg & post & rk & r & ->)].
    - destruct (only_stderr_streams empty_stream empty_stream _
                  (only_stderr_rejections msgs)) as (-> & -> & -> & ->).
      repeat split.
    - rewrite !fold_left_app, !stdout_rows_app, !file_rows_app.
      destruct (only_stderr_streams empty_stream empty_stream _
                  (only_stderr_rejections pre)) as (-> & -> & -> & ->).
      destruct (only_stderr_streams empty_stream empty_stream _
                  (only_stderr_warning msg)) as (-> & -> & -> & ->).
      rewrite <- !fold_left_app.
      assert (H0 : in_sync empty_stream empty_stream []) by (repeat split).
      pose proof (header_row_events_in_sync _ _ _ rk r H0) as H1.
      destruct (later_events_in_sync rx rk post _ _ _ H1) as [H2 Heq].
      cbn [app] in *. rewrite Heq. split; [reflexivity|].
      exact H2. }
  destruct H as (Hrows & Hst & Hb & Hf).
  rewrite Hrows, Hst. repeat split; assumption.
Qed.

(** ** Concurrent callbacks *)

Open Scope list_scope.

Lemma sink_step_write_stdout (s : stmt) (r : row) (next : pc) (sh : shared) :
  writes_through (sinks (object sh)) ->
  sink_step s (StdoutWriterow r) next sh
    = Some (s, next, with_object sh (exec (emit (StdoutWriterow r)) (object sh))).
Proof.
  intros Hrel. unfold sink_step, sink_call. now rewrite (proj1 (Hrel _ r)).
Qed.

Lemma sink_step_write_file (s : stmt) (r : row) (next : pc) (sh : shared) :
  writes_through (sinks (object sh)) ->
  sink_step s (FileWriterow r) next sh
    = Some (s, next, with_object sh (exec (emit (FileWriterow r)) (object sh))).
Proof.
  intros Hrel. unfold sink_step, sink_call. now rewrite (proj2 (Hrel _ r)).
Qed.

(** a call on a sink goes through, or leaves the object as it is *)
Lemma sink_step_cases (s : stmt) (ev : event) (next : pc) (sh : shared) :
  sink_step s ev next sh
    = Some (s, next, with_object sh (exec (emit ev) (object sh))) \/
  exists e,
    sink_step s ev next sh
      = Some (s, AtExitWith (Some e), with_object sh (object sh)).
Proof.
  unfold sink_step, sink_call.
  destruct (sinks (object sh) _ ev) as [e|]; eauto.
Qed.

(** a thread left alone runs the callback, whatever the sinks do *)
Lemma solo_on_message (msg : MQTTMessage) (self : MQTTToCSV) :
  solo 16 (AtTry msg) {| object := self; locked := false |}
    = (Returned, {| object := exec (on_message msg) self; locked := false |}).
Proof.
  destruct (record_or_rejected msg) as [[d Hd]|Hr].
  - cbn [solo thread_step object]. unfold exec.
    unfold on_message, try_except, try_body, bind.
    rewrite (prepare_record msg d self Hd).
    generalize (injected (callsign self) msg d) as data.
    generalize (topic_warning msg) as w. intros w data.
    unfold locked_section, write_headers_once, bind, get_self, sink_step,
      sink_call.
    destruct self as [rx hw rko t s]. destruct hw; [destruct rko as [rk|]|];
      cbn; unfold sink_step, sink_call; cbn;
      repeat (first [ match goal with H : s _ _ = _ |- _ => rewrite H end
                    | match goal with
                      | |- context [s ?h ?ev] => destruct (s h ev) eqn:?
                      end ]; cbn; unfold sink_step, sink_call; cbn);
      reflexivity.
  - unfold exec. rewrite (on_message_rejected msg self Hr).
    unfold is_record in Hr. cbn [solo thread_step object].
    unfold rejection, prepare, bind, decode_and_loads, topic_tx_callsign, topic_warning.
    destruct (payload msg) as [e|e|e|v]; [reflexivity|reflexivity| |].
    + cbn. rewrite handlers_emit. reflexivity.
    + destruct (Nat.leb 4 (List.length (split "/" (topic msg))));
        destruct v; try discriminate; cbn; unfold add_io, emit; cbn;
        rewrite <- ?app_assoc; reflexivity.
Qed.

Lemma stdout_rows_one (ev : event) :
  stdout_rows [ev] = match ev with StdoutWriterow r => [r] | _ => [] end.
Proof. now destruct ev. Qed.

Lemma file_rows_one (ev : event) :
  file_rows [ev] = match ev with FileWriterow r => [r] | _ => [] end.
Proof. now destruct ev. Qed.

#[local] Arguments stdout_rows : simpl never.
#[local] Arguments file_rows : simpl never.

Ltac rows_simp :=
  autorewrite with rows; rewrite ?stdout_rows_one, ?file_rows_one;
  cbn; rewrite ?app_nil_r.

Lemma view_prepare (msg : MQTTMessage) (self : MQTTToCSV) :
  view (snd (prepare msg self)) = view self.
Proof.
  unfold prepare, bind, decode_and_loads, topic_tx_callsign.
  destruct (payload msg) as [e|e|e|v]; [reflexivity|reflexivity|reflexivity|].
  destruct (Nat.leb 4 (List.length (split "/" (topic msg))));
    destruct v; cbn; unfold view; cbn; rows_simp; reflexivity.
Qed.

Lemma sinks_prepare (msg : MQTTMessage) (self : MQTTToCSV) :
  sinks (snd (prepare msg self)) = sinks self.
Proof.
  unfold prepare, bind, decode_and_loads, topic_tx_callsign.
  destruct (payload msg) as [e|e|e|v]; [reflexivity|reflexivity|reflexivity|].
  destruct (Nat.leb 4 (List.length (split "/" (topic msg))));
    destruct v; reflexivity.
Qed.

(** no statement changes the sinks the object was given *)
Lemma thread_step_sinks (p p' : pc) (sh sh' : shared) (s : stmt) :
  thread_step p sh = Some (s, p', sh') ->
  sinks (object sh') = sinks (object sh).
Proof.
  destruct p; cbn [thread_step]; unfold sink_step, sink_call; intros Hs.
  - pose proof (sinks_prepare msg (object sh)) as Hk.
    destruct (prepare msg (object sh)) as [[e|data] self'];
      injection Hs as <- <- <-; exact Hk.
  - destruct (locked sh); [discriminate|]. now injection Hs as <- <- <-.
  - now injection Hs as <- <- <-.
  - now injection Hs as <- <- <-.
  - destruct (get_remaining_keys (object sh)) as [[e|rk] ?];
      now injection Hs as <- <- <-.
  - destruct (sinks (object sh) _ _); now injection Hs as <- <- <-.
  - destruct (sinks (object sh) _ _); now injection Hs as <- <- <-.
  - now injection Hs as <- <- <-.
  - destruct (get_remaining_keys (object sh)) as [[e|rk] ?];
      now injection Hs as <- <- <-.
  - destruct (sinks (object sh) _ _); now injection Hs as <- <- <-.
  - destruct (sinks (object sh) _ _); now injection Hs as <- <- <-.
  - destruct (sinks (object sh) _ _); now injection Hs as <- <- <-.
  - destruct (sinks (object sh) _ _); now injection Hs as <- <- <-.
  - destruct e; now injection Hs as <- <- <-.
  - injection Hs as <- <- <-. now destruct e.
  - discriminate.
Qed.

Lemma step_sinks (c c' : config) (l : nat * stmt) :
  step c l c' -> sinks (object (fst c')) = sinks (object (fst c)).
Proof.
  intros Hstep. destruct Hstep as [sh sh' before after p p' s Hs].
  exact (thread_step_sinks p p' sh sh' s Hs).
Qed.

Lemma run_sinks (c c' : config) (tr : list (nat * stmt)) :
  run c tr c' -> sinks (object (fst c')) = sinks (object (fst c)).
Proof.
  induction 1 as [c|c c' c'' tr l _ IH Hs]; [reflexivity|].
  now rewrite (step_sinks _ _ _ Hs).
Qed.

(** how a statement moves the lock and the thread that runs it *)
Lemma thread_step_lock (p p' : pc) (sh sh' : shared) (s : stmt) :
  thread_step p sh = Some (s, p', sh') ->
  match holds_lock p, holds_lock p' with
  | false, false => inside_with s = false /\ locked sh' = locked sh
  | false, true => inside_with s = false /\ locked sh = false /\ locked sh' = true
  | true, true => locked sh' = locked sh
  | true, false => locked sh' = false
  end.
Proof.
  destruct p; cbn [thread_step holds_lock]; unfold sink_step; intros Hs.
  - destruct (prepare msg (object sh)) as [[e|data] self'];
      injection Hs as <- <- <-; cbn; auto.
  - destruct (locked sh) eqn:Hl; [discriminate|].
    injection Hs as <- <- <-. cbn. auto.
  - injection Hs as <- <- <-.
    destruct (negb (headers_written (object sh))); reflexivity.
  - now injection Hs as <- <- <-.
  - destruct (get_remaining_keys (object sh)) as [[e|rk] ?];
      now injection Hs as <- <- <-.
  - destruct (sink_call _ _) as [[e|[]] ?]; now injection Hs as <- <- <-.
  - destruct (sink_call _ _) as [[e|[]] ?]; now injection Hs as <- <- <-.
  - now injection Hs as <- <- <-.
  - destruct (get_remaining_keys (object sh)) as [[e|rk] ?];
      now injection Hs as <- <- <-.
  - destruct (sink_call _ _) as [[e|[]] ?]; now injection Hs as <- <- <-.
  - destruct (sink_call _ _) as [[e|[]] ?]; now injection Hs as <- <- <-.
  - destruct (sink_call _ _) as [[e|[]] ?]; now injection Hs as <- <- <-.
  - destruct (sink_call _ _) as [[e|[]] ?]; now injection Hs as <- <- <-.
  - destruct e; now injection Hs as <- <- <-.
  - injection Hs as <- <- <-. cbn. auto.
  - discriminate.
Qed.

(** the lock is held exactly when one thread is inside [with self.lock] *)
Lemma step_mutex (c c' : config) (l : nat * stmt) :
  List.length (filter holds_lock (snd c)) = (if locked (fst c) then 1 else 0) ->
  step c l c' ->
  List.length (filter holds_lock (snd c')) = (if locked (fst c') then 1 else 0).
Proof.
  intros Hm Hstep. destruct Hstep as [sh sh' before after p p' s Hs].
  cbn [fst snd] in *. apply thread_step_lock in Hs.
  rewrite filter_app, length_app in *. cbn [filter] in *.
  destruct (holds_lock p), (holds_lock p'); cbn [List.length] in *.
  - rewrite Hs. exact Hm.
  - rewrite Hs. destruct (locked sh); lia.
  - destruct Hs as (_ & Hl & ->). rewrite Hl in Hm. lia.
  - destruct Hs as [_ ->]. exact Hm.
Qed.


Lemma view_handlers (e : exn) (self : MQTTToCSV) :
  view (exec (handlers e) self) = view self.
Proof.
  destruct e; cbn; unfold view; cbn; rows_simp; reflexivity.
Qed.

Lemma sole_holder (A : Prop) (B : pc -> Prop) (hb ha : list pc) (p : pc) :
  match hb ++ p :: ha with
  | [] => A
  | [q] => B q
  | _ => False
  end ->
  hb = [] /\ ha = [] /\ B p.
Proof.
  destruct hb as [|h [|h' hb]]; destruct ha; cbn; tauto.
Qed.

Lemma frozen_snoc (rk : list string) (rows : list row) (d : dict) :
  frozen rk rows -> frozen rk (rows ++ [build_row d rk]).
Proof.
  intros [ds ->]. exists (ds ++ [d]). now rewrite map_app.
Qed.

(** with sinks whose [writerow] never raises, a statement keeps the
    invariant *)
Lemma step_preserves (c c' : config) (l : nat * stmt) :
  writes_through (sinks (object (fst c))) ->
  inv c -> step c l c' -> inv c' /\ infer_delta c l c'.
Proof.
  intros Hrel Hinv Hstep. destruct Hstep as [sh sh' before after p p' s Hs].
  unfold inv, infer_delta in *. cbn [fst snd] in *.
  rewrite filter_app in *. cbn [filter] in *.
  destruct p; cbn [holds_lock] in *; cbn [thread_step] in Hs;
    rewrite ?(sink_step_write_stdout _ _ _ _ Hrel),
      ?(sink_step_write_file _ _ _ _ Hrel) in Hs.
  - (* AtTry *)
    pose proof (view_prepare msg (object sh)) as Hv.
    destruct (prepare msg (object sh)) as [[e|data] self'];
      injection Hs as <- <- <-; cbn [holds_lock snd] in *;
      cbn [with_object object locked]; rewrite Hv; split; try assumption;
      unfold view in Hv; congruence.
  - (* AtWith *)
    destruct (locked sh) eqn:Hl; [discriminate|].
    injection Hs as <- <- <-. cbn [holds_lock with_locked object locked].
    destruct (filter holds_lock before ++ filter holds_lock after)
      as [|q [|q' rest]] eqn:Hf.
    + apply app_eq_nil in Hf. destruct Hf as [-> ->]. cbn.
      destruct Hinv as [_ Hq]. auto.
    + destruct Hinv as [Hinv _]. discriminate.
    + contradiction.
  - (* AtIf *)
    apply sole_holder in Hinv. destruct Hinv as (-> & -> & Hl & Hc).
    injection Hs as <- <- <-. split; [|reflexivity].
    unfold critical, quiet, view in *.
    destruct (headers_written (object sh)); cbn [negb holds_lock filter app].
    + split; [assumption|]. destruct Hc as [Hrows Hc].
      destruct (remaining_keys (object sh)) as [rk|].
      * exists rk. tauto.
      * destruct Hc. discriminate.
    + split; [assumption|]. destruct Hc as [Hrows Hc].
      destruct (remaining_keys (object sh)) as [rk|].
      * destruct Hc. discriminate.
      * destruct Hc as [_ Hc]. rewrite Hrows, Hc. auto.
  - (* AtSetKeys *)
    apply sole_holder in Hinv. destruct Hinv as (-> & -> & Hl & Hc).
    injection Hs as <- <- <-. cbn in *. intuition congruence.
  - (* AtExtend *)
    apply sole_holder in Hinv. destruct Hinv as (-> & -> & Hl & Hc).
    unfold get_remaining_keys in Hs. cbn in Hc.
    destruct Hc as (Hw & Hrk & Hsr & Hfr). rewrite Hrk in Hs.
    injection Hs as <- <- <-. cbn. rewrite Hrk. auto 10.
  - (* AtHeaderStdout *)
    apply sole_holder in Hinv. destruct Hinv as (-> & -> & Hl & Hc).
    injection Hs as <- <- <-. cbn in *.
    destruct Hc as (Hw & Hrk & Hh & Hsr & Hfr).
    rows_simp. rewrite Hsr, Hfr. cbn. auto 10.
  - (* AtHeaderFile *)
    apply sole_holder in Hinv. destruct Hinv as (-> & -> & Hl & Hc).
    injection Hs as <- <- <-. cbn in *.
    destruct Hc as (Hw & Hrk & Hh & Hsr & Hfr).
    rows_simp. rewrite Hsr, Hfr, Hh. cbn. auto 10.
  - (* AtSetFlag *)
    apply sole_holder in Hinv. destruct Hinv as (-> & -> & Hl & Hc).
    injection Hs as <- <- <-. cbn in *.
    destruct Hc as (Hw & Hrk & Hsr & Hfr).
    split; [|reflexivity]. split; [assumption|].
    eexists. split; [eassumption|]. split; [reflexivity|].
    split; [|assumption]. rewrite Hsr. now exists [].
  - (* AtBuildRow *)
    apply sole_holder in Hinv. destruct Hinv as (-> & -> & Hl & Hc).
    unfold get_remaining_keys in Hs. cbn in Hc.
    destruct Hc as (rk & Hrk & Hw & Hfz & Hfr). rewrite Hrk in Hs.
    injection Hs as <- <- <-. cbn. split; [|reflexivity].
    split; [assumption|]. exists rk. eauto 10.
  - (* AtRowStdout *)
    apply sole_holder in Hinv. destruct Hinv as (-> & -> & Hl & Hc).
    injection Hs as <- <- <-. cbn in *.
    destruct Hc as (rk & Hrk & Hw & Hfz & Hfr & d & Hr).
    split; [|reflexivity]. split; [assumption|].
    rows_simp. cbn. exists rk. rewrite Hfr. eauto 10.
  - (* AtRowFile *)
    apply sole_holder in Hinv. destruct Hinv as (-> & -> & Hl & Hc).
    injection Hs as <- <- <-. cbn in *.
    destruct Hc as (rk & Hrk & Hw & Hfz & Hsr & d & Hr).
    split; [|reflexivity]. split; [assumption|].
    rows_simp. cbn. exists rk. rewrite Hsr, Hr.
    repeat split; auto. now apply frozen_snoc.
  - (* AtFlushStdout *)
    apply sole_holder in Hinv. destruct Hinv as (-> & -> & Hl & Hc).
    destruct (sink_step_cases DoFlushStdout StdoutFlush AtFlushFile sh)
      as [Heq|[e Heq]]; rewrite Heq in Hs; injection Hs as <- <- <-; cbn in *;
      (split; [|reflexivity]); (split; [assumption|]).
    + rows_simp. exact Hc.
    + exact Hc.
  - (* AtFlushFile *)
    apply sole_holder in Hinv. destruct Hinv as (-> & -> & Hl & Hc).
    destruct (sink_step_cases DoFlushFile FileFlush (AtExitWith None) sh)
      as [Heq|[e Heq]]; rewrite Heq in Hs; injection Hs as <- <- <-; cbn in *;
      (split; [|reflexivity]); (split; [assumption|]).
    + rows_simp. exact Hc.
    + exact Hc.
  - (* AtExitWith *)
    apply sole_holder in Hinv. destruct Hinv as (-> & -> & Hl & Hc).
    cbn in Hc. destruct Hc as (rk & Hrk & Hw & Hfz & Hfr).
    destruct e; injection Hs as <- <- <-; cbn; rewrite Hrk;
      (split; [|destruct sh; reflexivity]); auto.
  - (* AtExcept *)
    injection Hs as <- <- <-. cbn [holds_lock snd] in *.
    cbn [with_object object locked].
    pose proof (view_handlers e (object sh)) as Hv. rewrite Hv.
    split; [assumption|]. unfold view in Hv. congruence.
  - discriminate.
Qed.

Lemma run_cons (c c' c'' : config) (l : nat * stmt) (tr : list (nat * stmt)) :
  step c l c' -> run c' tr c'' -> run c (l :: tr) c''.
Proof.
  intros Hstep Hrun. induction Hrun as [c'|c' c1 c2 tr l' _ IH Hs].
  - apply (run_step c c c' [] l); [constructor|assumption].
  - change (l :: tr ++ [l']) with ((l :: tr) ++ [l']).
    eapply run_step; [apply IH; assumption|eassumption].
Qed.

Lemma schedule_sound (order : list nat) (c : config) :
  run c (fst (schedule order c)) (snd (schedule order c)).
Proof.
  revert c. induction order as [|i rest IH]; intros [sh ths]; cbn [schedule fst snd].
  - constructor.
  - destruct (nth_error ths i) as [p|] eqn:Hp; [|apply IH].
    destruct (thread_step p sh) as [[[s p'] sh']|] eqn:Hs; [|apply IH].
    specialize (IH (sh', firstn i ths ++ p' :: skipn (S i) ths)).
    destruct (schedule rest _) as [tr c']. cbn [fst snd] in *.
    eapply run_cons; [|exact IH].
    destruct (nth_error_split ths i Hp) as (l1 & l2 & -> & <-).
    rewrite firstn_app, firstn_all, Nat.sub_diag. cbn [firstn].
    rewrite app_nil_r.
    replace (skipn (S (List.length l1)) (l1 ++ p :: l2)) with l2.
    + now constructor.
    + rewrite skipn_app, skipn_all2 by lia.
      replace (S (List.length l1) - List.length l1) with 1 by lia. reflexivity.
Qed.

Lemma no_holder_at_start (msgs : list MQTTMessage) :
  filter holds_lock (map AtTry msgs) = [].
Proof. induction msgs; cbn; auto. Qed.

Lemma inferences_snoc (tr : list (nat * stmt)) (l : nat * stmt) :
  inferences (tr ++ [l])
    = inferences tr + match snd l with InferKeys => 1 | _ => 0 end.
Proof.
  unfold inferences. rewrite filter_app, length_app. cbn.
  destruct (snd l); reflexivity.
Qed.

Lemma run_inv (env : sink_behaviour) (rx : string)
    (msgs : list MQTTMessage) (tr : list (nat * stmt)) (c : config) :
  writes_through env ->
  run (start env rx msgs) tr c ->
  inv c /\
  inferences tr = match remaining_keys (object (fst c)) with
                  | None => 0
                  | Some _ => 1
                  end.
Proof.
  intros Hrel Hrun. remember (start env rx msgs) as c0 eqn:Hc0.
  induction Hrun as [c|c c' c'' tr l Hrun IH Hs].
  - subst c. unfold start, inv. rewrite no_holder_at_start. cbn. auto.
  - destruct (IH Hc0) as [Hinv Hn].
    assert (Hrel' : writes_through (sinks (object (fst c')))).
    { rewrite (run_sinks _ _ _ Hrun). now subst c. }
    destruct (step_preserves c' c'' l Hrel' Hinv Hs) as [Hinv' Hd].
    split; [assumption|]. rewrite inferences_snoc, Hn.
    unfold infer_delta in Hd.
    destruct (snd l); try (rewrite Hd; lia).
    destruct Hd as [-> Hd].
    destruct (remaining_keys (object (fst c''))); [reflexivity|congruence].
Qed.

Lemma run_mutex (sinks : sink_behaviour) (rx : string)
    (msgs : list MQTTMessage) (tr : list (nat * stmt)) (c : config) :
  run (start sinks rx msgs) tr c ->
  List.length (filter holds_lock (snd c)) = (if locked (fst c) then 1 else 0).
Proof.
  intros Hrun. remember (start sinks rx msgs) as c0 eqn:Hc0.
  induction Hrun as [c|c c' c'' tr l _ IH Hs].
  - subst c. unfold start. cbn [fst snd locked].
    now rewrite no_holder_at_start.
  - eapply step_mutex; [apply IH; assumption|eassumption].
Qed.

(** a statement of the locked section is run by the thread that holds the
    lock, the only one inside *)
Lemma inside_with_by_holder (sh : shared) (ths : list pc) (l : nat * stmt)
    (c' : config) :
  List.length (filter holds_lock ths) = (if locked sh then 1 else 0) ->
  step (sh, ths) l c' ->
  inside_with (snd l) = true ->
  locked sh = true /\
  exists p, nth_error ths (fst l) = Some p /\ filter holds_lock ths = [p].
Proof.
  intros Hm Hstep Hin. inversion Hstep as [sh0 sh' before after p p' s Hs];
    subst. cbn [fst snd] in *.
  rewrite filter_app in *. cbn [filter] in *.
  assert (Hp : holds_lock p = true).
  { apply thread_step_lock in Hs.
    destruct (holds_lock p); [reflexivity|].
    destruct (holds_lock p'); destruct Hs as [Hs _]; congruence. }
  rewrite Hp in *. rewrite length_app in Hm. cbn [List.length] in Hm.
  destruct (locked sh); [|lia]. split; [reflexivity|].
  exists p. split.
  - rewrite nth_error_app2, Nat.sub_diag by lia. reflexivity.
  - destruct (filter holds_lock before); [|cbn in Hm; lia].
    destruct (filter holds_lock after); [reflexivity|cbn in Hm; lia].
Qed.

(** C8, as stated, fails: the header inference can run more than once.
    With a console that encodes as ASCII, the callback of a record with a
    key beyond ASCII runs lines 93-95 and leaves the locked section at line
    99 with the flag not set; the callback of the next record, here run
    after it, runs lines 93-95 again. *)
Lemma inference_twice_counterexample :
  let c0 := start ascii_console "RX1" [accent_msg; scenario_msg] in
  let tr := fst (schedule serial_order c0) in
  let c := snd (schedule serial_order c0) in
  run c0 tr c /\
  snd c = [Returned; Returned] /\
  inferences tr = 2 /\
  remaining_keys (object (fst c)) = Some ["lat"; "lon"].
Proof.
  split; [apply schedule_sound|].
  vm_compute. repeat split; reflexivity.
Qed.

(** C8, amended. Callbacks running concurrently, in any interleaving of
    their statements and whatever the sinks do: at most one thread is
    inside [with self.lock], and exactly one when the lock is held; and
    whichever thread runs next a statement of lines 91-121, the lock is
    held and that thread is the one inside.  With sinks whose [writerow]
    never raises: lines 93-95, the header inference, have run at most once,
    and once as soon as any row has been written; the rows on standard output
    are a header followed by data rows laid out on the one frozen list of
    remaining keys; the file has received the same rows in the same order,
    lagging by at most the one row the thread inside is writing, and
    nothing lags while the lock is free. *)
Theorem lock_guards_schema_and_sinks :
  forall (sinks : sink_behaviour) (rx : string) (msgs : list MQTTMessage)
         (tr : list (nat * stmt)) (sh : shared) (ths : list pc),
    run (start sinks rx msgs) tr (sh, ths) ->
    let self := object sh in
    List.length (filter holds_lock ths) = (if locked sh then 1 else 0) /\
    (forall (l : nat * stmt) (c' : config),
        step (sh, ths) l c' ->
        inside_with (snd l) = true ->
        locked sh = true /\
        exists p, nth_error ths (fst l) = Some p /\ filter holds_lock ths = [p]) /\
    (writes_through sinks ->
     inferences tr <= 1 /\
     (stdout_rows (io self) <> [] -> inferences tr = 1) /\
     (stdout_rows (io self) = [] \/
      exists rk, remaining_keys self = Some rk /\ frozen rk (stdout_rows (io self))) /\
     (exists rest, stdout_rows (io self) = file_rows (io self) ++ rest /\
                   List.length rest <= 1) /\
     (locked sh = false -> stdout_rows (io self) = file_rows (io self))).
Proof.
  intros sinks rx msgs tr sh ths Hrun self.
  pose proof (run_mutex sinks rx msgs tr (sh, ths) Hrun) as Hm.
  cbn [fst snd] in Hm.
  split; [exact Hm|]. split.
  { intros l c'. now apply inside_with_by_holder. }
  intros Hrel.
  destruct (run_inv sinks rx msgs tr (sh, ths) Hrel Hrun) as [Hinv Hn].
  cbn [fst] in Hn. fold self in Hn.
  unfold inv in Hinv.
  assert (Hle : inferences tr <= 1)
    by (rewrite Hn; destruct (remaining_keys self); lia).
  destruct (filter holds_lock ths) as [|p [|q rest]]; [| |contradiction].
  - (* nobody inside *)
    destruct Hinv as [Hl Hq]. unfold quiet, view in Hq. fold self in Hq.
    destruct Hq as [Hrows Hq].
    split; [assumption|].
    destruct (remaining_keys self) as [rk|].
    + destruct Hq as [Hw Hfz]. split; [auto|]. split; [right; eauto|].
      split; [exists []; rewrite app_nil_r; auto|auto].
    + destruct Hq as [Hw Hsr]. split; [congruence|]. split; [auto|].
      split; [exists []; rewrite app_nil_r; auto|auto].
  - (* one thread inside *)
    destruct Hinv as [Hl Hc].
    split; [assumption|].
    assert (Hmain :
      (stdout_rows (io self) = [] \/
       exists rk, remaining_keys self = Some rk /\ frozen rk (stdout_rows (io self))) /\
      (exists rest, stdout_rows (io self) = file_rows (io self) ++ rest /\
                    List.length rest <= 1)).
    { unfold critical, quiet, view in Hc. fold self in Hc.
      destruct p; try contradiction.
      - destruct Hc as [Hrows Hq]. rewrite Hrows.
        split; [|exists []; rewrite app_nil_r; auto].
        destruct (remaining_keys self) as [rk|]; [right|left]; destruct Hq; eauto.
      - destruct Hc as (_ & _ & -> & ->). split; [auto|exists []; cbn; auto].
      - destruct Hc as (_ & _ & -> & ->). split; [auto|exists []; cbn; auto].
      - destruct Hc as (_ & _ & _ & -> & ->). split; [auto|exists []; cbn; auto].
      - destruct Hc as (_ & Hrk & -> & -> & ->). split.
        + right. eexists. split; [eassumption|]. now exists [].
        + eexists [_]. cbn. auto.
      - destruct Hc as (_ & Hrk & Hsr & ->). split.
        + right. eexists. split; [eassumption|]. rewrite Hsr. now exists [].
        + exists []. rewrite app_nil_r. auto.
      - destruct Hc as (rk & Hrk & _ & Hfz & ->).
        split; [right; eauto|exists []; rewrite app_nil_r; auto].
      - destruct Hc as (rk & Hrk & _ & Hfz & -> & _).
        split; [right; eauto|exists []; rewrite app_nil_r; auto].
      - destruct Hc as (rk & Hrk & _ & Hfz & -> & d & ->). split.
        + right. exists rk. split; [assumption|]. now apply frozen_snoc.
        + eexists [_]. cbn. auto.
      - destruct Hc as (rk & Hrk & _ & Hfz & ->).
        split; [right; eauto|exists []; rewrite app_nil_r; auto].
      - destruct Hc as (rk & Hrk & _ & Hfz & ->).
        split; [right; eauto|exists []; rewrite app_nil_r; auto].
      - destruct Hc as (rk & Hrk & _ & Hfz & ->).
        split; [right; eauto|exists []; rewrite app_nil_r; auto]. }
    destruct Hmain as [Hshape Hlag].
    split; [|split; [assumption|split; [assumption|rewrite Hl; discriminate]]].
    intros Hne. destruct Hshape as [He|(rk & Hrk & _)]; [contradiction|].
    rewrite Hn, Hrk. reflexivity.
Qed.

Lemma run_trans (c c' c'' : config) (tr tr' : list (nat * stmt)) :
  run c tr c' -> run c' tr' c'' -> run c (tr ++ tr') c''.
Proof.
  intros H1 H2. induction H2 as [c'|c' c1 c2 tr' l _ IH Hs].
  - now rewrite app_nil_r.
  - rewrite app_assoc. eapply run_step; [apply IH; assumption|eassumption].
Qed.

(** a thread left alone inside a pool makes a run of the pool *)
Lemma solo_run (fuel : nat) (p : pc) (sh : shared) (before after : list pc) :
  exists tr,
    run (sh, before ++ p :: after) tr
        (snd (solo fuel p sh), before ++ fst (solo fuel p sh) :: after).
Proof.
  revert p sh. induction fuel as [|n IH]; intros p sh; cbn [solo].
  - exists []. constructor.
  - destruct (thread_step p sh) as [[[s p'] sh']|] eqn:Hs.
    + destruct (IH p' sh') as [tr Hrun].
      exists ((List.length before, s) :: tr).
      eapply run_cons; [|exact Hrun]. now constructor.
    + exists []. constructor.
Qed.

(** the callbacks run one after the other are one of the interleavings, and
    it ends in the state [deliver] computes *)
Lemma serial_run (msgs : list MQTTMessage) :
  forall (done : list pc) (self : MQTTToCSV),
  exists tr,
    run ({| object := self; locked := false |}, done ++ map AtTry msgs) tr
        ({| object := exec (deliver msgs) self; locked := false |},
         done ++ map (fun _ => Returned) msgs).
Proof.
  induction msgs as [|m ms IH]; intros done self.
  - exists []. constructor.
  - cbn [map]. rewrite exec_deliver_cons.
    destruct (solo_run 16 (AtTry m) {| object := self; locked := false |}
                done (map AtTry ms)) as [tr1 H1].
    rewrite solo_on_message in H1. cbn [fst snd] in H1.
    destruct (IH (done ++ [Returned]) (exec (on_message m) self)) as [tr2 H2].
    rewrite <- !app_assoc in H2. cbn [app] in H2.
    exists (tr1 ++ tr2). eapply run_trans; eassumption.
Qed.

Open Scope string_scope.

(** the end-to-end scenario of the specification, as the file has it *)
Lemma end_to_end_scenario :
  file_stream (io (exec (on_message scenario_msg) (init no_failure "RX1"))) =
    {| flushed :=
         "timestamp,rx_callsign,tx_callsign,lat,lon" ++ csv_lineterminator
           ++ "2024-01-01T00:00:00Z,RX1,TX1,1.0,2.0" ++ csv_lineterminator;
       buffered := "" |}.
Proof. reflexivity. Qed.

(** ** The theorems at sample inputs *)

Lemma no_failure_reliable : reliable no_failure.
Proof. intros h ev. reflexivity. Qed.

Lemma no_failure_writes_through : writes_through no_failure.
Proof. intros h r. split; reflexivity. Qed.

(** a run of three messages: garbage, the scenario's record, a record with
    another key set *)
Lemma header_schema_from_first_record_witness :
  writes_through no_failure /\
  Forall (fun m => is_record m = false) [short_topic_garbage] /\
  payload scenario_msg = Json (PyDict scenario_record) /\
  stdout_rows
    (io (exec (deliver ([short_topic_garbage] ++ scenario_msg :: [other_msg])%list)
              (init no_failure "RX1")))
  = [ [PyStr "timestamp"; PyStr "rx_callsign"; PyStr "tx_callsign";
       PyStr "lat"; PyStr "lon"];
      [PyStr "2024-01-01T00:00:00Z"; PyStr "RX1"; PyStr "TX1";
       PyFloat "1.0"; PyFloat "2.0"];
      [PyStr ""; PyStr "RX1"; PyStr "TX2"; PyFloat "3.5"; PyStr ""] ].
Proof.
  assert (H1 : Forall (fun m => is_record m = false) [short_topic_garbage])
    by (repeat constructor).
  assert (H2 : payload scenario_msg = Json (PyDict scenario_record))
    by reflexivity.
  split; [exact no_failure_writes_through|]. split; [exact H1|]. split; [exact H2|].
  destruct (header_schema_from_first_record no_failure "RX1"
              [short_topic_garbage] [other_msg] scenario_msg scenario_record
              no_failure_writes_through H1 H2)
    as (_ & _ & _ & _ & _ & Hs & _).
  exact Hs.
Defined.

Lemma row_fixed_columns_witness :
  payload scenario_msg = Json (PyDict scenario_record) /\
  4 <= List.length (split "/" (topic scenario_msg)) /\
  exists data : dict,
    fst (prepare scenario_msg
           (exec (deliver [short_topic_garbage]) (init no_failure "RX1")))
      = inr data /\
    dict_lookup data "tx_callsign" = Some (PyStr "TX1") /\
    dict_lookup data "rx_callsign" = Some (PyStr "RX1").
Proof.
  assert (H1 : payload scenario_msg = Json (PyDict scenario_record))
    by reflexivity.
  assert (H2 : 4 <= List.length (split "/" (topic scenario_msg)))
    by (cbn; lia).
  split; [exact H1|]. split; [exact H2|].
  destruct (row_fixed_columns no_failure "RX1" [short_topic_garbage]
              scenario_msg scenario_record H1 H2)
    as (_ & data & Hd & Htx & Hrx & _).
  exists data. auto.
Defined.

Lemma schema_frozen_witness :
  let self := exec (on_message scenario_msg) (init no_failure "RX1") in
  headers_written self = true /\
  remaining_keys self = Some ["lat"; "lon"] /\
  remaining_keys (exec (deliver [other_msg; array_msg]) self)
    = Some ["lat"; "lon"].
Proof.
  cbv zeta.
  assert (H1 : headers_written
                 (exec (on_message scenario_msg) (init no_failure "RX1")) = true)
    by reflexivity.
  assert (H2 : remaining_keys
                 (exec (on_message scenario_msg) (init no_failure "RX1"))
               = Some ["lat"; "lon"]) by reflexivity.
  split; [exact H1|]. split; [exact H2|].
  destruct (schema_frozen _ _ [other_msg; array_msg] H1 H2) as (_ & Hrk & _).
  exact Hrk.
Defined.


Lemma invalid_json_dropped_witness :
  (forall data, payload short_topic_garbage <> Json data) /\
  stdout_rows (io (exec (on_message short_topic_garbage) (init no_failure "RX1"))) = [] /\
  file_rows (io (exec (on_message short_topic_garbage) (init no_failure "RX1"))) = [].
Proof.
  assert (H : forall data, payload short_topic_garbage <> Json data)
    by (intros data; discriminate).
  split; [exact H|].
  destruct (invalid_json_dropped (init no_failure "RX1") short_topic_garbage H)
    as (_ & _ & _ & Hs & Hf & _).
  split; [exact Hs|exact Hf].
Defined.

Lemma non_object_json_dropped_witness :
  payload array_msg = Json (PyList [PyInt 1]) /\
  (forall d, PyList [PyInt 1] <> PyDict d) /\
  stdout_rows (io (exec (on_message array_msg) (init no_failure "RX1"))) = [] /\
  headers_written (exec (on_message array_msg) (init no_failure "RX1")) = false.
Proof.
  assert (H1 : payload array_msg = Json (PyList [PyInt 1])) by reflexivity.
  assert (H2 : forall d, PyList [PyInt 1] <> PyDict d)
    by (intros d; discriminate).
  split; [exact H1|]. split; [exact H2|].
  destruct (non_object_json_dropped (init no_failure "RX1") array_msg _ H1 H2)
    as (_ & Hw & _ & Hs & _).
  split; [exact Hs|exact Hw].
Defined.

Lemma sender_id_from_topic_witness :
  payload short_topic_msg = Json (PyDict other_record) /\
  fst (on_message short_topic_msg (exec (deliver []) (init no_failure "RX1")))
    = inr tt.
Proof.
  assert (H : payload short_topic_msg = Json (PyDict other_record))
    by reflexivity.
  split; [exact H|].
  exact (proj1 (sender_id_from_topic no_failure "RX1" [] short_topic_msg
                  other_record H)).
Defined.

Lemma structured_cells_json_dumps_witness :
  nth_error ["path"] 0 = Some "path" /\
  (is_list_or_dict (dict_get path_record "path" (PyStr "")) = true ->
   nth 3 (build_row path_record ["path"]) PyNone
     = PyStr (json_dumps (dict_get path_record "path" (PyStr ""))) /\
   csv_field_text (nth 3 (build_row path_record ["path"]) PyNone)
     = json_dumps (dict_get path_record "path" (PyStr ""))).
Proof.
  assert (H : nth_error ["path"] 0 = Some "path") by reflexivity.
  split; [exact H|].
  exact (proj1 (structured_cells_json_dumps path_record ["path"] 0 "path" H)).
Defined.

Lemma sinks_identical_witness :
  let t := io (exec (deliver [scenario_msg; other_msg]) (init no_failure "RX1")) in
  reliable no_failure /\
  stdout_rows t = file_rows t /\
  stdout_stream t = file_stream t.
Proof.
  cbv zeta. split; [exact no_failure_reliable|].
  destruct (sinks_identical no_failure "RX1" [scenario_msg; other_msg]
              no_failure_reliable) as (Hr & Hs & _).
  split; [exact Hr|exact Hs].
Defined.

Lemma lock_guards_schema_and_sinks_witness :
  let c0 := start no_failure "RX1" [scenario_msg; other_msg] in
  let tr := fst (schedule sample_order c0) in
  let c := snd (schedule sample_order c0) in
  run c0 tr c /\
  List.length (filter holds_lock (snd c)) = (if locked (fst c) then 1 else 0) /\
  inferences tr <= 1.
Proof.
  cbv zeta.
  assert (H : run (start no_failure "RX1" [scenario_msg; other_msg])
                  (fst (schedule sample_order
                          (start no_failure "RX1" [scenario_msg; other_msg])))
                  (snd (schedule sample_order
                          (start no_failure "RX1" [scenario_msg; other_msg]))))
    by apply schedule_sound.
  split; [exact H|].
  destruct (lock_guards_schema_and_sinks no_failure "RX1"
              [scenario_msg; other_msg]
              (fst (schedule sample_order
                      (start no_failure "RX1" [scenario_msg; other_msg])))
              (fst (snd (schedule sample_order
                           (start no_failure "RX1" [scenario_msg; other_msg]))))
              (snd (snd (schedule sample_order
                           (start no_failure "RX1" [scenario_msg; other_msg]))))
              H)
    as (Hm & _ & Hrel).
  split; [exact Hm|exact (proj1 (Hrel no_failure_writes_through))].
Defined.

(** * Further properties of the code *)

(** ** Topics: [str.split], the subscription and the sender id *)

Lemma split_not_nil (sep : ascii) (s : string) : split sep s <> [].
Proof.
  destruct s as [|c r]; cbn; [discriminate|].
  destruct (Ascii.eqb c sep); [discriminate|].
  destruct (split sep r); discriminate.
Qed.

Lemma split_no_sep (sep : ascii) (s : string) :
  contains sep s = false -> split sep s = [s].
Proof.
  induction s as [|c r IH]; cbn; [reflexivity|].
  intros H. apply orb_false_iff in H. destruct H as [Hc Hr].
  rewrite Hc, (IH Hr). reflexivity.
Qed.

Lemma split_app_sep (sep : ascii) (a b : string) :
  split sep (a ++ String sep b) = (split sep a ++ split sep b)%list.
Proof.
  induction a as [|c r IH]; cbn.
  - now rewrite Ascii.eqb_refl.
  - destruct (Ascii.eqb c sep); [now rewrite IH|].
    rewrite IH. pose proof (split_not_nil sep r) as Hne.
    destruct (split sep r); [contradiction|reflexivity].
Qed.

Lemma split_length (sep : ascii) (s : string) :
  List.length (split sep s) = S (count_char sep s).
Proof.
  induction s as [|c r IH]; cbn; [reflexivity|].
  destruct (Ascii.eqb c sep); cbn; [now rewrite IH|].
  destruct (split sep r); cbn in *; [discriminate|assumption].
Qed.

Lemma split_parts_no_sep (sep : ascii) (s : string) :
  Forall (fun p => contains sep p = false) (split sep s).
Proof.
  induction s as [|c r IH]; cbn.
  - repeat constructor.
  - destruct (Ascii.eqb c sep) eqn:E.
    + constructor; [reflexivity|assumption].
    + destruct (split sep r) as [|p ps]; [repeat constructor; cbn; now rewrite E|].
      inversion IH as [|? ? Hp Hps]; subst.
      constructor; [cbn; now rewrite E|assumption].
Qed.

Lemma join_split (sep : ascii) (s : string) :
  join (str1 sep) (split sep s) = s.
Proof.
  induction s as [|c r IH]; cbn; [reflexivity|].
  destruct (Ascii.eqb c sep) eqn:E.
  - apply Ascii.eqb_eq in E. subst c.
    pose proof (split_not_nil sep r) as Hne.
    destruct (split sep r) as [|p ps]; [contradiction|].
    change (join (str1 sep) ("" :: p :: ps))
      with ("" ++ str1 sep ++ join (str1 sep) (p :: ps)).
    now rewrite IH.
  - destruct (split sep r) as [|p ps]; [now subst r|].
    destruct ps as [|q qs]; [cbn in *; now subst r|].
    change (join (str1 sep) (String c p :: q :: qs))
      with (String c (p ++ str1 sep ++ join (str1 sep) (q :: qs))).
    f_equal. exact IH.
Qed.

(** X1. Splitting a topic on the slash loses nothing: the parts contain no
    slash, there is one more of them than there are slashes (so never none),
    and joining them with slashes gives the topic back. *)
Theorem topic_split_round_trip :
  forall topic : string,
    join "/" (split "/" topic) = topic /\
    Forall (fun part => contains "/" part = false) (split "/" topic) /\
    List.length (split "/" topic) = S (count_char "/" topic).
Proof.
  intros topic. split; [apply (join_split "/")|].
  split; [apply split_parts_no_sep|apply split_length].
Qed.

Lemma published_topic_split (b : broker) (self : MQTTToCSV) (tx : string) :
  contains "/" (callsign self) = false ->
  contains "/" tx = false ->
  split "/" (published_topic b self tx)
    = (split "/" (base_topic b) ++ [callsign self; tx; "json_message"])%list.
Proof.
  intros Hrx Htx. unfold published_topic.
  change ("/" ++ callsign self ++ "/" ++ tx ++ "/json_message")
    with (String "/" (callsign self ++ String "/" (tx ++ String "/" "json_message"))).
  rewrite !split_app_sep, (split_no_sep "/" _ Hrx), (split_no_sep "/" _ Htx).
  reflexivity.
Qed.

Lemma subscribe_topic_split (b : broker) (self : MQTTToCSV) :
  contains "/" (callsign self) = false ->
  split "/" (subscribe_topic b self)
    = (split "/" (base_topic b) ++ [callsign self; "+"; "json_message"])%list.
Proof.
  intros Hrx. unfold subscribe_topic.
  change ("/" ++ callsign self ++ "/+/json_message")
    with (String "/" (callsign self ++ String "/" "+/json_message")).
  rewrite !split_app_sep, (split_no_sep "/" _ Hrx). reflexivity.
Qed.

Lemma contains_count (c : ascii) (s : string) :
  contains c s = true -> 1 <= count_char c s.
Proof.
  induction s as [|a r IH]; cbn; [discriminate|].
  destruct (Ascii.eqb a c); cbn; [lia|exact IH].
Qed.

(** X2. With a base topic, a receiver callsign and a sender id that hold no
    slash, a message published on the topic the subscription of
    [on_connect] stands for has exactly the four segments base, receiver,
    sender, suffix, the sender sitting where the subscription has its
    wildcard; [on_message] takes the sender id from it and has no warning
    to print; and, with sinks none of whose calls raises, it prints nothing
    and writes the sender id in the third column of the row. *)
Theorem subscribed_topic_gives_sender :
  forall (sinks : sink_behaviour) (b : broker) (rx tx : string)
         (earlier : list MQTTMessage) (msg : MQTTMessage) (d : dict),
    contains "/" (base_topic b) = false ->
    contains "/" rx = false ->
    contains "/" tx = false ->
    let self := exec (deliver earlier) (init sinks rx) in
    topic msg = published_topic b self tx ->
    payload msg = Json (PyDict d) ->
    let self' := exec (on_message msg) self in
    subscribed (on_connect b self 0) = [subscribe_topic b self] /\
    split "/" (subscribe_topic b self) = [base_topic b; rx; "+"; "json_message"] /\
    split "/" (topic msg) = [base_topic b; rx; tx; "json_message"] /\
    topic_warning msg = [] /\
    fst (prepare msg self) = inr (injected rx msg d) /\
    dict_lookup (injected rx msg d) "tx_callsign" = Some (PyStr tx) /\
    (reliable sinks ->
     stderr_lines (io self') = stderr_lines (io self) /\
     exists (header : list row) (r rest : row),
       stdout_rows (io self') = (stdout_rows (io self) ++ header ++ [r])%list /\
       file_rows (io self') = (file_rows (io self) ++ header ++ [r])%list /\
       r = dict_get d "timestamp" (PyStr "") :: PyStr rx :: PyStr tx :: rest).
Proof.
  intros sinks b rx tx earlier msg d Hb Hrx Htx self Ht Hd self'.
  destruct (reachable_schema_ok sinks rx earlier) as (Hc & Hk & Hok).
  fold self in Hc, Hk, Hok.
  assert (Hsub : split "/" (subscribe_topic b self)
                 = [base_topic b; rx; "+"; "json_message"]).
  { rewrite subscribe_topic_split by now rewrite Hc.
    now rewrite (split_no_sep "/" _ Hb), Hc. }
  assert (Htop : split "/" (topic msg) = [base_topic b; rx; tx; "json_message"]).
  { rewrite Ht, published_topic_split by (rewrite ?Hc; assumption).
    now rewrite (split_no_sep "/" _ Hb), Hc. }
  assert (Htx' : tx_callsign_of msg = tx)
    by (unfold tx_callsign_of; now rewrite Htop).
  assert (Hw : topic_warning msg = [])
    by (unfold topic_warning; now rewrite Htop).
  split; [reflexivity|]. split; [exact Hsub|]. split; [exact Htop|].
  split; [exact Hw|].
  split; [now rewrite (prepare_record msg d self Hd), Hc|].
  split; [now rewrite injected_tx, Htx'|].
  intros Hrel. rewrite <- Hk in Hrel.
  destruct (on_message_record msg d self Hrel Hok Hd)
    as (header & rk & _ & _ & Hs & Hf & He).
  fold self' in Hs, Hf, He. rewrite Hc in Hs, Hf.
  destruct (build_row_fixed rx msg d rk) as [rest Hrow].
  rewrite Hw in He. cbn in He. rewrite app_nil_r in He.
  split; [exact He|].
  exists header, (build_row (injected rx msg d) rk), rest.
  rewrite Htx' in Hrow. auto.
Qed.

Lemma nth_2_third_or_next (l : list string) (x : string) (more : list string) :
  2 <= List.length l ->
  nth 2 (l ++ x :: more)%list "" = nth 2 (l ++ [x])%list "".
Proof.
  destruct l as [|a [|b [|c l]]]; cbn; intros H; try lia; reflexivity.
Qed.

(** X3. A base topic that holds a slash shifts the segments: the message
    still has at least four of them and there is no warning to print, but
    segment 2 is then a level of the base topic or, when the base topic has
    one slash, the receiver callsign itself; the sender id [on_message]
    takes, and with sinks none of whose calls raises writes in the third
    column, does not depend on the sender. *)
Theorem base_topic_with_slash_hides_sender :
  forall (sinks : sink_behaviour) (b : broker) (rx tx : string)
         (earlier : list MQTTMessage) (msg : MQTTMessage) (d : dict),
    contains "/" (base_topic b) = true ->
    contains "/" rx = false ->
    contains "/" tx = false ->
    let self := exec (deliver earlier) (init sinks rx) in
    topic msg = published_topic b self tx ->
    payload msg = Json (PyDict d) ->
    let self' := exec (on_message msg) self in
    let sender := nth 2 (split "/" (base_topic b) ++ [rx])%list "" in
    5 <= List.length (split "/" (topic msg)) /\
    topic_warning msg = [] /\
    fst (prepare msg self) = inr (injected rx msg d) /\
    dict_lookup (injected rx msg d) "tx_callsign" = Some (PyStr sender) /\
    (List.length (split "/" (base_topic b)) = 2 -> sender = rx) /\
    (reliable sinks ->
     stderr_lines (io self') = stderr_lines (io self) /\
     exists (header : list row) (r rest : row),
       stdout_rows (io self') = (stdout_rows (io self) ++ header ++ [r])%list /\
       file_rows (io self') = (file_rows (io self) ++ header ++ [r])%list /\
       r = dict_get d "timestamp" (PyStr "") :: PyStr rx :: PyStr sender :: rest).
Proof.
  intros sinks b rx tx earlier msg d Hb Hrx Htx self Ht Hd self' sender.
  destruct (reachable_schema_ok sinks rx earlier) as (Hc & Hk & Hok).
  fold self in Hc, Hk, Hok.
  assert (Htop : split "/" (topic msg)
                 = (split "/" (base_topic b) ++ [rx; tx; "json_message"])%list).
  { rewrite Ht, published_topic_split by (rewrite ?Hc; assumption).
    now rewrite Hc. }
  assert (Hlen : 2 <= List.length (split "/" (base_topic b))).
  { rewrite split_length. pose proof (contains_count _ _ Hb). lia. }
  assert (Hlen' : 5 <= List.length (split "/" (topic msg))).
  { rewrite Htop, length_app. cbn. lia. }
  assert (Hleb : Nat.leb 4 (List.length (split "/" (topic msg))) = true)
    by (apply Nat.leb_le; lia).
  assert (Htx' : tx_callsign_of msg = sender).
  { unfold tx_callsign_of. rewrite Hleb, Htop.
    now apply nth_2_third_or_next. }
  assert (Hw : topic_warning msg = [])
    by (unfold topic_warning; now rewrite Hleb).
  split; [exact Hlen'|]. split; [exact Hw|].
  split; [now rewrite (prepare_record msg d self Hd), Hc|].
  split; [now rewrite injected_tx, Htx'|].
  split.
  - intros H2. subst sender.
    destruct (split "/" (base_topic b)) as [|x [|y [|z l]]]; try discriminate.
    reflexivity.
  - intros Hrel. rewrite <- Hk in Hrel.
    destruct (on_message_record msg d self Hrel Hok Hd)
      as (header & rk & _ & _ & Hs & Hf & He).
    fold self' in Hs, Hf, He. rewrite Hc in Hs, Hf.
    destruct (build_row_fixed rx msg d rk) as [rest Hrow].
    rewrite Hw in He. cbn in He. rewrite app_nil_r in He.
    split; [exact He|].
    exists header, (build_row (injected rx msg d) rk), rest.
    rewrite Htx' in Hrow. auto.
Qed.

(** ** Whole runs: what each message contributes *)

Lemma filter_rejected (pre : list MQTTMessage) :
  Forall (fun m => is_record m = false) pre -> filter is_record pre = [].
Proof.
  induction 1 as [|m pre Hm _ IH]; cbn; [reflexivity|]. now rewrite Hm.
Qed.

Lemma data_rows_filter (rx : string) (rk : list string)
    (msgs : list MQTTMessage) :
  data_rows rx rk (filter is_record msgs) = data_rows rx rk msgs.
Proof.
  unfold data_rows. induction msgs as [|m ms IH]; cbn [filter flat_map];
    [reflexivity|].
  unfold is_record at 1.
  destruct (payload m) as [e|e|e|[]] eqn:Hp; cbn [flat_map app]; rewrite ?Hp;
    try exact IH.
  now rewrite IH.
Qed.

Lemma data_rows_count (rx : string) (rk : list string)
    (msgs : list MQTTMessage) :
  List.length (data_rows rx rk msgs) = List.length (filter is_record msgs).
Proof.
  unfold data_rows. induction msgs as [|m ms IH]; cbn [filter flat_map];
    [reflexivity|].
  unfold is_record at 1.
  destruct (payload m) as [e|e|e|[]]; cbn [app List.length]; rewrite ?IH;
    reflexivity.
Qed.

Lemma stdout_rows_sink_events (t : list event) :
  stdout_rows (sink_events t) = stdout_rows t.
Proof.
  unfold stdout_rows, file_rows, sink_events.
  induction t as [|ev t IH]; [reflexivity|].
  destruct ev; cbn [filter flat_map app]; rewrite ?IH; reflexivity.
Qed.

Lemma file_rows_sink_events (t : list event) :
  file_rows (sink_events t) = file_rows t.
Proof.
  unfold stdout_rows, file_rows, sink_events.
  induction t as [|ev t IH]; [reflexivity|].
  destruct ev; cbn [filter flat_map app]; rewrite ?IH; reflexivity.
Qed.

(** A record's call does to two objects the same, when they agree on
    everything but what was printed to standard error. *)
Lemma on_message_record_agree (msg : MQTTMessage) (d : dict)
    (a b : MQTTToCSV) :
  payload msg = Json (PyDict d) ->
  callsign a = callsign b ->
  sinks a = sinks b ->
  headers_written a = headers_written b ->
  remaining_keys a = remaining_keys b ->
  sink_events (io a) = sink_events (io b) ->
  let a' := exec (on_message msg) a in
  let b' := exec (on_message msg) b in
  callsign a' = callsign b' /\
  sinks a' = sinks b' /\
  headers_written a' = headers_written b' /\
  remaining_keys a' = remaining_keys b' /\
  sink_events (io a') = sink_events (io b').
Proof.
  intros Hd Hc Hk Hw Hrk Hio. cbn zeta. unfold exec.
  assert (Hio' : sink_events (io a ++ topic_warning msg)
                 = sink_events (io b ++ topic_warning msg))
    by now rewrite !sink_events_app, Hio.
  destruct (headers_written b) eqn:Hwb.
  - destruct (remaining_keys b) as [rk|] eqn:Hrkb.
    + rewrite (on_message_later_any msg d a rk Hd Hw Hrk),
        (on_message_later_any msg d b rk Hd Hwb Hrkb).
      cbn [snd add_io callsign sinks headers_written remaining_keys io].
      rewrite Hc, Hk, (perform_sink_events _ _ _ _ Hio').
      rewrite !sink_events_app, Hio, Hw, Hwb, Hrk, Hrkb. auto.
    + destruct (on_message_no_schema msg d a Hd Hw Hrk) as [e ->].
      destruct (on_message_no_schema msg d b Hd Hwb Hrkb) as [e' ->].
      cbn [snd add_io callsign sinks headers_written remaining_keys io].
      rewrite !sink_events_app, !sink_events_handler, Hio, Hw, Hwb, Hrk, Hrkb.
      auto.
  - rewrite (on_message_first_any msg d a Hd Hw),
      (on_message_first_any msg d b Hd Hwb).
    cbn [snd callsign sinks headers_written remaining_keys io].
    rewrite Hc, Hk, (perform_sink_events _ _ _ _ Hio').
    rewrite !sink_events_app, Hio. auto.
Qed.

(** the run over all the messages and the run over the records among them
    agree on everything but what was printed to standard error *)
Lemma deliver_records_agree (msgs : list MQTTMessage) (a b : MQTTToCSV) :
  callsign a = callsign b ->
  sinks a = sinks b ->
  headers_written a = headers_written b ->
  remaining_keys a = remaining_keys b ->
  sink_events (io a) = sink_events (io b) ->
  let a' := exec (deliver msgs) a in
  let b' := exec (deliver (filter is_record msgs)) b in
  headers_written a' = headers_written b' /\
  remaining_keys a' = remaining_keys b' /\
  sink_events (io a') = sink_events (io b').
Proof.
  revert a b. induction msgs as [|m ms IH]; intros a b Hc Hk Hw Hrk Hio;
    cbn zeta; cbn [filter].
  - unfold exec. cbn. auto.
  - rewrite exec_deliver_cons.
    destruct (record_or_rejected m) as [[d Hd]|Hr].
    + assert (Hrec : is_record m = true) by (unfold is_record; now rewrite Hd).
      rewrite Hrec, exec_deliver_cons.
      destruct (on_message_record_agree m d a b Hd Hc Hk Hw Hrk Hio)
        as (Hc' & Hk' & Hw' & Hrk' & Hio').
      now apply IH.
    + rewrite Hr. apply IH; unfold exec;
        rewrite (on_message_rejected m a Hr);
        cbn [snd add_io callsign sinks headers_written remaining_keys io];
        try assumption.
      now rewrite sink_events_app, sink_events_rejection, app_nil_r.
Qed.

(** X4. Messages that are not JSON objects leave no trace in the data: a
    run writes the same rows to both sinks, and ends with the same header
    state, as the run over its JSON-object messages alone, whatever the
    sinks do. *)
Theorem rejected_messages_leave_no_trace :
  forall (sinks : sink_behaviour) (rx : string) (msgs : list MQTTMessage),
    let full := exec (deliver msgs) (init sinks rx) in
    let kept := exec (deliver (filter is_record msgs)) (init sinks rx) in
    stdout_rows (io full) = stdout_rows (io kept) /\
    file_rows (io full) = file_rows (io kept) /\
    headers_written full = headers_written kept /\
    remaining_keys full = remaining_keys kept.
Proof.
  intros sinks rx msgs full kept. subst full kept.
  destruct (deliver_records_agree msgs (init sinks rx) (init sinks rx)
              eq_refl eq_refl eq_refl eq_refl eq_refl) as (Hw & Hrk & Hio).
  cbn zeta in Hw, Hrk, Hio.
  rewrite <- (stdout_rows_sink_events (io (exec (deliver msgs) _))),
    <- (file_rows_sink_events (io (exec (deliver msgs) _))), Hio,
    stdout_rows_sink_events, file_rows_sink_events.
  auto.
Qed.

(** X5. With sinks whose [writerow] never raises, a run writes one data row
    per JSON-object message and, before the first of them, one header row:
    with no such message both sinks stay empty, with [n] of them both hold
    [n + 1] rows. *)
Theorem one_row_per_record :
  forall (sinks : sink_behaviour) (rx : string) (msgs : list MQTTMessage),
    writes_through sinks ->
    let final := exec (deliver msgs) (init sinks rx) in
    let n := List.length (filter is_record msgs) in
    List.length (stdout_rows (io final)) = (if Nat.eqb n 0 then 0 else S n) /\
    List.length (file_rows (io final)) = (if Nat.eqb n 0 then 0 else S n).
Proof.
  intros sinks rx msgs Hrel final n. subst final n.
  destruct (first_record msgs) as [Hall|(pre & msg & d & post & -> & Hpre & Hd)].
  - rewrite (filter_rejected msgs Hall), (deliver_rejected msgs _ Hall).
    destruct (rows_of_rejections msgs) as [Hr1 Hr2].
    cbn [add_io init io app]. rewrite Hr1, Hr2. split; reflexivity.
  - rewrite filter_app, (filter_rejected pre Hpre). cbn [filter app].
    assert (Hrec : is_record msg = true) by (unfold is_record; now rewrite Hd).
    rewrite Hrec.
    destruct (deliver_from_first sinks rx pre post msg d Hrel Hpre Hd)
      as (_ & _ & _ & Hs & Hf).
    rewrite Hs, Hf. cbn [List.length Nat.eqb]. rewrite data_rows_count.
    split; reflexivity.
Qed.

Lemma deliver_io_first (sinks : sink_behaviour) (rx : string)
    (pre post : list MQTTMessage) (msg : MQTTMessage) (d : dict) :
  reliable sinks ->
  Forall (fun m => is_record m = false) pre ->
  payload msg = Json (PyDict d) ->
  let data := injected rx msg d in
  let rk := compute_remaining_keys data in
  io (exec (deliver (pre ++ msg :: post)) (init sinks rx))
    = (flat_map rejection pre ++ topic_warning msg ++ header_events rk
         ++ row_events (build_row data rk) ++ later_events rx rk post)%list.
Proof.
  intros Hrel Hpre Hd data rk.
  rewrite exec_deliver_app, (deliver_rejected pre _ Hpre), exec_deliver_cons.
  unfold exec at 2.
  rewrite (on_message_first msg d (add_io (init sinks rx) (flat_map rejection pre))
             Hrel Hd eq_refl). cbn [snd].
  erewrite deliver_frozen_io by (exact Hrel || reflexivity).
  cbn [add_io io callsign init app]. rewrite <- !app_assoc. reflexivity.
Qed.

Lemma stderr_of_rejections (msgs : list MQTTMessage) :
  Forall (fun m => is_record m = false) msgs ->
  stderr_lines (flat_map rejection msgs) = flat_map diagnostics_of msgs.
Proof.
  induction 1 as [|m ms Hm _ IH]; cbn [flat_map]; [reflexivity|].
  rewrite stderr_lines_app, IH. unfold diagnostics_of. now rewrite Hm.
Qed.

Lemma stderr_of_later_events (rx : string) (rk : list string)
    (msgs : list MQTTMessage) :
  stderr_lines (later_events rx rk msgs) = flat_map diagnostics_of msgs.
Proof.
  unfold later_events. induction msgs as [|m ms IH]; cbn [flat_map];
    [reflexivity|].
  rewrite stderr_lines_app, IH. f_equal.
  unfold diagnostics_of, is_record.
  destruct (payload m) as [e|e|e|[]]; try reflexivity.
  rewrite stderr_lines_app. cbn. now rewrite app_nil_r.
Qed.

(** X6. With sinks none of whose calls raises, standard error receives, in
    order of arrival, what each message prints by itself and nothing else:
    nothing for a JSON object on a topic of four segments or more, the
    warning for one on a shorter topic, one error for a payload that is not
    JSON, and for JSON that is no object the warning (if the topic is
    short) followed by one error.  No diagnostic depends on the messages
    before it. *)
Theorem diagnostics_per_message :
  forall (sinks : sink_behaviour) (rx : string) (msgs : list MQTTMessage),
    reliable sinks ->
    stderr_lines (io (exec (deliver msgs) (init sinks rx)))
      = flat_map diagnostics_of msgs /\
    (forall msg,
        List.length (diagnostics_of msg) <= 2 /\
        (is_record msg = true ->
         4 <= List.length (split "/" (topic msg)) ->
         diagnostics_of msg = []) /\
        (is_record msg = true ->
         List.length (split "/" (topic msg)) < 4 ->
         diagnostics_of msg = [UnexpectedTopicFormat (topic msg)]) /\
        (forall e, payload msg = NotJson e ->
                   diagnostics_of msg = [FailedToDecodeJSON e])).
Proof.
  intros sinks rx msgs Hrel. split.
  - destruct (first_record msgs)
      as [Hall|(pre & msg & d & post & -> & Hpre & Hd)].
    + rewrite (deliver_rejected msgs _ Hall). cbn [add_io init io app].
      now apply stderr_of_rejections.
    + rewrite (deliver_io_first sinks rx pre post msg d Hrel Hpre Hd).
      rewrite !stderr_lines_app, (stderr_of_rejections pre Hpre),
        stderr_of_later_events, flat_map_app.
      cbn [flat_map]. f_equal. f_equal.
      unfold diagnostics_of, is_record. rewrite Hd. cbn. reflexivity.
  - intros msg. unfold diagnostics_of, is_record, rejection, topic_warning.
    repeat split.
    + destruct (payload msg) as [e|e|e|[]];
        destruct (Nat.leb 4 (List.length (split "/" (topic msg))));
        cbn; lia.
    + intros Hr Hlen. apply Nat.leb_le in Hlen.
      destruct (payload msg) as [e|e|e|[]]; try discriminate.
      now rewrite Hlen.
    + intros Hr Hlen. apply Nat.leb_gt in Hlen.
      destruct (payload msg) as [e|e|e|[]]; try discriminate.
      now rewrite Hlen.
    + intros e He. now rewrite He.
Qed.

(** ** The layout of header and rows *)

Lemma cell_scalar (data : dict) (key : string) :
  is_list_or_dict (cell data key) = false.
Proof.
  unfold cell. destruct (is_list_or_dict (dict_get data key (PyStr ""))) eqn:E;
    [reflexivity|exact E].
Qed.

Lemma build_row_scalar (rx : string) (msg : MQTTMessage) (d : dict)
    (rk : list string) (i : nat) (c : pyval) :
  1 <= i ->
  nth_error (build_row (injected rx msg d) rk) i = Some c ->
  is_list_or_dict c = false.
Proof.
  intros Hi Hc. unfold build_row, dict_get in Hc.
  rewrite injected_tx, injected_rx in Hc.
  destruct i as [|[|[|i]]]; [lia| | |]; cbn in Hc.
  - now injection Hc as <-.
  - now injection Hc as <-.
  - rewrite nth_error_map in Hc.
    destruct (nth_error rk i) as [k|]; [|discriminate].
    injection Hc as <-. apply cell_scalar.
Qed.

Lemma header_cells_scalar (hs : list string) (i : nat) (c : pyval) :
  nth_error (map PyStr hs) i = Some c -> is_list_or_dict c = false.
Proof.
  rewrite nth_error_map. destruct (nth_error hs i); [|discriminate].
  now intros [= <-].
Qed.

Lemma data_rows_scalar (rx : string) (rk : list string)
    (msgs : list MQTTMessage) (r : row) (i : nat) (c : pyval) :
  In r (data_rows rx rk msgs) ->
  1 <= i -> nth_error r i = Some c -> is_list_or_dict c = false.
Proof.
  unfold data_rows. rewrite in_flat_map. intros (m & _ & Hin).
  destruct (payload m) as [e|e|e|[]]; try contradiction.
  destruct Hin as [<-|[]]. apply build_row_scalar.
Qed.

(** the rows among the calls that went through are among those of the
    calls attempted *)
Lemma perform_rows (s : sink_behaviour) (t calls : list event) (r : row) :
  In r (stdout_rows (fst (perform s t calls)))
    \/ In r (file_rows (fst (perform s t calls))) ->
  In r (stdout_rows calls) \/ In r (file_rows calls).
Proof.
  destruct (perform_prefix s t calls) as (rest & Heq & _).
  intros H. rewrite Heq, stdout_rows_app, file_rows_app, !in_app_iff. tauto.
Qed.

(** Whatever the sinks do, a row a call adds to a sink is a header row or
    the row of a record. *)
Lemma on_message_rows_shape (msg : MQTTMessage) (self : MQTTToCSV) (r : row) :
  let self' := exec (on_message msg) self in
  In r (stdout_rows (io self')) \/ In r (file_rows (io self')) ->
  (In r (stdout_rows (io self)) \/ In r (file_rows (io self))) \/
  (exists hs, r = map PyStr hs) \/
  (exists m d rk, r = build_row (injected (callsign self) m d) rk).
Proof.
  cbn zeta. unfold exec.
  destruct (record_or_rejected msg) as [[d Hd]|Hr].
  - destruct (headers_written self) eqn:Hw.
    + destruct (remaining_keys self) as [rk|] eqn:Hrk.
      * rewrite (on_message_later_any msg d self rk Hd Hw Hrk).
        cbn [snd add_io io].
        match goal with
        | |- context [fst (perform ?s ?t ?calls)] =>
            pose proof (perform_rows s t calls r) as Hp;
            set (done := fst (perform s t calls)) in *
        end.
        autorewrite with rows. rewrite !in_app_iff. cbn [In]. intros H.
        assert (Hold : (In r (stdout_rows (io self)) \/ In r (file_rows (io self)))
                       \/ In r (stdout_rows done) \/ In r (file_rows done))
          by tauto.
        destruct Hold as [Hold|Hnew]; [tauto|].
        destruct (Hp Hnew) as [H'|H'];
          unfold row_events, header_events, stdout_rows, file_rows in H';
          cbn [flat_map app In] in H'; destruct H' as [<-|[]];
          right; right; eauto.
      * destruct (on_message_no_schema msg d self Hd Hw Hrk) as [e ->].
        cbn [snd add_io io]. autorewrite with rows. tauto.
    + rewrite (on_message_first_any msg d self Hd Hw).
      cbn [snd io].
      match goal with
      | |- context [fst (perform ?s ?t ?calls)] =>
          pose proof (perform_rows s t calls r) as Hp;
          set (done := fst (perform s t calls)) in *
      end.
      autorewrite with rows. rewrite !in_app_iff. cbn [In]. intros H.
      assert (Hold : (In r (stdout_rows (io self)) \/ In r (file_rows (io self)))
                     \/ In r (stdout_rows done) \/ In r (file_rows done))
        by tauto.
      destruct Hold as [Hold|Hnew]; [tauto|].
      destruct (Hp Hnew) as [H'|H'];
          unfold row_events, header_events, stdout_rows, file_rows in H';
          cbn [flat_map app In] in H'; destruct H' as [<-|[<-|[]]];
        right; eauto.
  - rewrite (on_message_rejected msg self Hr).
    cbn [snd add_io io]. autorewrite with rows. tauto.
Qed.

Lemma deliver_rows_shape (msgs : list MQTTMessage) (self : MQTTToCSV) (r : row) :
  let self' := exec (deliver msgs) self in
  In r (stdout_rows (io self')) \/ In r (file_rows (io self')) ->
  (In r (stdout_rows (io self)) \/ In r (file_rows (io self))) \/
  (exists hs, r = map PyStr hs) \/
  (exists m d rk, r = build_row (injected (callsign self) m d) rk).
Proof.
  revert self. induction msgs as [|m ms IH]; intros self; cbn zeta.
  - unfold exec. cbn. tauto.
  - rewrite exec_deliver_cons. intros H.
    destruct (IH _ H) as [H'|[H'|H']].
    + exact (on_message_rows_shape m self r H').
    + tauto.
    + destruct (on_message_keeps m self) as (Hc & _).
      rewrite Hc in H'. tauto.
Qed.

(** X7. In the rows of a run, a Python list or dict can only ever sit in
    the first column: the second and third columns are the two callsign
    strings and every later column went through the conversion of lines
    113-114.  Only [timestamp] is written without it. *)
Theorem only_timestamp_can_be_structured :
  forall (sinks : sink_behaviour) (rx : string) (msgs : list MQTTMessage)
         (r : row) (i : nat) (c : pyval),
    let final := exec (deliver msgs) (init sinks rx) in
    In r (stdout_rows (io final)) \/ In r (file_rows (io final)) ->
    1 <= i ->
    nth_error r i = Some c ->
    is_list_or_dict c = false.
Proof.
  intros sinks rx msgs r i c final Hin Hi Hc. subst final.
  destruct (deliver_rows_shape msgs (init sinks rx) r Hin)
    as [[[]|[]]|[[hs ->]|(m & d & rk & ->)]].
  - eapply header_cells_scalar; eassumption.
  - eapply build_row_scalar; eassumption.
Qed.

Lemma fixed_not_remaining (data : dict) (k : string) :
  In k fixed_headers -> ~ In k (compute_remaining_keys data).
Proof.
  intros Hk Hin. unfold compute_remaining_keys in Hin.
  apply filter_In in Hin. destruct Hin as [_ Hn].
  assert (Hs : str_in k fixed_headers = true).
  { unfold str_in. apply existsb_exists. exists k.
    split; [assumption|apply String.eqb_refl]. }
  rewrite Hs in Hn. discriminate.
Qed.

Lemma str_in_false (k : string) (l : list string) :
  str_in k l = false -> ~ In k l.
Proof.
  unfold str_in. intros H Hin.
  assert (Ht : existsb (String.eqb k) l = true).
  { apply existsb_exists. exists k. split; [assumption|apply String.eqb_refl]. }
  rewrite Ht in H. discriminate.
Qed.

Lemma str_in_true (k : string) (l : list string) :
  str_in k l = true -> In k l.
Proof.
  unfold str_in. intros H. apply existsb_exists in H.
  destruct H as (x & Hx & He). apply String.eqb_eq in He. now subst x.
Qed.

Lemma dict_keys_injected (rx : string) (msg : MQTTMessage) (d : dict)
    (k : string) :
  In k (dict_keys (injected rx msg d)) <->
  In k (dict_keys d) \/ k = "tx_callsign" \/ k = "rx_callsign".
Proof.
  assert (Hset : forall (d0 : dict) (k0 : string) (v : pyval),
             In k (dict_keys (dict_setitem d0 k0 v)) <->
             In k (dict_keys d0) \/ k = k0).
  { intros d0 k0 v.
    destruct (in_dec string_dec k0 (dict_keys d0)) as [Hin|Hnin].
    - rewrite dict_keys_setitem_present by assumption.
      split; [auto|]. intros [H| ->]; assumption.
    - rewrite dict_keys_setitem_absent by assumption.
      rewrite in_app_iff. cbn. split.
      + intros [H|[H|[]]]; auto.
      + intros [H|H]; auto. }
  unfold injected. rewrite !Hset. tauto.
Qed.

(** X8. The header names its columns without repetition and leaves no
    key out: when the first JSON object of a run has distinct keys (as a
    decoded JSON object has), the columns lines 93-96 compute from it are
    pairwise distinct, and a name is among them exactly when it is
    [timestamp] or a key of that object after the two callsigns are put in;
    with sinks whose [writerow] never raises, these columns are the first
    row of both sinks. *)
Theorem header_columns_distinct_and_complete :
  forall (sinks : sink_behaviour) (rx : string) (pre post : list MQTTMessage)
         (msg : MQTTMessage) (d : dict),
    Forall (fun m => is_record m = false) pre ->
    payload msg = Json (PyDict d) ->
    NoDup (dict_keys d) ->
    let final := exec (deliver (pre ++ msg :: post)) (init sinks rx) in
    let columns :=
      (fixed_headers ++ compute_remaining_keys (injected rx msg d))%list in
    NoDup columns /\
    (forall k, In k columns <->
               k = "timestamp" \/ In k (dict_keys (injected rx msg d))) /\
    (writes_through sinks ->
     hd_error (stdout_rows (io final)) = Some (map PyStr columns) /\
     hd_error (file_rows (io final)) = Some (map PyStr columns)).
Proof.
  intros sinks rx pre post msg d Hpre Hd Hnd final columns. subst columns.
  split; [|split].
  - apply NoDup_app.
    + unfold fixed_headers. repeat constructor; cbn; intuition discriminate.
    + rewrite remaining_keys_injected. unfold compute_remaining_keys.
      now apply NoDup_filter.
    + intros k. apply fixed_not_remaining.
  - intros k. rewrite in_app_iff. unfold compute_remaining_keys.
    rewrite filter_In. split.
    + intros [Hfix|[Hin _]]; [|now right].
      cbn in Hfix. destruct Hfix as [<-|[<-|[<-|[]]]]; [now left| |];
        right; apply dict_keys_injected; auto.
    + intros Hk.
      destruct (str_in k fixed_headers) eqn:E.
      * left. now apply str_in_true.
      * right. split; [|reflexivity].
        destruct Hk as [->|Hk]; [discriminate E|assumption].
  - intros Hrel.
    destruct (deliver_from_first sinks rx pre post msg d Hrel Hpre Hd)
      as (_ & _ & _ & Hs & Hf).
    fold final in Hs, Hf. rewrite Hs, Hf. split; reflexivity.
Qed.

Lemma dict_setitem_NoDup (d : dict) (k : string) (v : pyval) :
  NoDup (dict_keys d) -> NoDup (dict_keys (dict_setitem d k v)).
Proof.
  intros Hnd. destruct (in_dec string_dec k (dict_keys d)) as [Hin|Hnin].
  - now rewrite dict_keys_setitem_present.
  - rewrite dict_keys_setitem_absent by assumption.
    apply NoDup_app; [assumption|repeat constructor; intros []|].
    intros a Ha [<-|[]]. contradiction.
Qed.

Lemma dict_setitem_length (d : dict) (k : string) (v : pyval) :
  List.length (dict_setitem d k v)
    = if in_dec string_dec k (dict_keys d) then List.length d
      else S (List.length d).
Proof.
  pose proof (length_map fst (dict_setitem d k v)) as H.
  fold (dict_keys (dict_setitem d k v)) in H. rewrite <- H.
  destruct (in_dec string_dec k (dict_keys d)) as [Hin|Hnin].
  - rewrite dict_keys_setitem_present by assumption. apply length_map.
  - rewrite dict_keys_setitem_absent by assumption.
    rewrite length_app. unfold dict_keys. rewrite length_map. cbn. lia.
Qed.

(** X15. Putting the two callsigns into the record (lines 85 and 88)
    neither adds nor moves a column after the fixed three: the remaining
    keys are the payload's own keys other than the three fixed names, in
    the payload's order, whether or not the payload already had
    [tx_callsign] or [rx_callsign], and wherever it had them. *)
Theorem callsign_injection_keeps_columns :
  forall (rx : string) (msg : MQTTMessage) (d : dict),
    compute_remaining_keys (injected rx msg d)
      = filter (fun k => negb (str_in k ["timestamp"; "rx_callsign"; "tx_callsign"]))
               (dict_keys d).
Proof.
  intros rx msg d. now rewrite remaining_keys_injected.
Qed.

(** X16. The two item assignments keep the record a dict: distinct keys
    stay distinct, and the record gains at most the two callsign keys, none
    when the payload already had both. *)
Theorem callsign_injection_keeps_keys_distinct :
  forall (rx : string) (msg : MQTTMessage) (d : dict),
    NoDup (dict_keys d) ->
    NoDup (dict_keys (injected rx msg d)) /\
    List.length d <= List.length (injected rx msg d) <= List.length d + 2 /\
    (In "tx_callsign" (dict_keys d) -> In "rx_callsign" (dict_keys d) ->
     dict_keys (injected rx msg d) = dict_keys d).
Proof.
  intros rx msg d Hnd. unfold injected. split; [|split].
  - now do 2 apply dict_setitem_NoDup.
  - rewrite !dict_setitem_length.
    destruct (in_dec string_dec "rx_callsign" _);
      destruct (in_dec string_dec "tx_callsign" _); lia.
  - intros Htx Hrx.
    rewrite dict_keys_setitem_present;
      rewrite dict_keys_setitem_present; auto.
Qed.

(** X9. Rows are aligned with the header: at every position the row holds
    the record's value under the name the header has at that position, read
    with the empty text as default, and past the three fixed columns put
    through the list-or-dict conversion. *)
Theorem row_aligned_with_header :
  forall (data : dict) (rk : list string) (i : nat) (k : string),
    nth_error (fixed_headers ++ rk)%list i = Some k ->
    nth_error (build_row data rk) i =
      Some (if Nat.ltb i 3 then dict_get data k (PyStr "") else cell data k).
Proof.
  intros data rk i k Hk. unfold build_row, fixed_headers in *.
  destruct i as [|[|[|i]]]; cbn in *.
  - now injection Hk as <-.
  - now injection Hk as <-.
  - now injection Hk as <-.
  - now rewrite nth_error_map, Hk.
Qed.

(** ** The CSV writer's quoting *)

Lemma count_char_app (c : ascii) (a b : string) :
  count_char c (a ++ b) = count_char c a + count_char c b.
Proof. induction a as [|x a IH]; cbn; [reflexivity|]. rewrite IH. lia. Qed.

Lemma no_special_no_quote (s : string) :
  any_char csv_special s = false -> count_char dquote s = 0.
Proof.
  induction s as [|c r IH]; cbn; [reflexivity|].
  intros H. apply orb_false_iff in H. destruct H as [Hc Hr].
  unfold csv_special in Hc.
  destruct (Ascii.eqb c dquote) eqn:E.
  - rewrite !orb_true_r in Hc. cbn in Hc.
    destruct (Ascii.eqb c ","); discriminate.
  - now apply IH.
Qed.

Lemma count_double_quotes (s : string) :
  count_char dquote (csv_double_quotes s) = 2 * count_char dquote s.
Proof.
  unfold csv_double_quotes. induction s as [|c r IH]; cbn; [reflexivity|].
  destruct (Ascii.eqb c dquote) eqn:E; cbn; rewrite ?E; cbn; rewrite IH; lia.
Qed.

Lemma count_csv_quoted (s : string) :
  count_char dquote (csv_quoted s) = 2 * (1 + count_char dquote s).
Proof.
  unfold csv_quoted. cbn [count_char]. rewrite Ascii.eqb_refl.
  rewrite count_char_app, count_double_quotes.
  cbn [count_char str1]. rewrite Ascii.eqb_refl. lia.
Qed.

Lemma count_csv_field (v : pyval) :
  Nat.even (count_char dquote (csv_field v)) = true.
Proof.
  unfold csv_field.
  destruct (any_char csv_special (csv_field_text v)) eqn:E.
  - rewrite count_csv_quoted, Nat.even_mul. reflexivity.
  - now rewrite (no_special_no_quote _ E).
Qed.

Lemma count_join_fields (r : row) :
  Nat.even (count_char dquote (join "," (map csv_field r))) = true.
Proof.
  induction r as [|v r IH]; [reflexivity|].
  destruct r as [|w r]; [apply count_csv_field|].
  change (join "," (map csv_field (v :: w :: r)))
    with (csv_field v ++ "," ++ join "," (map csv_field (w :: r))).
  rewrite !count_char_app, Nat.even_add, count_csv_field. cbn [count_char].
  change (Ascii.eqb "," dquote) with false. cbn [Nat.add].
  now rewrite IH.
Qed.

(** X10. Quotes always pair up: every record the writer produces holds an
    even number of quote characters (none at all in a field written
    without quotes), so a reader that pairs quotes finds each record's end
    at its own CR LF, whatever the cells hold. *)
Theorem csv_record_quotes_pair_up :
  forall r : row,
    Nat.even (count_char dquote (csv_writerow r)) = true /\
    forall v, In v r ->
      Nat.even (count_char dquote (csv_field v)) = true /\
      (any_char csv_special (csv_field_text v) = false ->
       csv_field v = csv_field_text v /\ count_char dquote (csv_field v) = 0).
Proof.
  intros r. split.
  - unfold csv_writerow.
    assert (H : forall body,
               Nat.even (count_char dquote body) = true ->
               Nat.even (count_char dquote (body ++ csv_lineterminator)) = true).
    { intros body Hb. rewrite count_char_app. cbn. now rewrite Nat.add_0_r. }
    apply H. pose proof (count_join_fields r) as Hj.
    destruct r as [|v r]; [reflexivity|].
    destruct (join "," (map csv_field (v :: r))); [reflexivity|exact Hj].
  - intros v _. split; [apply count_csv_field|].
    intros Hs. unfold csv_field. rewrite Hs. split; [reflexivity|].
    now apply no_special_no_quote.
Qed.

Lemma length_append (a b : string) :
  String.length (a ++ b) = String.length a + String.length b.
Proof. induction a as [|x a IH]; cbn; [reflexivity|]. now rewrite IH. Qed.

Lemma append_inj_r (a b c : string) : a ++ c = b ++ c -> a = b.
Proof.
  intros H.
  assert (Hlen : String.length a = String.length b).
  { apply (f_equal String.length) in H.
    rewrite !length_append in H. lia. }
  revert b H Hlen. induction a as [|x a IH]; intros [|y b] H Hlen;
    cbn in *; try discriminate; [reflexivity|].
  injection H as -> H. f_equal. apply IH; [assumption|lia].
Qed.

Lemma csv_double_quotes_inj (s t : string) :
  csv_double_quotes s = csv_double_quotes t -> s = t.
Proof.
  unfold csv_double_quotes. revert t.
  induction s as [|c s IH]; intros [|d t]; cbn.
  - reflexivity.
  - destruct (Ascii.eqb d dquote); discriminate.
  - destruct (Ascii.eqb c dquote); discriminate.
  - destruct (Ascii.eqb c dquote) eqn:Ec; destruct (Ascii.eqb d dquote) eqn:Ed;
      cbn; intros H.
    + apply Ascii.eqb_eq in Ec, Ed. subst c d.
      injection H as H. f_equal. now apply IH.
    + injection H as H1 H2. subst d.
      destruct (concat_map_char _ t) eqn:Et.
      * destruct (concat_map_char _ s); discriminate.
      * rewrite Ascii.eqb_refl in Ed. discriminate.
    + injection H as H1 H2. subst c. rewrite Ascii.eqb_refl in Ec. discriminate.
    + injection H as -> H. f_equal. now apply IH.
Qed.

(** quoting a field loses nothing *)
Lemma csv_field_injective :
  forall v w : pyval,
    csv_field v = csv_field w -> csv_field_text v = csv_field_text w.
Proof.
  intros v w. unfold csv_field.
  set (s := csv_field_text v). set (t := csv_field_text w).
  destruct (any_char csv_special s) eqn:Es;
    destruct (any_char csv_special t) eqn:Et; unfold csv_quoted; intros H.
  - injection H as H. apply append_inj_r in H. now apply csv_double_quotes_inj.
  - subst t. rewrite <- H in Et. discriminate Et.
  - subst s. rewrite H in Es. discriminate Es.
  - exact H.
Qed.

(** what may follow a field in a record: nothing, or a comma and more *)
Lemma unquoted_field_ends (s1 s2 r1 r2 : string) :
  any_char csv_special s1 = false ->
  any_char csv_special s2 = false ->
  (r1 = "" \/ exists r, r1 = String "," r) ->
  (r2 = "" \/ exists r, r2 = String "," r) ->
  s1 ++ r1 = s2 ++ r2 ->
  s1 = s2 /\ r1 = r2.
Proof.
  revert s2. induction s1 as [|c1 s1 IH]; intros [|c2 s2] H1 H2 Hr1 Hr2 H;
    cbn in *.
  - auto.
  - apply orb_false_iff in H2. destruct H2 as [Hc _].
    destruct Hr1 as [->|[r ->]]; [discriminate|].
    injection H as <- _. discriminate Hc.
  - apply orb_false_iff in H1. destruct H1 as [Hc _].
    destruct Hr2 as [->|[r ->]]; [discriminate|].
    injection H as -> _. discriminate Hc.
  - apply orb_false_iff in H1, H2. destruct H1 as [_ H1], H2 as [_ H2].
    injection H as -> H.
    destruct (IH s2 H1 H2 Hr1 Hr2 H) as [-> ->]. auto.
Qed.

Lemma quoted_field_ends (s1 s2 r1 r2 : string) :
  (r1 = "" \/ exists r, r1 = String "," r) ->
  (r2 = "" \/ exists r, r2 = String "," r) ->
  csv_double_quotes s1 ++ String dquote r1
    = csv_double_quotes s2 ++ String dquote r2 ->
  s1 = s2 /\ r1 = r2.
Proof.
  unfold csv_double_quotes.
  revert s2. induction s1 as [|c1 s1 IH]; intros [|c2 s2] Hr1 Hr2 H; cbn in *.
  - injection H as ->. auto.
  - destruct (Ascii.eqb c2 dquote) eqn:E2; cbn in H.
    + injection H as H.
      destruct Hr1 as [->|[r ->]]; discriminate.
    + injection H as <- _. rewrite Ascii.eqb_refl in E2. discriminate.
  - destruct (Ascii.eqb c1 dquote) eqn:E1; cbn in H.
    + injection H as H.
      destruct Hr2 as [->|[r ->]]; discriminate.
    + injection H as -> _. rewrite Ascii.eqb_refl in E1. discriminate.
  - destruct (Ascii.eqb c1 dquote) eqn:E1; destruct (Ascii.eqb c2 dquote) eqn:E2;
      cbn in H.
    + apply Ascii.eqb_eq in E1, E2. subst c1 c2. injection H as H.
      destruct (IH s2 Hr1 Hr2 H) as [-> ->]. auto.
    + injection H as H1 _. subst c2.
      rewrite Ascii.eqb_refl in E2. discriminate.
    + injection H as H1 _. subst c1.
      rewrite Ascii.eqb_refl in E1. discriminate.
    + injection H as -> H.
      destruct (IH s2 Hr1 Hr2 H) as [-> ->]. auto.
Qed.

Lemma quoted_is_not_unquoted (x s r : string) :
  any_char csv_special s = false ->
  (r = "" \/ exists r', r = String "," r') ->
  String dquote x <> s ++ r.
Proof.
  intros Hs Hr H. destruct s as [|c s]; cbn in *.
  - destruct Hr as [->|[r' ->]]; discriminate.
  - injection H as <- _. discriminate Hs.
Qed.

Lemma csv_field_ends (v w : pyval) (r1 r2 : string) :
  (r1 = "" \/ exists r, r1 = String "," r) ->
  (r2 = "" \/ exists r, r2 = String "," r) ->
  csv_field v ++ r1 = csv_field w ++ r2 ->
  csv_field_text v = csv_field_text w /\ r1 = r2.
Proof.
  intros Hr1 Hr2. unfold csv_field.
  destruct (any_char csv_special (csv_field_text v)) eqn:Ev;
    destruct (any_char csv_special (csv_field_text w)) eqn:Ew;
    unfold csv_quoted; cbn [append]; intros H.
  - injection H as H. rewrite !append_assoc in H. cbn [append str1] in H.
    now apply quoted_field_ends.
  - exfalso. exact (quoted_is_not_unquoted _ _ _ Ew Hr2 H).
  - exfalso. symmetry in H. exact (quoted_is_not_unquoted _ _ _ Ev Hr1 H).
  - now apply unquoted_field_ends.
Qed.

Lemma join_fields_cons (v : pyval) (vs : row) :
  join "," (map csv_field (v :: vs))
    = csv_field v ++ match vs with
                     | [] => ""
                     | _ :: _ => String "," (join "," (map csv_field vs))
                     end.
Proof.
  destruct vs as [|w ws]; [cbn; now rewrite append_nil_r|reflexivity].
Qed.

Lemma join_fields_injective (r1 r2 : row) :
  r1 <> [] -> r2 <> [] ->
  join "," (map csv_field r1) = join "," (map csv_field r2) ->
  map csv_field_text r1 = map csv_field_text r2.
Proof.
  revert r2. induction r1 as [|v vs IH]; intros [|w ws] H1 H2 H;
    try contradiction.
  rewrite !join_fields_cons in H.
  apply csv_field_ends in H.
  - destruct H as [Htext Hrest]. cbn [map]. f_equal; [exact Htext|].
    destruct vs as [|v' vs]; destruct ws as [|w' ws]; try discriminate.
    + reflexivity.
    + injection Hrest as Hrest. apply IH; [discriminate|discriminate|exact Hrest].
  - destruct vs; eauto.
  - destruct ws; eauto.
Qed.

(** the text of a record before its line terminator *)
Lemma csv_writerow_body (r : row) :
  exists body,
    csv_writerow r = body ++ csv_lineterminator /\
    match r with
    | [] => body = ""
    | _ :: _ =>
        (join "," (map csv_field r) = "" /\ body = String dquote (str1 dquote))
        \/ (join "," (map csv_field r) <> "" /\
            body = join "," (map csv_field r))
    end.
Proof.
  unfold csv_writerow. destruct r as [|v vs].
  - exists "". auto.
  - destruct (join "," (map csv_field (v :: vs))) as [|c s] eqn:E.
    + eexists. split; [reflexivity|]. left. auto.
    + eexists. split; [reflexivity|]. right. split; [discriminate|reflexivity].
Qed.

Lemma join_fields_empty (r : row) :
  r <> [] ->
  join "," (map csv_field r) = "" ->
  map csv_field_text r = [""].
Proof.
  destruct r as [|v vs]; [contradiction|]. intros _.
  rewrite join_fields_cons. intros H.
  destruct vs as [|w ws].
  - rewrite append_nil_r in H. unfold csv_field in H.
    destruct (any_char csv_special (csv_field_text v)); [discriminate|].
    cbn. now rewrite H.
  - destruct (csv_field v); discriminate.
Qed.

Lemma join_fields_not_two_quotes (r : row) :
  r <> [] ->
  join "," (map csv_field r) <> String dquote (str1 dquote).
Proof.
  destruct r as [|v vs]; [contradiction|]. intros _.
  rewrite join_fields_cons. unfold csv_field.
  destruct (any_char csv_special (csv_field_text v)) eqn:E.
  - unfold csv_quoted. cbn [append]. intros H. injection H as H.
    rewrite append_assoc in H.
    destruct (csv_field_text v) as [|c s]; [discriminate E|].
    unfold csv_double_quotes in H. cbn in H.
    destruct (Ascii.eqb c dquote); cbn in H; [discriminate|].
    injection H as -> H.
    destruct (concat_map_char _ s); discriminate.
  - intros H.
    destruct (csv_field_text v) as [|c s]; cbn in H.
    + destruct vs; discriminate.
    + injection H as -> _. discriminate E.
Qed.

(** X11. The writer's records can be told apart: two rows are written as
    the same record only if they have the same number of cells and, cell by
    cell, the same text.  Commas, quotes and line breaks inside a cell never
    make a record read as another row. *)
Theorem csv_record_injective :
  forall r1 r2 : row,
    csv_writerow r1 = csv_writerow r2 ->
    map csv_field_text r1 = map csv_field_text r2.
Proof.
  intros r1 r2 H.
  destruct (csv_writerow_body r1) as (b1 & E1 & Hb1).
  destruct (csv_writerow_body r2) as (b2 & E2 & Hb2).
  rewrite E1, E2 in H. apply append_inj_r in H. subst b2.
  destruct r1 as [|v vs]; destruct r2 as [|w ws].
  - reflexivity.
  - exfalso. subst b1. destruct Hb2 as [[_ Hb]|[Hne Hb]];
      [discriminate|congruence].
  - exfalso. destruct Hb1 as [[_ Hb]|[Hne Hb]]; subst b1;
      [discriminate|congruence].
  - destruct Hb1 as [[He1 Hb1]|[Hne1 Hb1]];
      destruct Hb2 as [[He2 Hb2]|[Hne2 Hb2]].
    + rewrite (join_fields_empty (v :: vs)), (join_fields_empty (w :: ws))
        by (discriminate || assumption). reflexivity.
    + exfalso. rewrite Hb1 in Hb2. symmetry in Hb2.
      now apply (join_fields_not_two_quotes (w :: ws)) in Hb2.
    + exfalso. rewrite Hb2 in Hb1. symmetry in Hb1.
      now apply (join_fields_not_two_quotes (v :: vs)) in Hb1.
    + apply join_fields_injective; [discriminate|discriminate|congruence].
Qed.

(** ** The text [json.dumps] gives *)

Lemma all_chars_app (p : ascii -> bool) (a b : string) :
  all_chars p (a ++ b) = all_chars p a && all_chars p b.
Proof.
  induction a as [|x a IH]; cbn; [reflexivity|].
  now rewrite IH, andb_assoc.
Qed.

Lemma all_chars_wrap (p : ascii -> bool) (a m b : string) :
  all_chars p a = true -> all_chars p m = true -> all_chars p b = true ->
  all_chars p (a ++ m ++ b) = true.
Proof. intros Ha Hm Hb. now rewrite !all_chars_app, Ha, Hm, Hb. Qed.

Lemma all_chars_join (p : ascii -> bool) (sep : string) (parts : list string) :
  all_chars p sep = true ->
  Forall (fun part => all_chars p part = true) parts ->
  all_chars p (join sep parts) = true.
Proof.
  intros Hsep. induction 1 as [|x parts Hx Hparts IH]; [reflexivity|].
  destruct parts as [|y parts]; [exact Hx|].
  change (join sep (x :: y :: parts)) with (x ++ sep ++ join sep (y :: parts)).
  now rewrite !all_chars_app, Hx, Hsep, IH.
Qed.

Lemma all_chars_concat_map (p : ascii -> bool) (f : ascii -> string)
    (s : string) :
  (forall c, all_chars p (f c) = true) ->
  all_chars p (concat_map_char f s) = true.
Proof.
  intros Hf. induction s as [|c s IH]; cbn; [reflexivity|].
  now rewrite all_chars_app, Hf, IH.
Qed.

Lemma json_escape_char_printable (c : ascii) :
  all_chars printable_ascii (json_escape_char c) = true.
Proof.
  destruct c as [[] [] [] [] [] [] [] []]; reflexivity.
Qed.

Lemma encode_basestring_ascii_printable (s : string) :
  all_chars printable_ascii (encode_basestring_ascii s) = true.
Proof.
  unfold encode_basestring_ascii.
  change (String dquote (concat_map_char json_escape_char s ++ str1 dquote))
    with (str1 dquote ++ concat_map_char json_escape_char s ++ str1 dquote).
  apply all_chars_wrap; [reflexivity| |reflexivity].
  apply all_chars_concat_map. apply json_escape_char_printable.
Qed.

Lemma string_of_uint_printable (d : Decimal.uint) :
  all_chars printable_ascii (NilEmpty.string_of_uint d) = true.
Proof. induction d; cbn; auto. Qed.

Lemma int_repr_printable (z : Z) :
  all_chars printable_ascii (int_repr z) = true.
Proof.
  assert (H : forall d, all_chars printable_ascii (NilZero.string_of_uint d)
                        = true).
  { intros d. destruct d; [reflexivity|..];
      apply (string_of_uint_printable (_ d)). }
  unfold int_repr, NilZero.string_of_int.
  destruct (Z.to_int z) as [d|d]; [apply H|].
  cbn [all_chars]. now rewrite H.
Qed.

Lemma floatstr_printable (r : string) :
  all_chars printable_ascii r = true ->
  all_chars printable_ascii (floatstr r) = true.
Proof.
  intros H. unfold floatstr.
  destruct (String.eqb r "nan"); [reflexivity|].
  destruct (String.eqb r "inf"); [reflexivity|].
  destruct (String.eqb r "-inf"); [reflexivity|exact H].
Qed.

Lemma json_dumps_printable :
  forall v : pyval,
    floats_printable v = true ->
    all_chars printable_ascii (json_dumps v) = true.
Proof.
  fix IH 1. intros [ | b | z | r | s | l | d] Hv; cbn [json_dumps].
  - reflexivity.
  - destruct b; reflexivity.
  - apply int_repr_printable.
  - now apply floatstr_printable.
  - apply encode_basestring_ascii_printable.
  - apply all_chars_wrap; [reflexivity| |reflexivity].
    apply all_chars_join; [reflexivity|].
    cbn [floats_printable] in Hv. clear -IH Hv.
    induction l as [|x l IHl]; [constructor|].
    cbn in Hv. apply andb_true_iff in Hv. destruct Hv as [Hx Hl].
    constructor; [apply IH; exact Hx|apply IHl; exact Hl].
  - apply all_chars_wrap; [reflexivity| |reflexivity].
    apply all_chars_join; [reflexivity|].
    cbn [floats_printable] in Hv. clear -IH Hv.
    induction d as [|[k x] d IHd]; [constructor|].
    cbn in Hv. apply andb_true_iff in Hv. destruct Hv as [Hx Hd].
    constructor; [|apply IHd; exact Hd].
    apply all_chars_wrap;
      [apply encode_basestring_ascii_printable|reflexivity|].
    apply IH. exact Hx.
Qed.

Lemma printable_no_char (c : ascii) (s : string) :
  printable_ascii c = false ->
  all_chars printable_ascii s = true ->
  contains c s = false.
Proof.
  intros Hc. induction s as [|x s IH]; cbn; [reflexivity|].
  intros H. apply andb_true_iff in H. destruct H as [Hx Hs].
  rewrite (IH Hs), orb_false_r.
  destruct (Ascii.eqb x c) eqn:E; [|reflexivity].
  apply Ascii.eqb_eq in E. subst x. congruence.
Qed.

(** X12. A list or dict never brings a line break or a non-ASCII character
    into the output: when the floats in a value have printable ASCII texts
    (as every float has), the JSON text of the value is printable ASCII
    throughout, so the cell made of it holds neither CR nor LF, and as a
    CSV field it starts and ends on the same line. *)
Theorem structured_cell_is_single_line_ascii :
  forall (data : dict) (key : string),
    let value := dict_get data key (PyStr "") in
    is_list_or_dict value = true ->
    floats_printable value = true ->
    all_chars printable_ascii (csv_field_text (cell data key)) = true /\
    contains CR (csv_field (cell data key)) = false /\
    contains LF (csv_field (cell data key)) = false.
Proof.
  intros data key value Hs Hf.
  assert (Hc : cell data key = PyStr (json_dumps value))
    by (unfold cell; fold value; now rewrite Hs).
  rewrite Hc. cbn [csv_field_text py_str].
  pose proof (json_dumps_printable value Hf) as Hp.
  split; [exact Hp|].
  assert (Hfield : all_chars printable_ascii (csv_field (PyStr (json_dumps value)))
                   = true).
  { unfold csv_field. cbn [csv_field_text py_str].
    destruct (any_char csv_special (json_dumps value)); [|exact Hp].
    unfold csv_quoted.
    change (String dquote (csv_double_quotes (json_dumps value) ++ str1 dquote))
      with (str1 dquote ++ csv_double_quotes (json_dumps value) ++ str1 dquote).
    apply all_chars_wrap; [reflexivity| |reflexivity].
    unfold csv_double_quotes.
    assert (Hd : forall s, all_chars printable_ascii s = true ->
                 all_chars printable_ascii
                   (concat_map_char
                      (fun c => if Ascii.eqb c dquote
                                then String dquote (str1 dquote) else str1 c) s)
                 = true).
    { induction s as [|c s IH]; cbn; [reflexivity|].
      intros H. apply andb_true_iff in H. destruct H as [Hc' Hs'].
      rewrite all_chars_app, (IH Hs'), andb_true_r.
      destruct (Ascii.eqb c dquote); [reflexivity|].
      cbn. now rewrite Hc'. }
    exact (Hd _ Hp). }
  split; apply printable_no_char; [reflexivity|exact Hfield|reflexivity|exact Hfield].
Qed.

(** ** Concurrent callbacks: no deadlock, and an end *)

Open Scope list_scope.

Lemma thread_step_none (p : pc) (sh : shared) :
  thread_step p sh = None ->
  p = Returned \/ (locked sh = true /\ exists data, p = AtWith data).
Proof.
  destruct p; cbn [thread_step]; unfold sink_step;
    try destruct (sink_call _ _) as [[e|[]] ?]; try discriminate; auto.
  - destruct (prepare msg (object sh)) as [[e|data] self']; discriminate.
  - destruct (locked sh); [eauto|discriminate].
  - destruct (get_remaining_keys (object sh)) as [[e|rk] ?]; discriminate.
  - destruct (get_remaining_keys (object sh)) as [[e|rk] ?]; discriminate.
  - destruct e; discriminate.
Qed.

Lemma step_of_member (sh : shared) (ths : list pc) (p p' : pc) (s : stmt)
    (sh' : shared) :
  In p ths ->
  thread_step p sh = Some (s, p', sh') ->
  exists l c', step (sh, ths) l c'.
Proof.
  intros Hin Hs. apply in_split in Hin. destruct Hin as (before & after & ->).
  eexists _, _. constructor. exact Hs.
Qed.

(** X13. The lock cannot deadlock the callbacks, whatever the sinks do: in
    every configuration the interleavings reach, as long as some callback
    has not returned, some thread can run its next statement; so a run that
    cannot go on has every callback returned and the lock free, and, with
    sinks whose [writerow] never raises, the same rows in both sinks. *)
Theorem callbacks_never_deadlock :
  forall (sinks : sink_behaviour) (rx : string) (msgs : list MQTTMessage)
         (tr : list (nat * stmt)) (sh : shared) (ths : list pc),
    run (start sinks rx msgs) tr (sh, ths) ->
    ((exists p, In p ths /\ p <> Returned) ->
     exists l c', step (sh, ths) l c') /\
    ((forall l c', ~ step (sh, ths) l c') ->
     Forall (fun p => p = Returned) ths /\
     locked sh = false /\
     (writes_through sinks ->
      stdout_rows (io (object sh)) = file_rows (io (object sh)))).
Proof.
  intros sinks rx msgs tr sh ths Hrun.
  pose proof (run_mutex sinks rx msgs tr (sh, ths) Hrun) as Hm.
  cbn [fst snd] in Hm.
  assert (Hprogress : (exists p, In p ths /\ p <> Returned) ->
                      exists l c', step (sh, ths) l c').
  { intros (p & Hin & Hne).
    destruct (locked sh) eqn:Hl.
    - destruct (filter holds_lock ths) as [|q rest] eqn:Hf;
        [discriminate Hm|].
      assert (Hq : In q (filter holds_lock ths)) by (rewrite Hf; now left).
      apply filter_In in Hq. destruct Hq as [Hq Hh].
      destruct (thread_step q sh) as [[[s p'] sh']|] eqn:Hs.
      + eapply step_of_member; eassumption.
      + apply thread_step_none in Hs.
        destruct Hs as [->|(_ & data & ->)]; discriminate.
    - destruct (thread_step p sh) as [[[s p'] sh']|] eqn:Hs.
      + eapply step_of_member; eassumption.
      + apply thread_step_none in Hs.
        destruct Hs as [->|[Hl' _]]; [contradiction|congruence]. }
  split; [exact Hprogress|].
  intros Hstuck.
  assert (Hall : Forall (fun p => p = Returned) ths).
  { apply Forall_forall. intros p Hin.
    destruct p; try reflexivity;
      exfalso;
      (destruct Hprogress as (l & c' & Hstep);
       [eexists; split; [exact Hin|discriminate]|exact (Hstuck l c' Hstep)]). }
  split; [exact Hall|].
  assert (Hf : filter holds_lock ths = []).
  { clear -Hall. induction Hall as [|p ths -> _ IH]; cbn; auto. }
  assert (Hl : locked sh = false).
  { rewrite Hf in Hm. destruct (locked sh); [discriminate Hm|reflexivity]. }
  split; [exact Hl|].
  intros Hrel.
  destruct (run_inv sinks rx msgs tr (sh, ths) Hrel Hrun) as [Hinv _].
  unfold inv in Hinv. rewrite Hf in Hinv. destruct Hinv as [_ Hq].
  unfold quiet, view in Hq. destruct Hq as [Hrows _]. now rewrite Hrows.
Qed.

Lemma thread_step_rank (p p' : pc) (s : stmt) (sh sh' : shared) :
  thread_step p sh = Some (s, p', sh') -> rank p' < rank p.
Proof.
  destruct p; cbn [thread_step]; unfold sink_step; intros H;
    try (destruct (sink_call _ _) as [[e|[]] ?];
         injection H as <- <- <-; cbn; lia).
  - destruct (prepare msg (object sh)) as [[e|data] self'];
      injection H as <- <- <-; cbn; lia.
  - destruct (locked sh); [discriminate|]. injection H as <- <- <-. cbn. lia.
  - injection H as <- <- <-.
    destruct (negb (headers_written (object sh))); cbn; lia.
  - injection H as <- <- <-. cbn. lia.
  - destruct (get_remaining_keys (object sh)) as [[e|rk] ?];
      injection H as <- <- <-; cbn; lia.
  - injection H as <- <- <-. cbn. lia.
  - destruct (get_remaining_keys (object sh)) as [[e|rk] ?];
      injection H as <- <- <-; cbn; lia.
  - destruct e; injection H as <- <- <-; cbn; lia.
  - injection H as <- <- <-. cbn. lia.
  - discriminate.
Qed.

Lemma step_rank (c c' : config) (l : nat * stmt) :
  step c l c' -> S (total_rank (snd c')) <= total_rank (snd c).
Proof.
  intros [sh sh' before after p p' s Hs]. cbn [snd]. unfold total_rank.
  rewrite !map_app, !list_sum_app. cbn [map list_sum fold_right].
  pose proof (thread_step_rank _ _ _ _ _ Hs). lia.
Qed.

Lemma run_rank (c c' : config) (tr : list (nat * stmt)) :
  run c tr c' -> List.length tr + total_rank (snd c') <= total_rank (snd c).
Proof.
  induction 1 as [c|c c' c'' tr l _ IH Hs]; [cbn; lia|].
  rewrite length_app. cbn [List.length].
  pose proof (step_rank _ _ _ Hs). lia.
Qed.

Lemma total_rank_start (msgs : list MQTTMessage) :
  total_rank (map AtTry msgs) = 15 * List.length msgs.
Proof.
  unfold total_rank. induction msgs as [|m ms IH]; [reflexivity|].
  cbn [map List.length]. change (list_sum (rank (AtTry m) :: map rank (map AtTry ms)))
    with (15 + list_sum (map rank (map AtTry ms))). rewrite IH. lia.
Qed.

(** X14. Every interleaving ends: each statement run takes its thread one
    step closer to its return, and a callback is at most fifteen statements
    from it, so a run over [n] messages has at most [15 * n] steps, however
    the threads are scheduled. *)
Theorem callbacks_terminate :
  forall (sinks : sink_behaviour) (rx : string) (msgs : list MQTTMessage)
         (tr : list (nat * stmt)) (c : config),
    run (start sinks rx msgs) tr c ->
    List.length tr + total_rank (snd c) <= 15 * List.length msgs /\
    List.length tr <= 15 * List.length msgs.
Proof.
  intros sinks rx msgs tr c Hrun.
  pose proof (run_rank _ _ _ Hrun) as H. cbn [start snd] in H.
  rewrite total_rank_start in H.
  split; [exact H|lia].
Qed.

Open Scope string_scope.

(** ** The further properties at sample inputs *)

Lemma subscribed_topic_gives_sender_witness :
  contains "/" (base_topic default_broker) = false /\
  contains "/" "RX1" = false /\
  contains "/" "TX1" = false /\
  topic scenario_msg
    = published_topic default_broker (exec (deliver []) (init no_failure "RX1")) "TX1" /\
  payload scenario_msg = Json (PyDict scenario_record) /\
  split "/" (topic scenario_msg) = ["lora_aprs"; "RX1"; "TX1"; "json_message"].
Proof.
  assert (H1 : contains "/" (base_topic default_broker) = false) by reflexivity.
  assert (H2 : contains "/" "RX1" = false) by reflexivity.
  assert (H3 : contains "/" "TX1" = false) by reflexivity.
  assert (H4 : topic scenario_msg
               = published_topic default_broker
                   (exec (deliver []) (init no_failure "RX1")) "TX1") by reflexivity.
  assert (H5 : payload scenario_msg = Json (PyDict scenario_record))
    by reflexivity.
  do 5 (split; [assumption|]).
  destruct (subscribed_topic_gives_sender no_failure default_broker "RX1" "TX1" []
              scenario_msg scenario_record H1 H2 H3 H4 H5)
    as (_ & _ & Ht & _).
  exact Ht.
Defined.

Lemma base_topic_with_slash_hides_sender_witness :
  contains "/" (base_topic nested_broker) = true /\
  contains "/" "RX1" = false /\
  contains "/" "TX1" = false /\
  topic nested_msg
    = published_topic nested_broker (exec (deliver []) (init no_failure "RX1")) "TX1" /\
  payload nested_msg = Json (PyDict scenario_record) /\
  5 <= List.length (split "/" (topic nested_msg)).
Proof.
  assert (H1 : contains "/" (base_topic nested_broker) = true) by reflexivity.
  assert (H2 : contains "/" "RX1" = false) by reflexivity.
  assert (H3 : contains "/" "TX1" = false) by reflexivity.
  assert (H4 : topic nested_msg
               = published_topic nested_broker
                   (exec (deliver []) (init no_failure "RX1")) "TX1") by reflexivity.
  assert (H5 : payload nested_msg = Json (PyDict scenario_record))
    by reflexivity.
  do 5 (split; [assumption|]).
  exact (proj1 (base_topic_with_slash_hides_sender no_failure nested_broker
                  "RX1" "TX1" []
                  nested_msg scenario_record H1 H2 H3 H4 H5)).
Defined.

Lemma only_timestamp_can_be_structured_witness :
  let final := exec (deliver [timestamp_list_msg]) (init no_failure "RX1") in
  let r := [PyList [PyStr "a"]; PyStr "RX1"; PyStr "TX1"] in
  (In r (stdout_rows (io final)) \/ In r (file_rows (io final))) /\
  1 <= 1 /\
  nth_error r 1 = Some (PyStr "RX1") /\
  is_list_or_dict (PyStr "RX1") = false.
Proof.
  cbv zeta.
  assert (H1 : In [PyList [PyStr "a"]; PyStr "RX1"; PyStr "TX1"]
                  (stdout_rows (io (exec (deliver [timestamp_list_msg])
                                         (init no_failure "RX1")))) \/
               In [PyList [PyStr "a"]; PyStr "RX1"; PyStr "TX1"]
                  (file_rows (io (exec (deliver [timestamp_list_msg])
                                       (init no_failure "RX1")))))
    by (left; vm_compute; tauto).
  assert (H2 : 1 <= 1) by lia.
  assert (H3 : nth_error [PyList [PyStr "a"]; PyStr "RX1"; PyStr "TX1"] 1
               = Some (PyStr "RX1")) by reflexivity.
  do 3 (split; [assumption|]).
  exact (only_timestamp_can_be_structured no_failure "RX1"
           [timestamp_list_msg] _ 1 _ H1 H2 H3).
Defined.

Lemma header_columns_distinct_and_complete_witness :
  Forall (fun m => is_record m = false) [short_topic_garbage] /\
  payload scenario_msg = Json (PyDict scenario_record) /\
  NoDup (dict_keys scenario_record) /\
  NoDup (fixed_headers
           ++ compute_remaining_keys (injected "RX1" scenario_msg scenario_record))%list.
Proof.
  assert (H1 : Forall (fun m => is_record m = false) [short_topic_garbage])
    by (repeat constructor).
  assert (H2 : payload scenario_msg = Json (PyDict scenario_record))
    by reflexivity.
  assert (H3 : NoDup (dict_keys scenario_record))
    by (repeat constructor; cbn; intuition discriminate).
  do 3 (split; [assumption|]).
  exact (proj1 (header_columns_distinct_and_complete no_failure "RX1"
                  [short_topic_garbage] [] scenario_msg scenario_record
                  H1 H2 H3)).
Defined.

Lemma one_row_per_record_witness :
  writes_through no_failure /\
  List.length
    (stdout_rows
       (io (exec (deliver [short_topic_garbage; scenario_msg; other_msg])
                 (init no_failure "RX1")))) = 3.
Proof.
  split; [exact no_failure_writes_through|].
  exact (proj1 (one_row_per_record no_failure "RX1"
                  [short_topic_garbage; scenario_msg; other_msg]
                  no_failure_writes_through)).
Defined.

Lemma diagnostics_per_message_witness :
  reliable no_failure /\
  stderr_lines
    (io (exec (deliver [short_topic_garbage; scenario_msg; short_topic_msg])
              (init no_failure "RX1")))
  = flat_map diagnostics_of [short_topic_garbage; scenario_msg; short_topic_msg].
Proof.
  split; [exact no_failure_reliable|].
  exact (proj1 (diagnostics_per_message no_failure "RX1"
                  [short_topic_garbage; scenario_msg; short_topic_msg]
                  no_failure_reliable)).
Defined.

Lemma row_aligned_with_header_witness :
  nth_error (fixed_headers ++ ["lat"; "lon"])%list 3 = Some "lat" /\
  nth_error (build_row scenario_record ["lat"; "lon"]) 3
    = Some (PyFloat "1.0").
Proof.
  assert (H : nth_error (fixed_headers ++ ["lat"; "lon"])%list 3 = Some "lat")
    by reflexivity.
  split; [exact H|].
  exact (row_aligned_with_header scenario_record ["lat"; "lon"] 3 "lat" H).
Defined.

Lemma structured_cell_is_single_line_ascii_witness :
  is_list_or_dict (dict_get path_record "path" (PyStr "")) = true /\
  floats_printable (dict_get path_record "path" (PyStr "")) = true /\
  contains LF (csv_field (cell path_record "path")) = false.
Proof.
  assert (H1 : is_list_or_dict (dict_get path_record "path" (PyStr "")) = true)
    by reflexivity.
  assert (H2 : floats_printable (dict_get path_record "path" (PyStr "")) = true)
    by reflexivity.
  do 2 (split; [assumption|]).
  destruct (structured_cell_is_single_line_ascii path_record "path" H1 H2)
    as (_ & _ & Hlf).
  exact Hlf.
Defined.

Lemma callbacks_never_deadlock_witness :
  let c0 := start no_failure "RX1" [scenario_msg; other_msg] in
  let tr := fst (schedule sample_order c0) in
  let c := snd (schedule sample_order c0) in
  run c0 tr c /\
  ((exists p, In p (snd c) /\ p <> Returned) ->
   exists l c', step (fst c, snd c) l c').
Proof.
  cbv zeta.
  assert (H : run (start no_failure "RX1" [scenario_msg; other_msg])
                  (fst (schedule sample_order (start no_failure "RX1" [scenario_msg; other_msg])))
                  (snd (schedule sample_order (start no_failure "RX1" [scenario_msg; other_msg]))))
    by apply schedule_sound.
  split; [exact H|].
  exact (proj1 (callbacks_never_deadlock no_failure "RX1" [scenario_msg; other_msg]
                  (fst (schedule sample_order (start no_failure "RX1" [scenario_msg; other_msg])))
                  (fst (snd (schedule sample_order (start no_failure "RX1" [scenario_msg; other_msg]))))
                  (snd (snd (schedule sample_order (start no_failure "RX1" [scenario_msg; other_msg]))))
                  H)).
Defined.

Lemma callbacks_terminate_witness :
  let c0 := start no_failure "RX1" [scenario_msg; other_msg] in
  let tr := fst (schedule sample_order c0) in
  let c := snd (schedule sample_order c0) in
  run c0 tr c /\ List.length tr <= 15 * 2.
Proof.
  cbv zeta.
  assert (H : run (start no_failure "RX1" [scenario_msg; other_msg])
                  (fst (schedule sample_order (start no_failure "RX1" [scenario_msg; other_msg])))
                  (snd (schedule sample_order (start no_failure "RX1" [scenario_msg; other_msg]))))
    by apply schedule_sound.
  split; [exact H|].
  exact (proj2 (callbacks_terminate no_failure "RX1" [scenario_msg; other_msg]
                  _ _ H)).
Defined.

Lemma csv_record_injective_witness :
  csv_writerow [PyInt 1; PyNone] = csv_writerow [PyStr "1"; PyStr ""] /\
  map csv_field_text [PyInt 1; PyNone]
    = map csv_field_text [PyStr "1"; PyStr ""].
Proof.
  assert (H : csv_writerow [PyInt 1; PyNone]
              = csv_writerow [PyStr "1"; PyStr ""]) by reflexivity.
  split; [exact H|].
  exact (csv_record_injective [PyInt 1; PyNone] [PyStr "1"; PyStr ""] H).
Defined.

Lemma callsign_injection_keeps_keys_distinct_witness :
  NoDup (dict_keys scenario_record) /\
  NoDup (dict_keys (injected "RX1" scenario_msg scenario_record)).
Proof.
  assert (H : NoDup (dict_keys scenario_record))
    by (repeat constructor; cbn; intuition discriminate).
  split; [exact H|].
  exact (proj1 (callsign_injection_keeps_keys_distinct "RX1" scenario_msg
                  scenario_record H)).
Defined.
